(** * Math tools: equation preprocessing, numeric and symbolic solvers, plotter

    A shallow embedding of [backend/tools/math_tools]:
    [numpy_solver.py], [sympy_solver.py] and [plotter.py].

    Modelling conventions.
    - Python [str] values are lists of 8-bit characters; the classes of the
      [re] module ([\d], [\s], [\w], [[a-zA-Z]]) are the ASCII ones.
    - Python floats are exact rationals ([Q]).  The one NaN that the source
      writes itself (the handler of [ode_func]) is [None] in [option Q].
    - Exceptions are the left summand of [exc]; a [try]/[except] is a match
      on it.
    - NumPy, SciPy, SymPy and Matplotlib are not part of the repository:
      their entry points are fields of a record passed to every function
      that calls them. *)

From Stdlib Require Import String Ascii List Bool Arith ZArith QArith Qabs Qround.
From Stdlib Require Import Qminmax Lia Lqa.
From Stdlib Require Import Sorting.Sorted.
Import ListNotations.

Set Implicit Arguments.

(* ================================================================== *)
(** * Part I: definitions                                              *)
(* ================================================================== *)

(** ** Python values used by the tools *)
Module Py.

(** A [str]. *)
Definition text := list ascii.

Definition str (s : string) : text := list_ascii_of_string s.

Definition code (c : ascii) : N := N_of_ascii c.

(** The line feed. *)
Definition nl : ascii := ascii_of_N 10.

Definition between (lo hi : N) (c : ascii) : bool :=
  (lo <=? code c)%N && (code c <=? hi)%N.

(** [\d] *)
Definition is_digit (c : ascii) : bool := between 48 57 c.

(** [[a-zA-Z]] *)
Definition is_alpha (c : ascii) : bool := between 97 122 c || between 65 90 c.

(** [\s], also the characters removed by [str.strip()] *)
Definition is_space (c : ascii) : bool :=
  between 9 13 c || between 28 32 c.

(** [\w] *)
Definition is_word (c : ascii) : bool :=
  is_alpha c || is_digit c || (code c =? 95)%N.

Definition is_char (x c : ascii) : bool := Ascii.eqb c x.

Definition text_eqb (a b : text) : bool :=
  if list_eq_dec ascii_dec a b then true else false.

(** [c in s] for a one-character [c] *)
Definition contains (c : ascii) (s : text) : bool := existsb (is_char c) s.

Fixpoint is_prefix (p s : text) : bool :=
  match p, s with
  | [], _ => true
  | _ :: _, [] => false
  | x :: p', y :: s' => Ascii.eqb x y && is_prefix p' s'
  end.

(** [p in s] *)
Fixpoint is_infix (p s : text) : bool :=
  is_prefix p s || match s with _ :: s' => is_infix p s' | [] => false end.

(** [x in l] for a list of texts *)
Definition mem (x : text) (l : list text) : bool := existsb (text_eqb x) l.

(** Order of [str]: lexicographic by character code. *)
Fixpoint text_leb (a b : text) : bool :=
  match a, b with
  | [], _ => true
  | _ :: _, [] => false
  | x :: a', y :: b' =>
      if (code x <? code y)%N then true
      else if (code y <? code x)%N then false
      else text_leb a' b'
  end.

Fixpoint insert_text (x : text) (l : list text) : list text :=
  match l with
  | [] => [x]
  | y :: l' => if text_leb x y then x :: l else y :: insert_text x l'
  end.

(** [sorted(list(set(l)))] for texts *)
Fixpoint sorted_set (l : list text) : list text :=
  match l with
  | [] => []
  | x :: l' => if mem x l' then sorted_set l' else insert_text x (sorted_set l')
  end.

(** [sep.join(l)] *)
Fixpoint join (sep : text) (l : list text) : text :=
  match l with
  | [] => []
  | [x] => x
  | x :: l' => x ++ sep ++ join sep l'
  end.

(** [s.replace(c, new)] for a one-character [c] *)
Fixpoint replace (c : ascii) (new : text) (s : text) : text :=
  match s with
  | [] => []
  | x :: s' => (if Ascii.eqb x c then new else [x]) ++ replace c new s'
  end.

(** [s.split(c, 1)] when [c in s]: the text before the first [c] and the
    text after it. *)
Fixpoint split1 (c : ascii) (s : text) : text * text :=
  match s with
  | [] => ([], [])
  | x :: s' =>
      if Ascii.eqb x c then ([], s')
      else let (l, r) := split1 c s' in (x :: l, r)
  end.

Fixpoint lstrip (s : text) : text :=
  match s with
  | x :: s' => if is_space x then lstrip s' else s
  | [] => []
  end.

(** [s.strip()] *)
Definition strip (s : text) : text := rev (lstrip (rev (lstrip s))).

(** Exceptions raised by the tools or by the libraries they call. *)
Inductive exn : Type :=
| ZeroDivisionError
| IndexError
| KeyError (key : text)
| TypeError (msg : text)
| ValueError (msg : text)
| LinAlgError (msg : text)
| OtherError (msg : text).

(** [str(e)] *)
Definition exn_msg (e : exn) : text :=
  match e with
  | ZeroDivisionError => str "division by zero"
  | IndexError => str "list index out of range"
  | KeyError k => k
  | TypeError m | ValueError m | LinAlgError m | OtherError m => m
  end.

(** A computation that returns a value or raises. *)
Definition exc (A : Type) : Type := (exn + A)%type.

Definition ret {A} (a : A) : exc A := inr a.
Definition raise {A} (e : exn) : exc A := inl e.
Definition bind {A B} (m : exc A) (f : A -> exc B) : exc B :=
  match m with
  | inl e => inl e
  | inr a => f a
  end.

(** [[f(x) for x in l]]: the first exception ends the comprehension. *)
Fixpoint map_exc {A B} (f : A -> exc B) (l : list A) : exc (list B) :=
  match l with
  | [] => inr []
  | x :: l' =>
      match f x with
      | inl e => inl e
      | inr y =>
          match map_exc f l' with
          | inl e => inl e
          | inr ys => inr (y :: ys)
          end
      end
  end.

(** A loop whose body updates a state and may raise. *)
Fixpoint fold_exc {A S} (f : S -> A -> exc S) (l : list A) (s : S) : exc S :=
  match l with
  | [] => inr s
  | x :: l' =>
      match f s x with
      | inl e => inl e
      | inr s' => fold_exc f l' s'
      end
  end.

(** JSON values of a response. *)
#[warning="-register-all"]
Inductive value : Type :=
| VNull
| VBool (b : bool)
| VInt (z : Z)
| VNum (q : Q)
| VFloat (y : option Q)
| VStr (s : text)
| VList (l : list value)
| VObj (o : list (text * value)).

(** A [dict] with [str] keys, in insertion order. *)
Definition dict := list (text * value).

Fixpoint dict_set (k : text) (v : value) (d : dict) : dict :=
  match d with
  | [] => [(k, v)]
  | (k', v') :: d' =>
      if text_eqb k' k then (k', v) :: d' else (k', v') :: dict_set k v d'
  end.

Definition has_key (k : text) (d : dict) : bool :=
  existsb (fun kv => text_eqb (fst kv) k) d.

Fixpoint dict_get (k : text) (d : dict) : option value :=
  match d with
  | [] => None
  | (k', v) :: d' => if text_eqb k' k then Some v else dict_get k d'
  end.


(** The error variant of a response. *)
Definition error_object (msg : text) : dict := [(str "error", VStr msg)].

(** [d.get(key, default)] on a request field that may be absent. *)
Definition get {A} (field : option A) (default : A) : A :=
  match field with
  | Some a => a
  | None => default
  end.

End Py.

Notation "x <- m ;; k" := (Py.bind m (fun x => k))
  (at level 61, m at next level, right associativity).

(** ** The [re] module, for the patterns the tools use *)
Module Re.
Import Py.

(** Patterns.  Repetition is over a character class, the only form the
    sources use. *)
Inductive regex : Type :=
| Lit (c : ascii)                    (* a literal character *)
| Cls (p : ascii -> bool)            (* one character of a class *)
| Star (p : ascii -> bool)           (* cls*, greedy *)
| Plus (p : ascii -> bool)           (* cls+, greedy *)
| Opt (r : regex)                    (* r?, greedy *)
| Seq (r1 r2 : regex)
| Grp (i : nat) (r : regex)          (* capture group number i *)
| WordB                              (* \b *)
| NotAhead (p : ascii -> bool).      (* (?!cls) *)

(** A position in the subject: the character before it (for [\b]), the
    text from it on, and the groups captured so far. *)
Record mstate : Type := MState {
  prev : option ascii;
  rest : text;
  caps : list (nat * text)
}.

Definition word_before (st : mstate) : bool :=
  match prev st with Some c => is_word c | None => false end.

Definition word_after (st : mstate) : bool :=
  match rest st with c :: _ => is_word c | [] => false end.

(** Greedy [cls*]: the longest run first, then shorter ones. *)
Fixpoint star_cls {A} (p : ascii -> bool) (pr : option ascii) (s : text)
    (cs : list (nat * text)) (k : mstate -> option A) : option A :=
  match s with
  | c :: s' =>
      if p c then
        match star_cls p (Some c) s' cs k with
        | Some a => Some a
        | None => k (MState pr s cs)
        end
      else k (MState pr s cs)
  | [] => k (MState pr [] cs)
  end.

(** Backtracking matcher in continuation-passing style: [k] is what
    remains to be matched after [r]. *)
Fixpoint rmatch {A} (r : regex) (st : mstate) (k : mstate -> option A)
    : option A :=
  match r with
  | Lit c =>
      match rest st with
      | x :: s' => if Ascii.eqb x c then k (MState (Some x) s' (caps st)) else None
      | [] => None
      end
  | Cls p =>
      match rest st with
      | x :: s' => if p x then k (MState (Some x) s' (caps st)) else None
      | [] => None
      end
  | Star p => star_cls p (prev st) (rest st) (caps st) k
  | Plus p =>
      match rest st with
      | x :: s' => if p x then star_cls p (Some x) s' (caps st) k else None
      | [] => None
      end
  | Opt r' =>
      match rmatch r' st k with
      | Some a => Some a
      | None => k st
      end
  | Seq r1 r2 => rmatch r1 st (fun st' => rmatch r2 st' k)
  | Grp i r' =>
      rmatch r' st (fun st' =>
        let n := (length (rest st) - length (rest st'))%nat in
        k (MState (prev st') (rest st')
             ((i, firstn n (rest st)) :: caps st')))
  | WordB => if xorb (word_before st) (word_after st) then k st else None
  | NotAhead p =>
      match rest st with
      | x :: _ => if p x then None else k st
      | [] => k st
      end
  end.

(** A literal string as a pattern. *)
Fixpoint lits (s : text) (r : regex) : regex :=
  match s with
  | [] => r
  | c :: s' => Seq (Lit c) (lits s' r)
  end.

(** A match: the matched text and the captured groups. *)
Record hit : Type := Hit {
  whole : text;
  groups : list (nat * text)
}.

(** Group [i] of a match; the empty text if the group did not take part. *)
Fixpoint group (i : nat) (gs : list (nat * text)) : text :=
  match gs with
  | [] => []
  | (j, t) :: gs' => if Nat.eqb i j then t else group i gs'
  end.

Definition mk_hit (s : text) (st : mstate) : hit :=
  Hit (firstn (length s - length (rest st)) s) (caps st).

(** A match that starts at the current position. *)
Definition match_at (r : regex) (pr : option ascii) (s : text) : option hit :=
  rmatch r (MState pr s []) (fun st => Some (mk_hit s st)).

(** As [match_at], but the empty match is refused (the engine then
    backtracks into the next alternative). *)
Definition match_nonempty (r : regex) (pr : option ascii) (s : text)
    : option hit :=
  rmatch r (MState pr s [])
    (fun st => if (length (rest st) <? length s)%nat
               then Some (mk_hit s st) else None).

(** [re.search]: the leftmost match. *)
Fixpoint search_from (r : regex) (pr : option ascii) (s : text) : option hit :=
  match match_at r pr s with
  | Some h => Some h
  | None =>
      match s with
      | c :: s' => search_from r (Some c) s'
      | [] => None
      end
  end.

Definition search (r : regex) (s : text) : option hit := search_from r None s.

(** The subject cut into non-overlapping matches, left to right, and the
    characters between them.  [skip] counts the characters still covered
    by the last match.  After an empty match the same position is tried
    again for a non-empty one. *)
Inductive piece : Type :=
| Keep (c : ascii)
| Found (h : hit).

Fixpoint scan (r : regex) (pr : option ascii) (s : text) (skip : nat)
    : list piece :=
  match skip, s with
  | S n, c :: s' => scan r (Some c) s' n
  | S _, [] => []
  | O, [] =>
      match match_at r pr [] with
      | Some h => [Found h]
      | None => []
      end
  | O, c :: s' =>
      match match_at r pr s with
      | None => Keep c :: scan r (Some c) s' 0
      | Some h =>
          match length (whole h) with
          | S n => Found h :: scan r (Some c) s' n
          | O =>
              Found h ::
              match match_nonempty r pr s with
              | Some h' => Found h' :: scan r (Some c) s' (length (whole h') - 1)
              | None => Keep c :: scan r (Some c) s' 0
              end
          end
      end
  end.

(** [re.findall] for a pattern without groups: the matched texts. *)
Definition findall0 (r : regex) (s : text) : list text :=
  flat_map (fun p => match p with Keep _ => [] | Found h => [whole h] end)
           (scan r None s 0).

(** [re.findall] for a pattern with one group: the texts of group 1. *)
Definition findall1 (r : regex) (s : text) : list text :=
  flat_map (fun p => match p with Keep _ => [] | Found h => [group 1 (groups h)] end)
           (scan r None s 0).

(** [re.sub]: every match replaced by the template applied to it. *)
Definition emit (template : hit -> text) (p : piece) : text :=
  match p with
  | Keep c => [c]
  | Found h => template h
  end.

Definition sub (r : regex) (template : hit -> text) (s : text) : text :=
  flat_map (emit template) (scan r None s 0).

End Re.

(** ** The preprocessor, identical in [numpy_solver.py] and [sympy_solver.py] *)
Module Preprocess.
Import Py Re.

(** The pattern "(\d)([a-zA-Z])". *)
Definition digit_letter : regex :=
  Seq (Grp 1 (Cls is_digit)) (Grp 2 (Cls is_alpha)).

(** The pattern "\)(\()". *)
Definition paren_paren : regex :=
  Seq (Lit ")") (Grp 1 (Lit "(")).

(** The template "\1*\2". *)
Definition tmpl_digit_letter (h : hit) : text :=
  group 1 (groups h) ++ str "*" ++ group 2 (groups h).

(** The template ")*\1". *)
Definition tmpl_paren_paren (h : hit) : text :=
  str ")*" ++ group 1 (groups h).

Definition preprocess_equation (equation : text) : text :=
  let equation := replace "^" (str "**") equation in
  let processed := sub digit_letter tmpl_digit_letter equation in
  let processed := sub paren_paren tmpl_paren_paren processed in
  processed.

(** The transformation in the words of the specification: a ["*"] goes
    between every character of class [p] and an immediately following
    character of class [q]. *)
Fixpoint insert_between (p q : ascii -> bool) (s : text) : text :=
  match s with
  | [] => []
  | a :: t =>
      a :: (match t with
            | b :: _ => if p a && q b then str "*" else []
            | [] => []
            end) ++ insert_between p q t
  end.

Definition preprocess_spec (s : text) : text :=
  insert_between (is_char ")") (is_char "(")
    (insert_between is_digit is_alpha (replace "^" (str "**") s)).

(** The "standardize" step shared by the single-equation solvers: the
    text echoed in the ["expression"] field. *)
Definition standardize (equation : text) : text :=
  if contains "=" equation then
    let (left, right) := split1 "=" equation in
    let left := preprocess_equation (strip left) in
    let right := preprocess_equation (strip right) in
    str "(" ++ left ++ str ") - (" ++ right ++ str ")"
  else preprocess_equation equation.

End Preprocess.

(** ** Numbers: Python and NumPy arithmetic on exact rationals *)
Module Num.
Import Py.
Local Open Scope Q_scope.

Definition Qltb (a b : Q) : bool := negb (Qle_bool b a).

(** Round half to even, to an integer. *)
Definition round_half_even (q : Q) : Z :=
  let f := Qfloor q in
  match Qcompare (q - inject_Z f) (1 # 2) with
  | Lt => f
  | Gt => (f + 1)%Z
  | Eq => if Z.even f then f else (f + 1)%Z
  end.

(** [round(x, n)] *)
Definition py_round (x : Q) (n : Z) : Q :=
  if (0 <=? n)%Z then
    Qred (inject_Z (round_half_even (x * inject_Z (10 ^ n))) / inject_Z (10 ^ n))
  else
    Qred (inject_Z (round_half_even (x / inject_Z (10 ^ (- n))) * 10 ^ (- n))%Z).

(** [np.linspace(start, stop, num)] for [num >= 0] *)
Definition linspace (start stop : Q) (num : nat) : list Q :=
  map (fun i => start + inject_Z (Z.of_nat i)
                        * ((stop - start) / inject_Z (Z.of_nat num - 1)))
      (seq 0 num).

(** [np.linspace] with a JSON integer for [num]: a negative one raises. *)
Definition np_linspace (start stop : Q) (num : Z) : exc (list Q) :=
  if (num <? 0)%Z
  then raise (ValueError (str "Number of samples must be non-negative."))
  else ret (linspace start stop (Z.to_nat num)).

(** [l[i]] *)
Definition index {A} (l : list A) (i : nat) : exc A :=
  match nth_error l i with
  | Some a => ret a
  | None => raise IndexError
  end.

(** [l[i] = v]; out of range the assignment raises. *)
Fixpoint set_index {A} (l : list A) (i : nat) (v : A) : exc (list A) :=
  match l, i with
  | [], _ => raise IndexError
  | _ :: l', O => ret (v :: l')
  | a :: l', S i' => l'' <- set_index l' i' v ;; ret (a :: l'')
  end.

(** [list(set(l))], one representative of each class of equal numbers *)
Fixpoint dedup (l : list Q) : list Q :=
  match l with
  | [] => []
  | x :: l' => x :: filter (fun y => negb (Qeq_bool x y)) (dedup l')
  end.

Fixpoint insert_sorted (x : Q) (l : list Q) : list Q :=
  match l with
  | [] => [x]
  | y :: l' => if Qle_bool x y then x :: l else y :: insert_sorted x l'
  end.

(** [sorted(l)] *)
Definition sorted (l : list Q) : list Q := fold_right insert_sorted [] l.

Definition digit_val (c : ascii) : Z := (Z.of_N (code c) - 48)%Z.

Fixpoint span (p : ascii -> bool) (s : text) : text * text :=
  match s with
  | c :: s' => if p c then let (a, b) := span p s' in (c :: a, b) else ([], s)
  | [] => ([], [])
  end.

Definition digits_val (ds : text) : Z :=
  fold_left (fun acc c => (10 * acc + digit_val c)%Z) ds 0%Z.

(** [float(s)] on a text made of a sign, blanks, digits and a point, the
    only texts the patterns of the linear-system solver capture:
    an optional sign, then digits with an optional point and further
    digits, or a point followed by digits, between optional blanks;
    anything else raises [ValueError]. *)
Definition py_float (s : text) : exc Q :=
  let bad := raise (ValueError (str "could not convert string to float: " ++ s)) in
  let t := strip s in
  let (neg, t) :=
    match t with
    | c :: t' =>
        if Ascii.eqb c "-" then (true, t')
        else if Ascii.eqb c "+" then (false, t') else (false, t)
    | [] => (false, [])
    end in
  let (ip, t) := span is_digit t in
  let (fp, t) :=
    match t with
    | c :: t' => if Ascii.eqb c "." then span is_digit t' else ([], t)
    | [] => ([], [])
    end in
  match ip ++ fp, t with
  | _ :: _, [] =>
      let m := inject_Z (digits_val ip)
               + inject_Z (digits_val fp) / inject_Z (10 ^ Z.of_nat (length fp)) in
      ret (Qred (if neg then - m else m))
  | _, _ => bad
  end.

End Num.

(** ** [numpy_solver.py] *)
Module numpy_solver.
Import Py Re Num Preprocess.
Local Open Scope Q_scope.

(** The object returned by [scipy.integrate.solve_ivp]. *)
Record ivp_result : Type := IvpResult {
  success : bool;
  message : text;
  nfev : Z;
  sol : list Q -> exc (list (option Q))   (* result.sol(t_eval)[0] *)
}.

(** What the module takes from Python, NumPy and SciPy. *)
Record lib : Type := Lib {
  (* eval(equation, safe_globals) with "x" bound *)
  eval_x : text -> Q -> exc Q;
  (* eval(equation, safe_globals) with "x" and "y" bound *)
  eval_xy : text -> Q -> option Q -> exc (option Q);
  (* optimize.newton(f, x0) *)
  newton : (Q -> exc Q) -> Q -> exc Q;
  (* optimize.brentq(f, a, b) *)
  brentq : (Q -> exc Q) -> Q -> Q -> exc Q;
  (* np.linalg.solve(A, b) *)
  linalg_solve : list (list Q) -> list Q -> exc (list Q);
  (* solve_ivp(ode_func, [x0, x_end], [y0], method='RK45', max_step, rtol, atol) *)
  solve_ivp : (Q -> option Q -> option Q) -> Q -> Q -> Q -> Q -> Q -> exc ivp_result;
  (* the text of a value inside an f-string *)
  fmt_num : Q -> text;
  fmt_nums : list Q -> text;
  fmt_matrix : list (list Q) -> text;
  fmt_strs : list text -> text;
  fmt_int : Z -> text
}.

Record equation_request : Type := EquationRequest {
  equation : option text;
  variable : option text;
  domain : option (list Q);
  precision : option Z
}.

Record system_request : Type := SystemRequest {
  equations : option (list text);
  variables : option (list text)
}.

Record ode_request : Type := OdeRequest {
  ode_equation : option text;
  initialCondition : option Q;
  x0 : option Q;
  xEnd : option Q;
  numPoints : option Z;
  method : option text;
  maxStep : option Q;
  tolerance : option Q
}.

(** [1e-10] *)
Definition tol : Q := 1 # 10000000000.

(** State of the root search: [solutions] and [steps]. *)
Definition search_state : Type := (list Q * list text)%type.

Section Equation.
Variable L : lib.
Variable f : Q -> exc Q.
Variables lo hi : Q.          (* domain[0], domain[1] *)
Variable precision_ : Z.

(** One pass of the loop over the starting points; the bare [except]
    leaves the state as it was. *)
Definition newton_attempt (st : search_state) (x0_ : Q) : search_state :=
  let (solutions, steps) := st in
  let attempt : exc search_state :=
    sol_ <- newton L f x0_ ;;
    valid <- (if Qle_bool lo sol_ && Qle_bool sol_ hi
              then (y <- f sol_ ;; ret (Qltb (Qabs y) tol))
              else ret false) ;;
    if valid then
      if negb (existsb (fun s => Qltb (Qabs (s - sol_)) tol) solutions) then
        ret (solutions ++ [py_round sol_ precision_],
             steps ++ [str "Found solution from starting point " ++ fmt_num L x0_
                       ++ str ": " ++ fmt_num L sol_])
      else ret st
    else ret st in
  match attempt with
  | inr st' => st'
  | inl _ => st
  end.

(** One pass of the loop over adjacent samples [(a, b)] with values
    [(ya, yb)]. *)
Definition bracket_attempt (st : search_state) (p : (Q * Q) * (Q * Q))
    : search_state :=
  let (solutions, steps) := st in
  let '((a, b), (ya, yb)) := p in
  if Qle_bool (ya * yb) 0 then
    match brentq L f a b with
    | inr sol_ =>
        (solutions ++ [py_round sol_ precision_],
         steps ++ [str "Found solution in interval [" ++ fmt_num L a ++ str ", "
                   ++ fmt_num L b ++ str "]: " ++ fmt_num L sol_])
    | inl _ =>
        (solutions,
         steps ++ [str "Failed to converge in interval [" ++ fmt_num L a
                   ++ str ", " ++ fmt_num L b ++ str "]"])
    end
  else st.

(** [(l[i], l[i+1])] for [i] in [range(len(l) - 1)] *)
Definition adjacent {A} (l : list A) : list (A * A) := combine l (tl l).

Definition brute_force (st : search_state) : search_state :=
  let (solutions, steps) := st in
  let steps := steps ++ [str "Using brute force root finding"] in
  let x_vals := linspace lo hi 1000 in
  match map_exc f x_vals with
  | inr y_vals =>
      fold_left bracket_attempt
                (combine (adjacent x_vals) (adjacent y_vals))
                (solutions, steps)
  | inl e =>
      (solutions, steps ++ [str "Error in brute force approach: " ++ exn_msg e])
  end.

Definition find_roots (steps : list text) : search_state :=
  let x0_values := linspace lo hi 10 in
  let st := fold_left newton_attempt x0_values ([], steps) in
  let st := match fst st with
            | [] => brute_force st
            | _ :: _ => st
            end in
  (sorted (dedup (fst st)), snd st).
End Equation.

Definition solve_equation_numeric (L : lib) (data : equation_request) : dict :=
  let equation := get (equation data) [] in
  let variable_name := get (variable data) (str "x") in
  let domain := get (domain data) [-1000; 1000] in
  let precision := get (precision data) 4%Z in
  let equation := standardize equation in
  let body : exc dict :=
    let steps := [str "Using numeric method to solve: " ++ equation ++ str " = 0"] in
    let f := eval_x L equation in
    lo <- index domain 0 ;;
    hi <- index domain 1 ;;
    let (solutions, steps) := find_roots L f lo hi precision steps in
    ret [(str "solutions", VList (map VNum solutions));
         (str "expression", VStr equation);
         (str "variable", VStr variable_name);
         (str "steps", VList (map VStr steps))] in
  match body with
  | inr d => d
  | inl e => error_object (str "Error solving equation: " ++ exn_msg e)
  end.

(** *** Linear systems *)

Definition is_sign (c : ascii) : bool := Ascii.eqb c "-" || Ascii.eqb c "+".

(** The pattern "[a-zA-Z]+". *)
Definition name_pattern : regex := Plus is_alpha.

(** The coefficient pattern: group 1 is [[-+]? \s* \d* \.? \d*]; after it
    come [\s* \*? \s*], the variable and [\b].  The variable is an
    identifier, so its text stands for itself in the pattern. *)
Definition coeff_pattern (var : text) : regex :=
  Seq (Grp 1 (Seq (Opt (Cls is_sign))
             (Seq (Star is_space)
             (Seq (Star is_digit)
             (Seq (Opt (Lit ".")) (Star is_digit))))))
  (Seq (Star is_space)
  (Seq (Opt (Lit "*"))
  (Seq (Star is_space)
       (lits var WordB)))).

(** The constant pattern: group 1 is [[-+]? \s* \d+ \.? \d*]; after it
    come [\s*] and the negative lookahead [(?![a-zA-Z])]. *)
Definition const_pattern : regex :=
  Seq (Grp 1 (Seq (Opt (Cls is_sign))
             (Seq (Star is_space)
             (Seq (Plus is_digit)
             (Seq (Opt (Lit ".")) (Star is_digit))))))
  (Seq (Star is_space) (NotAhead is_alpha)).

Definition common_funcs : list text :=
  [str "sin"; str "cos"; str "tan"; str "log"; str "exp"; str "sqrt"; str "pi"].

(** The variables of a system that names none. *)
Definition infer_variables (equations : list text) : list text :=
  let all_vars := flat_map (findall0 name_pattern) equations in
  sorted_set (filter (fun v => negb (mem v common_funcs)) all_vars).

(** The loop over the matches of one side: each match, stripped, with a
    bare sign completed by ["1"], is converted and added to ([sign = 1])
    or subtracted from ([sign = -1]) the coefficient. *)
Definition add_match (sign : Q) (acc : Q) (m : text) : exc Q :=
  let m := strip m in
  let m := if mem m [str "+"; str "-"; []] then m ++ str "1" else m in
  v <- py_float m ;;
  ret (acc + sign * v).

Definition coefficient (left right var : text) : exc Q :=
  let pattern := coeff_pattern var in
  c <- fold_exc (add_match 1) (findall1 pattern left) 0 ;;
  fold_exc (add_match (-1)) (findall1 pattern right) c.

Definition constant_of (side : text) : exc Q :=
  match search const_pattern side with
  | Some h => py_float (group 1 (groups h))
  | None => ret 0
  end.

(** State of the loop over the equations: [A], [b] and [steps]. *)
Definition row_state : Type := (list (list Q) * list Q * list text)%type.

(** The body of that loop: one row of [A], one entry of [b], two steps. *)
Definition parse_row (L : lib) (variables : list text) (st : row_state)
    (eq : text) : exc row_state :=
  let '(A, b, steps) := st in
  let (left, right) :=
    if contains "=" eq then
      let (l, r) := split1 "=" eq in (strip l, strip r)
    else (eq, str "0") in
  let left := preprocess_equation left in
  let right := preprocess_equation right in
  let steps := steps ++ [str "Processed equation: " ++ left ++ str " = " ++ right] in
  coeffs <- map_exc (coefficient left right) variables ;;
  left_const <- constant_of left ;;
  right_const <- constant_of right ;;
  let const := right_const - left_const in
  ret (A ++ [coeffs], b ++ [const],
       steps ++ [str "Coefficients: " ++ fmt_nums L coeffs
                 ++ str ", Constant: " ++ fmt_num L const]).

(** [result[var] = round(float(solution[i]), 6)] for every variable. *)
Fixpoint format_result (variables : list text) (i : nat) (solution : list Q)
    (result : dict) : exc dict :=
  match variables with
  | [] => ret result
  | var :: vs =>
      x <- index solution i ;;
      format_result vs (S i) solution (dict_set var (VNum (py_round x 6)) result)
  end.

Definition matrix_value (A : list (list Q)) : value :=
  VList (map (fun row => VList (map VNum row)) A).

Definition solve_linear_system_numeric (L : lib) (data : system_request) : dict :=
  let equations := get (equations data) [] in
  let variables := get (variables data) [] in
  match equations with
  | [] => error_object (str "No equations provided")
  | _ :: _ =>
      let body : exc dict :=
        let variables :=
          match variables with
          | [] => infer_variables equations
          | _ :: _ => variables
          end in
        let steps := [str "Variables: " ++ fmt_strs L variables] in
        st <- fold_exc (parse_row L variables) equations ([], [], steps) ;;
        let '(A, b, steps) := st in
        let steps := steps ++ [str "Coefficient matrix A:" ++ [nl] ++ fmt_matrix L A;
                               str "Constant vector b:" ++ [nl] ++ fmt_nums L b] in
        solution <- linalg_solve L A b ;;
        result <- format_result variables 0 solution [] ;;
        ret [(str "solution", VObj result);
             (str "variables", VList (map VStr variables));
             (str "matrix", matrix_value A);
             (str "constants", VList (map VNum b));
             (str "steps", VList (map VStr steps))] in
      match body with
      | inr d => d
      | inl (LinAlgError _) =>
          error_object (str "The system is singular or not uniquely solvable")
      | inl e => error_object (str "Error solving system: " ++ exn_msg e)
      end
  end.

(** *** Ordinary differential equations *)

(** [+] and [*] of NumPy floats: NaN absorbs. *)
Definition fadd (a b : option Q) : option Q :=
  match a, b with
  | Some x, Some y => Some (x + y)
  | _, _ => None
  end.

Definition fmul (a b : option Q) : option Q :=
  match a, b with
  | Some x, Some y => Some (x * y)
  | _, _ => None
  end.

(** [np.zeros(n)]: a negative [n] raises. *)
Definition np_zeros (n : Z) : exc (list (option Q)) :=
  if (n <? 0)%Z then raise (ValueError (str "negative dimensions are not allowed"))
  else ret (repeat (Some 0) (Z.to_nat n)).

(** The right-hand side [f(x, y)]; a failed evaluation gives NaN. *)
Definition ode_func (L : lib) (equation : text) (x : Q) (y : option Q)
    : option Q :=
  match eval_xy L equation x y with
  | inr v => v
  | inl _ => None
  end.

(** The body of the Euler loop for index [i]. *)
Definition euler_step (L : lib) (equation : text) (h : Q) (x_values : list Q)
    (y_values : list (option Q)) (i : nat) : exc (list (option Q)) :=
  x <- index x_values (i - 1) ;;
  y <- index y_values (i - 1) ;;
  let slope := ode_func L equation x y in
  set_index y_values i (fadd y (fmul (Some h) slope)).

Definition floats_value (l : list (option Q)) : value := VList (map VFloat l).

(** The derivative expression: the side of the equality that is not
    ["dy/dx"] or ["y'"], preprocessed. *)
Definition derivative_text (equation : text) : text :=
  let equation :=
    if contains "=" equation then
      let (lhs, rhs) := split1 "=" equation in
      if is_infix (str "dy/dx") lhs || is_infix (str "y'") lhs
      then strip rhs else strip lhs
    else equation in
  preprocess_equation equation.

Definition solve_ode (L : lib) (data : ode_request) : dict :=
  let equation := get (ode_equation data) [] in
  let initial_condition := get (initialCondition data) 0 in
  let x0 := get (x0 data) 0 in
  let x_end := get (xEnd data) 10 in
  let num_points := get (numPoints data) 100%Z in
  let method := get (method data) (str "RK45") in
  let max_step := get (maxStep data) (1 # 10) in
  let tolerance := get (tolerance data) (1 # 1000000) in
  let body : exc dict :=
    let equation := derivative_text equation in
    let steps :=
      [str "ODE to solve: dy/dx = " ++ equation;
       str "Initial condition: y(" ++ fmt_num L x0 ++ str ") = "
         ++ fmt_num L initial_condition;
       str "Integration range: [" ++ fmt_num L x0 ++ str ", "
         ++ fmt_num L x_end ++ str "]"] in
    if text_eqb method (str "RK45") then
      let steps := steps ++
        [str "Using Runge-Kutta 4(5) method with adaptive step size";
         str "Tolerance: " ++ fmt_num L tolerance] in
      result <- solve_ivp L (ode_func L equation) x0 x_end initial_condition
                  max_step tolerance ;;
      if negb (success result) then
        ret (error_object (str "ODE solver failed: " ++ message result))
      else
        let steps := steps ++
          [str "ODE solver status: " ++ message result;
           str "Function evaluations: " ++ fmt_int L (nfev result)] in
        t_eval <- np_linspace x0 x_end num_points ;;
        y_sol <- sol result t_eval ;;
        ret [(str "x", VList (map VNum t_eval));
             (str "y", floats_value y_sol);
             (str "equation", VStr equation);
             (str "method", VStr (str "RK45"));
             (str "success", VBool true);
             (str "message", VStr (message result));
             (str "steps", VList (map VStr steps))]
    else if text_eqb method (str "Euler") then
      let steps := steps ++ [str "Using Euler's method with fixed step size"] in
      h <- (if (num_points - 1 =? 0)%Z then raise ZeroDivisionError
            else ret ((x_end - x0) / inject_Z (num_points - 1))) ;;
      let steps := steps ++ [str "Step size: " ++ fmt_num L h] in
      x_values <- np_linspace x0 x_end num_points ;;
      y_values <- np_zeros num_points ;;
      y_values <- set_index y_values 0 (Some initial_condition) ;;
      y_values <- fold_exc (euler_step L equation h x_values)
                    (seq 1 (Z.to_nat num_points - 1)) y_values ;;
      ret [(str "x", VList (map VNum x_values));
           (str "y", floats_value y_values);
           (str "equation", VStr equation);
           (str "method", VStr (str "Euler"));
           (str "success", VBool true);
           (str "message", VStr (str "Solution computed using Euler's method"));
           (str "steps", VList (map VStr steps))]
    else
      ret (error_object (str "Unsupported method: " ++ method)) in
  match body with
  | inr d => d
  | inl e => error_object (str "Error solving ODE: " ++ exn_msg e)
  end.

End numpy_solver.

(** ** [sympy_solver.py] *)
Module sympy_solver.
Import Py Num Preprocess.
Local Open Scope Q_scope.

(** What the module takes from SymPy; [sym] is the type of SymPy objects. *)
Record lib (sym : Type) : Type := Lib {
  symbols : text -> exc sym;                    (* symbols(name) *)
  (* symbols(names), made a tuple when it is not one *)
  symbols_tuple : text -> exc (list sym);
  sympify : text -> exc sym;
  sympify_value : value -> exc sym;             (* sympify of a JSON value *)
  Eq : sym -> sym -> exc sym;
  solve : sym -> sym -> exc (list sym);         (* solve(expr, var) *)
  (* solve(eqs, vars, dict=True) *)
  solve_dict : list sym -> list sym -> exc (list (list (sym * sym)));
  to_float : sym -> exc Q;                      (* float(e) *)
  is_real : sym -> bool;                        (* e.is_real is true *)
  to_str : sym -> text;                         (* str(e) *)
  fmt_syms : list sym -> text;                  (* str of a list *)
  fmt_float : Q -> text;
  fmt_int : Z -> text;
  fmt_nat : nat -> text;
  fmt_value : value -> text;
  sym_eqb : sym -> sym -> bool;                 (* == *)
  of_int : Z -> sym;
  neg : sym -> sym;
  add : sym -> sym -> sym;
  sub : sym -> sym -> sym;
  mul : sym -> sym -> sym;
  div : sym -> sym -> exc sym;
  pow : sym -> Z -> sym;
  sqrt : sym -> sym;
  gt_zero : sym -> exc bool;                    (* bool(e > 0) *)
  is_polynomial : sym -> sym -> exc bool;
  simplify : sym -> exc sym;
  degree : sym -> sym -> exc Z;                 (* e.as_poly(var).degree() *)
  all_coeffs : sym -> sym -> exc (list sym);    (* e.as_poly(var).all_coeffs() *)
  collect : sym -> sym -> exc sym;
  factor : sym -> exc sym;
  in_free_symbols : sym -> sym -> exc bool;     (* var in e.free_symbols *)
  invert : sym -> sym -> exc (sym * sym);       (* _invert(e, 0, var) *)
  as_ordered_terms : sym -> exc (list sym);
  has : sym -> sym -> exc bool;
  is_Pow : sym -> bool;
  is_Mul : sym -> bool;
  as_base_exp : sym -> exc (sym * sym);
  is_constant : sym -> exc bool;
  as_ordered_factors : sym -> exc (list sym);
  diff : sym -> sym -> Z -> exc sym;
  integral_steps : sym -> sym -> exc text;      (* str(integral_steps(e, var)) *)
  integrate : sym -> sym -> exc sym;
  integrate_between : sym -> sym -> sym -> sym -> exc sym
}.

Arguments Lib {sym}.

Record equation_request : Type := EquationRequest {
  equation : option text;
  variable : option text;
  domain : option (list Q);
  precision : option Z;
  showSteps : option bool
}.

Record system_request : Type := SystemRequest {
  equations : option (list text);
  variables : option (list text);
  sys_showSteps : option bool
}.

Record diff_request : Type := DiffRequest {
  diff_expression : option text;
  diff_variable : option text;
  order : option Z;
  diff_showSteps : option bool
}.

Record int_request : Type := IntRequest {
  int_expression : option text;
  int_variable : option text;
  limits : option (list value);
  int_showSteps : option bool
}.

(** [s.split(c)] *)
Fixpoint split_all (c : ascii) (s : text) : list text :=
  match s with
  | [] => [[]]
  | x :: s' =>
      match split_all c s' with
      | [] => [[]]
      | t :: ts => if Ascii.eqb x c then [] :: t :: ts else (x :: t) :: ts
      end
  end.

(** ["steps": steps if show_steps else None] *)
Definition steps_value (show_steps : bool) (steps : list text) : value :=
  if show_steps then VList (map VStr steps) else VNull.

Section WithSymPy.
Variable sym : Type.
Variable L : lib sym.

(** [steps] and [expr] after an optional rewriting step: when the
    rewritten expression differs, a step is logged and [expr] rebound. *)
Definition rewritten (label : text) (steps : list text) (expr new : sym)
    : list text * sym :=
  if negb (sym_eqb L new expr)
  then (steps ++ [label ++ to_str L new ++ str " = 0"], new)
  else (steps, expr).

(** The [try] around [factor]. *)
Definition factoring_steps (steps : list text) (expr : sym) : list text :=
  match factor L expr with
  | inr factored =>
      if negb (sym_eqb L factored expr) then
        let steps := steps ++ [str "Factoring: " ++ to_str L factored ++ str " = 0"] in
        if contains "*" (to_str L factored) then
          let factors :=
            split_all "*" (replace ")" [] (replace "(" [] (to_str L factored))) in
          steps
          ++ [str "Using the zero-product property: if a*b = 0, then either a = 0 or b = 0"]
          ++ map (fun f => str "Solving " ++ f ++ str " = 0") factors
        else steps
      else steps
  | inl _ => steps ++ [str "Could not factor further"]
  end.

Definition linear_steps (steps : list text) (expr var : sym) : exc (list text) :=
  let steps := steps ++
    [str "For linear equations ax + b = 0, the solution is x = -b/a"] in
  coeffs <- all_coeffs L expr var ;;
  match coeffs with
  | [a; b] =>
      let steps := steps ++
        [str "Here a = " ++ to_str L a ++ str " and b = " ++ to_str L b] in
      q <- div L (neg L b) a ;;
      ret (steps ++ [str "Substituting: x = " ++ to_str L (neg L b) ++ str "/"
                     ++ to_str L a ++ str " = " ++ to_str L q])
  | _ => ret steps
  end.

Definition quadratic_steps (steps : list text) (expr var : sym)
    : exc (list text) :=
  let steps := steps ++
    [str "For quadratic equations ax² + bx + c = 0, we can use the quadratic formula:";
     str "x = (-b ± √(b² - 4ac)) / (2a)"] in
  coeffs <- all_coeffs L expr var ;;
  cba <- match coeffs with
         | [c; b; a] => ret (c, b, a)
         | _ => c <- index coeffs 0 ;; ret (c, of_int L 0, of_int L 0)
         end ;;
  let '(c, b, a) := cba in
  let steps := steps ++
    [str "Here a = " ++ to_str L a ++ str ", b = " ++ to_str L b
     ++ str ", c = " ++ to_str L c] in
  let discriminant := sub L (pow L b 2) (mul L (mul L (of_int L 4) a) c) in
  let steps := steps ++
    [str "Calculate the discriminant: b² - 4ac = " ++ to_str L discriminant] in
  let two_a := mul L (of_int L 2) a in
  positive <- gt_zero L discriminant ;;
  if positive then
    x1 <- div L (add L (neg L b) (sqrt L discriminant)) two_a ;;
    x2 <- div L (sub L (neg L b) (sqrt L discriminant)) two_a ;;
    ret (steps ++
      [str "Discriminant > 0, so there are two real solutions";
       str "x₁ = (" ++ to_str L (neg L b) ++ str " + √" ++ to_str L discriminant
         ++ str ") / " ++ to_str L two_a ++ str " = " ++ to_str L x1;
       str "x₂ = (" ++ to_str L (neg L b) ++ str " - √" ++ to_str L discriminant
         ++ str ") / " ++ to_str L two_a ++ str " = " ++ to_str L x2])
  else if sym_eqb L discriminant (of_int L 0) then
    x <- div L (neg L b) two_a ;;
    ret (steps ++
      [str "Discriminant = 0, so there is one repeated solution";
       str "x = " ++ to_str L (neg L b) ++ str " / " ++ to_str L two_a
         ++ str " = " ++ to_str L x])
  else
    ret (steps ++ [str "Discriminant < 0, so there are two complex solutions"]).

Definition polynomial_steps (steps : list text) (expr var : sym)
    : exc (list text) :=
  degree_ <- degree L expr var ;;
  let steps := steps ++
    [str "This is a polynomial equation of degree " ++ fmt_int L degree_] in
  expr_collected <- collect L expr var ;;
  let (steps, expr) :=
    rewritten (str "Rearranging to standard form: ") steps expr expr_collected in
  let steps := factoring_steps steps expr in
  if (degree_ =? 1)%Z then linear_steps steps expr var
  else if (degree_ =? 2)%Z then quadratic_steps steps expr var
  else ret steps.

(** The trigonometric, logarithmic and exponential branches. *)
Definition family_steps (intro1 intro2 label : text) (steps : list text)
    (expr : sym) : exc (list text) :=
  let steps := steps ++ [intro1; intro2] in
  simple <- simplify L expr ;;
  ret (fst (rewritten label steps expr simple)).

(** The [try] around [_invert]. *)
Definition general_steps (steps : list text) (expr var : sym) : list text :=
  let steps := steps ++ [str "General approach: isolating the variable"] in
  let attempt : exc (list text) :=
    free <- in_free_symbols L var expr ;;
    if free then
      lr <- invert L expr var ;;
      let (lhs, rhs) := lr in
      if sym_eqb L lhs var
      then ret (steps ++ [str "Isolating " ++ to_str L var ++ str ": "
                          ++ to_str L var ++ str " = " ++ to_str L rhs])
      else ret steps
    else ret steps in
  match attempt with
  | inr steps' => steps'
  | inl _ => steps ++ [str "Could not isolate variable directly"]
  end.

Definition generate_equation_steps (expr var : sym) : exc (list text) :=
  is_polynomial_ <- is_polynomial L expr var ;;
  let has_trig :=
    existsb (fun func => is_infix func (to_str L expr))
            [str "sin"; str "cos"; str "tan"] in
  let has_log := is_infix (str "log") (to_str L expr) in
  let has_exp := is_infix (str "exp") (to_str L expr) in
  let steps := [str "Starting with expression: " ++ to_str L expr ++ str " = 0"] in
  simple_expr <- simplify L expr ;;
  let (steps, expr) := rewritten (str "Simplifying: ") steps expr simple_expr in
  steps <-
    (if is_polynomial_ then polynomial_steps steps expr var
     else if has_trig then
       family_steps (str "This is a trigonometric equation")
         (str "For trigonometric equations, I'll look for values where the expression equals zero")
         (str "Simplifying trigonometric expression: ") steps expr
     else if has_log then
       family_steps (str "This is a logarithmic equation")
         (str "For logarithmic equations, I'll apply properties of logarithms to isolate the variable")
         (str "Simplifying logarithmic expression: ") steps expr
     else if has_exp then
       family_steps (str "This is an exponential equation")
         (str "For exponential equations, I'll apply properties of exponents to isolate the variable")
         (str "Simplifying exponential expression: ") steps expr
     else ret (general_steps steps expr var)) ;;
  ret (steps ++ [str "Finally, solving the equation using SymPy's solve function"]).

(** State of the loop over the raw solutions: [solutions] and [steps]. *)
Definition filter_state : Type := (list Q * list text)%type.

(** [if domain[0] <= float_sol <= domain[1]:] append the rounded value
    and a step. *)
Definition keep_in_domain (domain : list Q) (precision_ : Z) (label : text)
    (st : filter_state) (float_sol : Q) : exc filter_state :=
  let (solutions, steps) := st in
  lo <- index domain 0 ;;
  inside <- (if Qle_bool lo float_sol
             then (hi <- index domain 1 ;; ret (Qle_bool float_sol hi))
             else ret false) ;;
  if inside
  then ret (solutions ++ [py_round float_sol precision_],
            steps ++ [label ++ fmt_float L float_sol])
  else ret st.

(** The body of the loop over the raw solutions. *)
Definition filter_solution (domain : list Q) (precision_ : Z)
    (st : filter_state) (sol : sym) : exc filter_state :=
  let (solutions, steps) := st in
  let handler : exc filter_state :=
    if is_real L sol then
      match (float_sol <- to_float L sol ;;
             keep_in_domain domain precision_
               (str "Validated real solution: ") st float_sol) with
      | inr st' => ret st'
      | inl _ =>
          ret (solutions,
               steps ++ [str "Skipping non-numeric solution: " ++ to_str L sol])
      end
    else
      ret (solutions, steps ++ [str "Skipping complex solution: " ++ to_str L sol]) in
  match (float_sol <- to_float L sol ;;
         keep_in_domain domain precision_ (str "Validated solution: ")
           st float_sol) with
  | inr st' => ret st'
  | inl (TypeError _) | inl (ValueError _) => handler
  | inl e => raise e
  end.

Definition solve_symbolic_equation (data : equation_request) : dict :=
  let equation := get (equation data) [] in
  let variable_name := get (variable data) (str "x") in
  let domain := get (domain data) [-1000; 1000] in
  let precision := get (precision data) 4%Z in
  let show_steps := get (showSteps data) true in
  let equation := standardize equation in
  let body : exc dict :=
    let steps := [str "Using symbolic method to solve: " ++ equation ++ str " = 0"] in
    var <- symbols L variable_name ;;
    expr <- sympify L equation ;;
    let steps := steps ++ [str "Expression parsed as: " ++ to_str L expr] in
    steps <- (if show_steps
              then (narration <- generate_equation_steps expr var ;;
                    ret (steps ++ narration))
              else ret steps) ;;
    symbolic_solutions <- solve L expr var ;;
    let steps := steps ++ [str "Raw solutions: " ++ fmt_syms L symbolic_solutions] in
    st <- fold_exc (filter_solution domain precision) symbolic_solutions
            ([], steps) ;;
    let (solutions, steps) := st in
    let solutions := sorted (dedup solutions) in
    ret [(str "solutions", VList (map VNum solutions));
         (str "expression", VStr equation);
         (str "variable", VStr variable_name);
         (str "steps", VList (map VStr steps))] in
  match body with
  | inr d => d
  | inl e => error_object (str "Error solving equation: " ++ exn_msg e)
  end.

(** *** Systems *)

Definition common_funcs : list text :=
  [str "sin"; str "cos"; str "tan"; str "log"; str "exp"; str "sqrt"; str "pi"].

Definition infer_variables (equations : list text) : list text :=
  let all_vars := flat_map (Re.findall0 (Re.Plus is_alpha)) equations in
  sorted_set (filter (fun v => negb (mem v common_funcs)) all_vars).

(** [steps.append(f"Equation {i+1}: {eq}")] for the equations from
    index [i] on. *)
Fixpoint equation_steps (i : nat) (equations : list text) : list text :=
  match equations with
  | [] => []
  | eq :: eqs =>
      (str "Equation " ++ fmt_nat L (i + 1) ++ str ": " ++ eq)
      :: equation_steps (S i) eqs
  end.

(** The steps logged before the equations are parsed. *)
Definition intro_steps (variables equations : list text) : list text :=
  [str "Variables to solve for: " ++ join (str ", ") variables;
   str "System of " ++ fmt_nat L (length equations) ++ str " equations:"]
  ++ equation_steps 0 equations.

(** The body of the loop that parses the equations: [sym_eqs] and
    [steps]. *)
Definition parse_equation (st : list sym * list text) (eq : text)
    : exc (list sym * list text) :=
  let (sym_eqs, steps) := st in
  e <- (if contains "=" eq then
          let (left, right) := split1 "=" eq in
          let left := preprocess_equation (strip left) in
          let right := preprocess_equation (strip right) in
          l <- sympify L left ;;
          r <- sympify L right ;;
          Eq L l r
        else
          let expr := preprocess_equation (strip eq) in
          l <- sympify L expr ;;
          Eq L l (of_int L 0)) ;;
  ret (sym_eqs ++ [e], steps ++ [str "Parsed equation: " ++ to_str L e]).

(** [d[key]] on a solution set keyed by symbols. *)
Fixpoint lookup (key : sym) (d : list (sym * sym)) : exc sym :=
  match d with
  | [] => raise (KeyError (to_str L key))
  | (k, v) :: d' => if sym_eqb L k key then ret v else lookup key d'
  end.

(** The loop that fills [result] from the first solution set; the
    state is [result] and [steps]. *)
Fixpoint read_solution (first : list (sym * sym)) (sym_vars : list sym)
    (variables : list text) (i : nat) (st : dict * list text)
    : exc (dict * list text) :=
  match variables with
  | [] => ret st
  | var :: vs =>
      let (result, steps) := st in
      sym_var <- index sym_vars i ;;
      value_ <- lookup sym_var first ;;
      let st' :=
        match to_float L value_ with
        | inr x =>
            (dict_set var (VNum x) result,
             steps ++ [str "Solution for " ++ var ++ str " = " ++ to_str L value_
                       ++ str " ≈ " ++ fmt_float L x])
        | inl _ =>
            (dict_set var (VStr (to_str L value_)) result,
             steps ++ [str "Solution for " ++ var ++ str " = " ++ to_str L value_
                       ++ str " (symbolic)"])
        end in
      read_solution first sym_vars vs (S i) st'
  end.

Definition solve_symbolic_system (data : system_request) : dict :=
  let equations := get (equations data) [] in
  let variables := get (variables data) [] in
  let show_steps := get (sys_showSteps data) true in
  match equations with
  | [] => error_object (str "No equations provided")
  | _ :: _ =>
      let body : exc dict :=
        let variables :=
          match variables with
          | [] => infer_variables equations
          | _ :: _ => variables
          end in
        let steps := intro_steps variables equations in
        sym_vars <- symbols_tuple L (join (str " ") variables) ;;
        st <- fold_exc parse_equation equations ([], steps) ;;
        let (sym_eqs, steps) := st in
        let steps := steps ++
          [str "Solving the system symbolically using SymPy's solve function"] in
        sol <- solve_dict L sym_eqs sym_vars ;;
        match sol with
        | [] => ret (error_object (str "No solution found for the system"))
        | first :: _ =>
            st <- read_solution first sym_vars variables 0 ([], steps) ;;
            let (result, steps) := st in
            ret [(str "solution", VObj result);
                 (str "variables", VList (map VStr variables));
                 (str "steps", steps_value show_steps steps)]
        end in
      match body with
      | inr d => d
      | inl e => error_object (str "Error solving system: " ++ exn_msg e)
      end
  end.

(** *** Differentiation *)

(** The body of the loop over the terms of a sum. *)
Definition term_steps (var : sym) (steps : list text) (term : sym)
    : exc (list text) :=
  let steps := steps ++ [str "Differentiating term: " ++ to_str L term] in
  depends <- has L term var ;;
  if depends then
    if is_Pow L term then
      be <- as_base_exp L term ;;
      let (base, exp) := be in
      power <- (if sym_eqb L base var then is_constant L exp else ret false) ;;
      if power then
        d <- diff L term var 1 ;;
        ret (steps ++
          [str "Using power rule: d/dx[x^n] = n·x^(n-1)";
           str "d/dx[" ++ to_str L term ++ str "] = " ++ to_str L exp ++ str "·"
             ++ to_str L var ++ str "^" ++ to_str L (sub L exp (of_int L 1))
             ++ str " = " ++ to_str L d])
      else ret steps
    else if is_Mul L term then
      factors <- as_ordered_factors L term ;;
      var_factors <- map_exc (fun f => has L f var) factors ;;
      if existsb (fun b => b) var_factors
      then ret (steps ++ [str "Using product rule or chain rule as appropriate"])
      else ret steps
    else ret steps
  else ret (steps ++ [str "Constant term, derivative is 0"]).

Definition perform_differentiation (data : diff_request) : dict :=
  let expression := get (diff_expression data) [] in
  let variable := get (diff_variable data) (str "x") in
  let order := get (order data) 1%Z in
  let show_steps := get (diff_showSteps data) true in
  let body : exc dict :=
    let expression := preprocess_equation expression in
    var <- symbols L variable ;;
    expr <- sympify L expression ;;
    let steps :=
      [str "Expression to differentiate: " ++ to_str L expr;
       str "With respect to: " ++ variable;
       str "Order of differentiation: " ++ fmt_int L order] in
    steps <-
      (if (order =? 1)%Z then
         let steps := steps ++ [str "Using the basic differentiation rules:"] in
         terms <- as_ordered_terms L expr ;;
         if (1 <? length terms)%nat then
           fold_exc (term_steps var) terms
             (steps ++ [str "Using the sum rule: d/dx[f(x) + g(x)] = d/dx[f(x)] + d/dx[g(x)]"])
         else ret steps
       else ret steps) ;;
    result <- diff L expr var order ;;
    let steps := steps ++ [str "Result of differentiation: " ++ to_str L result] in
    simplified <- simplify L result ;;
    let (steps, result) :=
      if negb (sym_eqb L simplified result)
      then (steps ++ [str "Simplifying: " ++ to_str L simplified], simplified)
      else (steps, result) in
    ret [(str "original", VStr (to_str L expr));
         (str "derivative", VStr (to_str L result));
         (str "variable", VStr variable);
         (str "order", VInt order);
         (str "steps", steps_value show_steps steps)] in
  match body with
  | inr d => d
  | inl e => error_object (str "Error in differentiation: " ++ exn_msg e)
  end.

(** *** Integration *)

(** [if limits:] *)
Definition given (limits_ : option (list value)) : bool :=
  match limits_ with
  | Some (_ :: _) => true
  | _ => false
  end.

Definition perform_integration (data : int_request) : dict :=
  let expression := get (int_expression data) [] in
  let variable := get (int_variable data) (str "x") in
  let limits_ := limits data in
  let show_steps := get (int_showSteps data) true in
  let body : exc dict :=
    let expression := preprocess_equation expression in
    var <- symbols L variable ;;
    expr <- sympify L expression ;;
    let steps :=
      [str "Expression to integrate: " ++ to_str L expr;
       str "With respect to: " ++ variable] in
    steps <-
      (if given limits_ then
         l0 <- index (get limits_ []) 0 ;;
         l1 <- index (get limits_ []) 1 ;;
         ret (steps ++ [str "Definite integral with limits: [" ++ fmt_value L l0
                        ++ str ", " ++ fmt_value L l1 ++ str "]"])
       else ret (steps ++ [str "Indefinite integral (antiderivative)"])) ;;
    let steps :=
      match integral_steps L expr var with
      | inr integration_steps =>
          steps ++ [str "Integration method:"; integration_steps]
      | inl e =>
          steps ++ [str "Detailed integration steps unavailable: " ++ exn_msg e;
                    str "Proceeding with direct integration..."]
      end in
    rs <-
      (if given limits_ then
         match get limits_ [] with
         | [lower; upper] =>
             lower_sym <- sympify_value L lower ;;
             upper_sym <- sympify_value L upper ;;
             result <- integrate_between L expr var lower_sym upper_sym ;;
             ret (result,
                  steps ++ [str "Result of definite integration: " ++ to_str L result])
         | _ => raise (ValueError (str "wrong number of values to unpack"))
         end
       else
         result <- integrate L expr var ;;
         ret (result,
              steps ++ [str "Result of indefinite integration: " ++ to_str L result
                        ++ str " + C";
                        str "(where C is an arbitrary constant)"])) ;;
    let (result, steps) := rs in
    simplified <- simplify L result ;;
    let (steps, result) :=
      if negb (sym_eqb L simplified result)
      then (steps ++ [str "Simplifying: " ++ to_str L simplified], simplified)
      else (steps, result) in
    ret [(str "original", VStr (to_str L expr));
         (str "integral", VStr (to_str L result));
         (str "variable", VStr variable);
         (str "limits", match limits_ with Some l => VList l | None => VNull end);
         (str "steps", steps_value show_steps steps)] in
  match body with
  | inr d => d
  | inl e => error_object (str "Error in integration: " ++ exn_msg e)
  end.

End WithSymPy.

End sympy_solver.

(** ** [plotter.py] *)
Module plotter.
Import Py Num.
Local Open Scope Q_scope.

(** What the module takes from NumPy, Matplotlib and [os].  The response
    of [plot_functions] depends on these calls only through whether one
    of them raises. *)
Record lib : Type := Lib {
  (* plt.figure(figsize=(width, height), dpi=100); plt.axes([...]) *)
  new_figure : Q -> Q -> exc unit;
  (* the body of the [try] inside the loop, for function number [i]:
     evaluation over the samples, the curve, zeros, intercept and
     symmetry; it yields the finite values and the analysis text *)
  draw_function : list Q -> list Q -> nat -> text -> exc (list Q * text);
  (* grid, axes lines, title, labels, legend *)
  decorate : text -> exc unit;
  (* ax_plot.set_ylim(y_range), with the range given or computed from the
     pooled finite values *)
  set_ylim : option (list Q) -> list Q -> exc unit;
  (* fig.text(...), os.makedirs(...), plt.savefig(output_path) *)
  save_figure : text -> text -> exc unit
}.

Record plot_request : Type := PlotRequest {
  functions : option (list text);
  xRange : option (list Q);
  yRange : option (list Q);
  title : option text;
  outputPath : option text;
  width : option Q;
  height : option Q
}.

(** The loop over the functions; a function whose drawing raises is
    skipped. *)
Fixpoint draw_all (L : lib) (x_range x : list Q) (i : nat) (fs : list text)
    (st : list Q * list text) : list Q * list text :=
  match fs with
  | [] => st
  | func_str :: fs' =>
      let (all_y_values, function_info) := st in
      let st' :=
        match draw_function L x_range x i func_str with
        | inr (valid_y, analysis) =>
            (all_y_values ++ valid_y, function_info ++ [analysis])
        | inl _ => st
        end in
      draw_all L x_range x (S i) fs' st'
  end.

(** The dictionary that [plot_functions] serialises with [json.dumps]. *)
Definition plot_functions (L : lib) (plot_data : plot_request) : dict :=
  let body : exc dict :=
    functions_ <- match functions plot_data with
                  | Some fs => ret fs
                  | None => raise (KeyError (str "'functions'"))
                  end ;;
    let x_range := get (xRange plot_data) [-10; 10] in
    let y_range := yRange plot_data in
    let title_ := get (title plot_data) (str "Function Plot") in
    let output_path := get (outputPath plot_data) (str "plot.png") in
    let width_ := get (width plot_data) 800 / 100 in
    let height_ := get (height plot_data) 600 / 100 in
    _ <- new_figure L width_ height_ ;;
    lo <- index x_range 0 ;;
    hi <- index x_range 1 ;;
    let x := linspace lo hi 1000 in
    let (all_y_values, function_info) := draw_all L x_range x 0 functions_ ([], []) in
    _ <- decorate L title_ ;;
    _ <- set_ylim L y_range all_y_values ;;
    _ <- save_figure L (join [nl; nl] function_info) output_path ;;
    ret [(str "imagePath", VStr output_path)] in
  match body with
  | inr d => d
  | inl e => error_object (exn_msg e)
  end.

End plotter.

(** ** The operations the three scripts dispatch to *)
Module tools.
Import Py.

(** One request to one tool, with the libraries it runs against. *)
Inductive call : Type :=
| NumericEquation (L : numpy_solver.lib) (data : numpy_solver.equation_request)
| LinearSystem (L : numpy_solver.lib) (data : numpy_solver.system_request)
| Ode (L : numpy_solver.lib) (data : numpy_solver.ode_request)
| SymbolicEquation (sym : Type) (L : sympy_solver.lib sym)
    (data : sympy_solver.equation_request)
| SymbolicSystem (sym : Type) (L : sympy_solver.lib sym)
    (data : sympy_solver.system_request)
| Differentiate (sym : Type) (L : sympy_solver.lib sym)
    (data : sympy_solver.diff_request)
| Integrate (sym : Type) (L : sympy_solver.lib sym)
    (data : sympy_solver.int_request)
| Plot (L : plotter.lib) (data : plotter.plot_request).

(** The object the tool answers with. *)
Definition respond (c : call) : dict :=
  match c with
  | NumericEquation L data => numpy_solver.solve_equation_numeric L data
  | LinearSystem L data => numpy_solver.solve_linear_system_numeric L data
  | Ode L data => numpy_solver.solve_ode L data
  | SymbolicEquation L data => sympy_solver.solve_symbolic_equation L data
  | SymbolicSystem L data => sympy_solver.solve_symbolic_system L data
  | Differentiate L data => sympy_solver.perform_differentiation L data
  | Integrate L data => sympy_solver.perform_integration L data
  | Plot L data => plotter.plot_functions L data
  end.


End tools.

(** ** Predicates used in the statements *)
Module Spec.
Import Py.
Local Open Scope Q_scope.

(** No character of class [p] is immediately followed by one of class [q]. *)
Fixpoint no_adjacent (p q : ascii -> bool) (s : text) : Prop :=
  match s with
  | [] => True
  | a :: t =>
      match t with
      | b :: _ => p a && q b = false
      | [] => True
      end /\ no_adjacent p q t
  end.

(** The texts the preprocessor leaves alone. *)
Definition normalized (s : text) : Prop :=
  ~ In "^"%char s
  /\ no_adjacent is_digit is_alpha s
  /\ no_adjacent (is_char ")") (is_char "(") s.

(** A response is either the error variant alone or free of ["error"]. *)
Definition well_shaped (d : dict) : Prop :=
  (exists msg, d = error_object msg) \/ has_key (str "error") d = false.

Definition is_success (d : dict) : Prop := has_key (str "error") d = false.

Definition strictly_increasing (l : list Q) : Prop := StronglySorted Qlt l.



(** No two numbers of the list are equal. *)
Definition distinct (l : list Q) : Prop :=
  StronglySorted (fun a b => ~ a == b) l.

(** [optimize.brentq] returns a point of the bracket it is given. *)
Definition brentq_in_bracket (L : numpy_solver.lib) (f : Q -> exc Q) : Prop :=
  forall a b r, numpy_solver.brentq L f a b = inr r ->
                Qmin a b <= r <= Qmax a b.

(** [s] is a value of [[lo, hi]] rounded to [precision] decimals. *)
Definition rounded_from (lo hi : Q) (precision : Z) (s : Q) : Prop :=
  exists root, lo <= root <= hi /\ s = Num.py_round root precision.

(** What [solve_equation_numeric] returns on success. *)
Definition numeric_roots (L : numpy_solver.lib)
    (data : numpy_solver.equation_request) : Prop :=
  let domain := get (numpy_solver.domain data) [-1000; 1000] in
  let precision := get (numpy_solver.precision data) 4%Z in
  let f := numpy_solver.eval_x L
             (Preprocess.standardize (get (numpy_solver.equation data) [])) in
  exists lo hi sols,
    nth_error domain 0 = Some lo /\ nth_error domain 1 = Some hi
    /\ dict_get (str "solutions") (numpy_solver.solve_equation_numeric L data)
       = Some (VList (map VNum sols))
    /\ strictly_increasing sols
    /\ (lo <= hi -> brentq_in_bracket L f ->
        forall s, In s sols -> rounded_from lo hi precision s).

(** A response is the error variant, or it has no ["error"] and a ["steps"]. *)
Definition with_steps (d : dict) : Prop :=
  (exists msg, d = error_object msg)
  \/ (has_key (str "error") d = false /\ has_key (str "steps") d = true).

(** The text starts with a character of class [p] followed by one of
    class [q]. *)
Definition pair_here (p q : ascii -> bool) (s : text) : bool :=
  match s with
  | a :: b :: _ => p a && q b
  | _ => false
  end.

(** The note left in the step log for a raw solution that is dropped. *)
Definition skipped {sym} (L : sympy_solver.lib sym) (root : sym)
    (steps : list text) : Prop :=
  In (str "Skipping complex solution: " ++ sympy_solver.to_str L root) steps
  \/ In (str "Skipping non-numeric solution: " ++ sympy_solver.to_str L root) steps.

(** [s] is the rounding of the float of a raw solution that lies in the
    domain. *)
Definition kept_from {sym} (L : sympy_solver.lib sym) (domain : list Q)
    (precision : Z) (raw : list sym) (s : Q) : Prop :=
  exists root x lo hi,
    In root raw /\ sympy_solver.to_float L root = inr x
    /\ nth_error domain 0 = Some lo /\ nth_error domain 1 = Some hi
    /\ lo <= x <= hi /\ s = Num.py_round x precision.

(** What [solve_symbolic_equation] returns on success. *)
Definition symbolic_roots {sym} (L : sympy_solver.lib sym)
    (data : sympy_solver.equation_request) : Prop :=
  let domain := get (sympy_solver.domain data) [-1000; 1000] in
  let precision := get (sympy_solver.precision data) 4%Z in
  let equation := Preprocess.standardize (get (sympy_solver.equation data) []) in
  let variable_name := get (sympy_solver.variable data) (str "x") in
  exists var expr raw sols steps,
    sympy_solver.symbols L variable_name = inr var
    /\ sympy_solver.sympify L equation = inr expr
    /\ sympy_solver.solve L expr var = inr raw
    /\ sympy_solver.solve_symbolic_equation L data
       = [(str "solutions", VList (map VNum sols));
          (str "expression", VStr equation);
          (str "variable", VStr variable_name);
          (str "steps", VList (map VStr steps))]
    /\ strictly_increasing sols
    /\ (forall s, In s sols -> kept_from L domain precision raw s)
    /\ (forall root e, In root raw -> sympy_solver.to_float L root = inl e ->
          skipped L root steps).

(** Two runs of the filter agree: the same exception, or the same
    solutions. *)
Definition same_answer (a b : exc sympy_solver.filter_state) : Prop :=
  match a, b with
  | inr (s1, _), inr (s2, _) => s1 = s2
  | inl e1, inl e2 => e1 = e2
  | _, _ => False
  end.

(** The request with its [showSteps] flag set. *)
Definition with_show (data : sympy_solver.equation_request) (flag : bool)
    : sympy_solver.equation_request :=
  sympy_solver.EquationRequest (sympy_solver.equation data)
    (sympy_solver.variable data) (sympy_solver.domain data)
    (sympy_solver.precision data) (Some flag).

(** The value stored for a variable: its float, or its text when it has
    none. *)
Definition solution_value {sym} (L : sympy_solver.lib sym) (v : sym) : value :=
  match sympy_solver.to_float L v with
  | inr x => VNum x
  | inl _ => VStr (sympy_solver.to_str L v)
  end.

(** The variables a system is solved for. *)
Definition resolved_variables (data : sympy_solver.system_request) : list text :=
  match get (sympy_solver.variables data) [] with
  | [] => sympy_solver.infer_variables (get (sympy_solver.equations data) [])
  | v :: vs => v :: vs
  end.

(** The solution set [first] has a value for the symbol of every variable. *)
Definition binds_all {sym} (L : sympy_solver.lib sym) (first : list (sym * sym))
    (sym_vars : list sym) (variables : list text) : Prop :=
  forall i var, nth_error variables i = Some var ->
    exists sym_var v, nth_error sym_vars i = Some sym_var
                      /\ sympy_solver.lookup L sym_var first = inr v.

(** What [solve_symbolic_system] returns once the symbolic solve has
    answered [sol]. *)
Definition first_solution_only {sym} (L : sympy_solver.lib sym)
    (data : sympy_solver.system_request) (sym_vars : list sym)
    (sol : list (list (sym * sym))) : Prop :=
  let variables := resolved_variables data in
  let r := sympy_solver.solve_symbolic_system L data in
  match sol with
  | [] => r = error_object (str "No solution found for the system")
  | first :: _ =>
      binds_all L first sym_vars variables ->
      exists result steps,
        r = [(str "solution", VObj result);
             (str "variables", VList (map VStr variables));
             (str "steps", steps)]
        /\ (forall var, has_key var result = true <-> In var variables)
        /\ (forall var val, dict_get var result = Some val ->
              exists i sym_var v,
                nth_error variables i = Some var
                /\ nth_error sym_vars i = Some sym_var
                /\ sympy_solver.lookup L sym_var first = inr v
                /\ val = solution_value L v)
  end.

End Spec.

(** ** Stand-ins for the libraries, for concrete runs *)
Module Demo.
Import Py Num.
Local Open Scope Q_scope.

Definition unsupported {A} : exc A := raise (OtherError (str "unsupported")).

(** The only expression the stand-in for [eval] knows with one variable. *)
Definition eval_x (e : text) (x : Q) : exc Q :=
  if text_eqb e (str "x - 0.00003") then ret (x - (3 # 100000))
  else if text_eqb e (str "x - 2") then ret (x - 2)
  else unsupported.

(** With two variables: the right-hand side of [dy/dx = y]. *)
Definition eval_xy (e : text) (x : Q) (y : option Q) : exc (option Q) :=
  if text_eqb e (str "y") then ret y else unsupported.

Definition candidates : list Q := [3 # 100000; 2].

(** Stands for [optimize.newton]: a candidate at which [f] vanishes. *)
Definition newton (f : Q -> exc Q) (x0 : Q) : exc Q :=
  match filter (fun c => match f c with
                         | inr y => Qeq_bool y 0
                         | inl _ => false
                         end) candidates with
  | c :: _ => ret c
  | [] => raise (OtherError (str "Failed to converge"))
  end.

(** Stands for [optimize.brentq]: an end of the bracket. *)
Definition brentq (f : Q -> exc Q) (a b : Q) : exc Q := ret a.

(** Stands for [np.linalg.solve] on two equations: Cramer's rule, exact. *)
Definition solve2x2 (A : list (list Q)) (b : list Q) : exc (list Q) :=
  match A, b with
  | [[a11; a12]; [a21; a22]], [b1; b2] =>
      let det := a11 * a22 - a12 * a21 in
      if Qeq_bool det 0 then raise (LinAlgError (str "Singular matrix"))
      else ret [Qred ((b1 * a22 - a12 * b2) / det);
                Qred ((a11 * b2 - b1 * a21) / det)]
  | _, _ => raise (LinAlgError (str "Last 2 dimensions of the array must be square"))
  end.

Definition numpy : numpy_solver.lib :=
  numpy_solver.Lib eval_x eval_xy newton brentq solve2x2
    (fun _ _ _ _ _ _ => unsupported)
    (fun _ => []) (fun _ => []) (fun _ => []) (fun _ => []) (fun _ => []).

(** The system of the specification's example. *)
Definition system_example : numpy_solver.system_request :=
  numpy_solver.SystemRequest (Some [str "2x + y = 5"; str "x - y = 1"]) None.


(** A root at [0.00003] in the domain [[0.00002, 1]], four decimals. *)
Definition small_root : numpy_solver.equation_request :=
  numpy_solver.EquationRequest (Some (str "x - 0.00003")) None
    (Some [2 # 100000; 1]) None.

(** A root at [2] in the default domain. *)
Definition plain_root : numpy_solver.equation_request :=
  numpy_solver.EquationRequest (Some (str "x - 2")) None None None.

End Demo.

(** ** A stand-in for SymPy, for concrete runs *)
Module DemoSym.
Import Py Num.
Local Open Scope Q_scope.

(** Expressions: numbers, symbols, expressions known only by their text,
    and applications of an operator. *)
Inductive expr : Type :=
| Number (q : Q)
| Symbol (name : text)
| Opaque (s : text)
| Un (op : text) (a : expr)
| Bin (op : text) (a b : expr).

Fixpoint expr_eqb (a b : expr) : bool :=
  match a, b with
  | Number x, Number y => Qeq_bool x y
  | Symbol x, Symbol y => text_eqb x y
  | Opaque x, Opaque y => text_eqb x y
  | Un o x, Un o' y => text_eqb o o' && expr_eqb x y
  | Bin o x1 x2, Bin o' y1 y2 =>
      text_eqb o o' && expr_eqb x1 y1 && expr_eqb x2 y2
  | _, _ => false
  end.

Definition unsupported {A} : exc A := raise (OtherError (str "unsupported")).

Definition general_quadratic : text := str "a*x**2 + b*x + c".
Definition small_linear : text := str "x - 0.00003".
Definition square_minus_four : text := str "x**2 - 4".

Definition sympify (t : text) : exc expr :=
  if text_eqb t general_quadratic || text_eqb t small_linear
     || text_eqb t square_minus_four || text_eqb t (str "x**2")
  then ret (Opaque t)
  else if text_eqb t (str "1") then ret (Number 1)
  else raise (ValueError (str "could not parse the expression")).

Definition to_str (e : expr) : text :=
  match e with
  | Symbol n => n
  | Opaque s => s
  | _ => str "<expr>"
  end.

(** [solve(expr, var)] on the three equations the stand-in knows. *)
Definition solve (e var : expr) : exc (list expr) :=
  match e with
  | Opaque t =>
      if text_eqb t general_quadratic then
        ret [Opaque (str "(-b - sqrt(-4*a*c + b**2))/(2*a)");
             Opaque (str "(-b + sqrt(-4*a*c + b**2))/(2*a)")]
      else if text_eqb t small_linear then ret [Number (3 # 100000)]
      else if text_eqb t square_minus_four then ret [Number (-2); Number 2]
      else ret []
  | _ => ret []
  end.

(** [solve(eqs, vars, dict=True)]: [x**2 = 1] has the two solution sets
    [{x: -1}] and [{x: 1}], whatever further symbols are asked for. *)
Definition solve_dict (eqs vars : list expr) : exc (list (list (expr * expr))) :=
  match eqs with
  | [Bin op (Opaque t) (Number one)] =>
      if text_eqb op (str "=") && text_eqb t (str "x**2") && Qeq_bool one 1
      then ret [[(Symbol (str "x"), Number (-1))]; [(Symbol (str "x"), Number 1)]]
      else ret []
  | _ => ret []
  end.

Definition to_float (e : expr) : exc Q :=
  match e with
  | Number q => ret q
  | _ => raise (TypeError (str "Cannot convert expression to float"))
  end.

Definition is_number (e : expr) : bool :=
  match e with
  | Number _ => true
  | _ => false
  end.

(** [bool(e > 0)]: only a number can be compared. *)
Definition gt_zero (e : expr) : exc bool :=
  match e with
  | Number q => ret (Qltb 0 q)
  | _ => raise (TypeError (str "cannot determine truth value of Relational"))
  end.

Definition degree (e var : expr) : exc Z :=
  match e with
  | Opaque t => if text_eqb t small_linear then ret 1%Z else ret 2%Z
  | _ => ret 0%Z
  end.

Definition all_coeffs (e var : expr) : exc (list expr) :=
  match e with
  | Opaque t =>
      if text_eqb t general_quadratic
      then ret [Symbol (str "a"); Symbol (str "b"); Symbol (str "c")]
      else if text_eqb t small_linear then ret [Number 1; Number (- (3 # 100000))]
      else if text_eqb t square_minus_four then ret [Number 1; Number 0; Number (-4)]
      else ret [Number 1; Number 0; Number 0]
  | _ => ret [e]
  end.

(** Arithmetic: numbers are computed with, anything else stays symbolic. *)
Definition arith1 (op : text) (f : Q -> Q) (a : expr) : expr :=
  match a with
  | Number x => Number (f x)
  | _ => Un op a
  end.

Definition arith2 (op : text) (f : Q -> Q -> Q) (a b : expr) : expr :=
  match a, b with
  | Number x, Number y => Number (f x y)
  | _, _ => Bin op a b
  end.

Definition sympy : sympy_solver.lib expr :=
  sympy_solver.Lib
    (fun name => ret (Symbol name))
    (fun names => ret (map Symbol (sympy_solver.split_all " " names)))
    sympify
    (fun _ => unsupported)
    (fun l r => ret (Bin (str "=") l r))
    solve
    solve_dict
    to_float
    is_number
    to_str
    (fun l => join (str ", ") (map to_str l))
    (fun _ => [])
    (fun _ => [])
    (fun _ => [])
    (fun _ => [])
    expr_eqb
    (fun z => Number (inject_Z z))
    (arith1 (str "-") Qopp)
    (arith2 (str "+") Qplus)
    (arith2 (str "-") Qminus)
    (arith2 (str "*") Qmult)
    (fun a b => ret (Bin (str "/") a b))
    (fun a z => arith1 (str "**") (fun x => Qpower x z) a)
    (Un (str "sqrt"))
    gt_zero
    (fun _ _ => ret true)
    (fun e => ret e)
    degree
    all_coeffs
    (fun e _ => ret e)
    (fun e => ret e)
    (fun _ _ => ret true)
    (fun _ _ => unsupported)
    (fun _ => unsupported)
    (fun _ _ => unsupported)
    (fun _ => false)
    (fun _ => false)
    (fun _ => unsupported)
    (fun _ => unsupported)
    (fun _ => unsupported)
    (fun _ _ _ => unsupported)
    (fun _ _ => unsupported)
    (fun _ _ => unsupported)
    (fun _ _ _ _ => unsupported).

(** [a*x^2 + b*x + c] for [x], with and without narration. *)
Definition quadratic_request (show_steps : bool) : sympy_solver.equation_request :=
  sympy_solver.EquationRequest (Some (str "a*x^2 + b*x + c")) (Some (str "x"))
    None None (Some show_steps).

(** A root at [0.00003] in the domain [[0.00002, 1]], four decimals. *)
Definition small_root : sympy_solver.equation_request :=
  sympy_solver.EquationRequest (Some small_linear) None
    (Some [2 # 100000; 1]) None (Some false).

(** [x^2 - 4] on the default domain. *)
Definition two_roots : sympy_solver.equation_request :=
  sympy_solver.EquationRequest (Some (str "x^2 - 4")) None None None (Some true).

(** [x^2 = 1] solved for [x]. *)
Definition square_system : sympy_solver.system_request :=
  sympy_solver.SystemRequest (Some [str "x^2 = 1"]) (Some [str "x"]) None.

(** [x^2 = 1] solved for [x] and [y]. *)
Definition underdetermined_system : sympy_solver.system_request :=
  sympy_solver.SystemRequest (Some [str "x^2 = 1"]) (Some [str "x"; str "y"]) None.



End DemoSym.

(** ** Further predicates, for the properties of Part III *)
Module SpecX.
Import Py.
Local Open Scope Q_scope.

(** A character the preprocessor neither inserts nor replaces. *)
Definition plain (c : ascii) : bool :=
  negb (Ascii.eqb c "*") && negb (Ascii.eqb c "^").

(** [t] is what is left of [s] from some position on. *)
Definition is_suffix (t s : text) : Prop := exists pre, s = pre ++ t.

(** Strict order of [str]. *)
Definition text_lt (a b : text) : Prop := text_leb a b = true /\ a <> b.

(** The ["steps"] field of a success object of the symbolic system,
    differentiation and integration tools: [null] when the request says
    [showSteps: false], a list otherwise. *)
Definition steps_by_flag (flag : option bool) (r : dict) : Prop :=
  match flag with
  | Some false => dict_get (str "steps") r = Some VNull
  | _ => exists l, dict_get (str "steps") r = Some (VList l)
  end.

(** [s] has at most [p] decimals. *)
Definition has_decimals (p : Z) (s : Q) : Prop :=
  exists z, s * inject_Z (10 ^ p) == inject_Z z.

(** [s] is the result of [round(_, p)]. *)
Definition is_rounded (p : Z) (s : Q) : Prop :=
  exists r, s = Num.py_round r p.

(** Two libraries that differ at most in [integral_steps], among the
    entry points [perform_integration] calls. *)
Definition same_integrator {sym} (L1 L2 : sympy_solver.lib sym) : Prop :=
  sympy_solver.symbols L1 = sympy_solver.symbols L2
  /\ sympy_solver.sympify L1 = sympy_solver.sympify L2
  /\ sympy_solver.sympify_value L1 = sympy_solver.sympify_value L2
  /\ sympy_solver.to_str L1 = sympy_solver.to_str L2
  /\ sympy_solver.fmt_value L1 = sympy_solver.fmt_value L2
  /\ sympy_solver.sym_eqb L1 = sympy_solver.sym_eqb L2
  /\ sympy_solver.simplify L1 = sympy_solver.simplify L2
  /\ sympy_solver.integrate L1 = sympy_solver.integrate L2
  /\ sympy_solver.integrate_between L1 = sympy_solver.integrate_between L2.

(** The variables the numeric system solver works with: the request's, or
    the inferred ones when it names none. *)
Definition numeric_variables (data : numpy_solver.system_request) : list text :=
  match get (numpy_solver.variables data) [] with
  | [] => numpy_solver.infer_variables (get (numpy_solver.equations data) [])
  | v :: vs => v :: vs
  end.


(** The test a result of [optimize.newton] has to pass: it lies in the
    domain and the expression is below [1e-10] there. *)
Definition accepted (f : Q -> exc Q) (lo hi root : Q) : bool :=
  Qle_bool lo root && Qle_bool root hi
  && match f root with
     | inr y => Num.Qltb (Qabs y) numpy_solver.tol
     | inl _ => false
     end.

(** No starting point leads [optimize.newton] to a result that passes. *)
Definition newton_finds_nothing (L : numpy_solver.lib) (f : Q -> exc Q)
    (lo hi : Q) : Prop :=
  forall x0 root, In x0 (Num.linspace lo hi 10) ->
    numpy_solver.newton L f x0 = inr root -> accepted f lo hi root = false.

(** A response without its "steps" entry. *)
Definition without_steps (d : dict) : dict :=
  filter (fun kv => negb (text_eqb (fst kv) (str "steps"))) d.

(** The exception is a [ValueError]. *)
Definition is_value_error (e : exn) : Prop := exists msg, e = ValueError msg.

(** [s] is the rounding of an accepted result of [optimize.newton] from one
    of the ten starting points. *)
Definition from_newton (L : numpy_solver.lib) (f : Q -> exc Q) (lo hi : Q)
    (precision : Z) (s : Q) : Prop :=
  exists x0 root, In x0 (Num.linspace lo hi 10)
    /\ numpy_solver.newton L f x0 = inr root
    /\ accepted f lo hi root = true
    /\ s = Num.py_round root precision.

(** Every name is an identifier: letters, digits and '_'.  Such a name
    stands for itself inside a pattern. *)
Definition identifiers (vs : list text) : Prop :=
  Forall (fun v => forallb is_word v = true) vs.

(** [A] has [rows] rows of [cols] entries each. *)
Definition has_shape (rows cols : nat) (A : list (list Q)) : Prop :=
  length A = rows /\ Forall (fun row => length row = cols) A.

End SpecX.

(** ** Further requests, for concrete runs *)
Module DemoX.
Import Py.
Local Open Scope Q_scope.


(** [dy/dx = y] with a single point. *)
Definition one_point : numpy_solver.ode_request :=
  numpy_solver.OdeRequest (Some (str "dy/dx = y")) (Some 1) (Some 0) (Some 1)
    (Some 1%Z) (Some (str "Euler")) None None.


(** A library whose [optimize.newton] never converges. *)
Definition numpy_without_newton : numpy_solver.lib :=
  numpy_solver.Lib Demo.eval_x Demo.eval_xy (fun _ _ => Demo.unsupported)
    Demo.brentq Demo.solve2x2
    (fun _ _ _ _ _ _ => Demo.unsupported)
    (fun _ => []) (fun _ => []) (fun _ => []) (fun _ => []) (fun _ => []).

(** A stand-in for SymPy that integrates [x**2], with the narration of
    [integral_steps] left open. *)
Definition calculus (steps_oracle : DemoSym.expr -> DemoSym.expr -> exc text)
    : sympy_solver.lib DemoSym.expr :=
  let S := DemoSym.sympy in
  sympy_solver.Lib
    (sympy_solver.symbols S) (sympy_solver.symbols_tuple S)
    (sympy_solver.sympify S)
    (fun v => match v with
              | VInt z => ret (DemoSym.Number (inject_Z z))
              | VNum q => ret (DemoSym.Number q)
              | _ => DemoSym.unsupported
              end)
    (sympy_solver.Eq S) (sympy_solver.solve S) (sympy_solver.solve_dict S)
    (sympy_solver.to_float S) (sympy_solver.is_real S) (sympy_solver.to_str S)
    (sympy_solver.fmt_syms S) (sympy_solver.fmt_float S) (sympy_solver.fmt_int S)
    (sympy_solver.fmt_nat S) (sympy_solver.fmt_value S) (sympy_solver.sym_eqb S)
    (sympy_solver.of_int S) (sympy_solver.neg S) (sympy_solver.add S)
    (sympy_solver.sub S) (sympy_solver.mul S) (sympy_solver.div S)
    (sympy_solver.pow S) (sympy_solver.sqrt S) (sympy_solver.gt_zero S)
    (sympy_solver.is_polynomial S) (sympy_solver.simplify S)
    (sympy_solver.degree S) (sympy_solver.all_coeffs S) (sympy_solver.collect S)
    (sympy_solver.factor S) (sympy_solver.in_free_symbols S)
    (sympy_solver.invert S) (sympy_solver.as_ordered_terms S)
    (sympy_solver.has S) (sympy_solver.is_Pow S) (sympy_solver.is_Mul S)
    (sympy_solver.as_base_exp S) (sympy_solver.is_constant S)
    (sympy_solver.as_ordered_factors S) (sympy_solver.diff S)
    steps_oracle
    (fun e _ => match e with
                | DemoSym.Opaque t =>
                    if text_eqb t (str "x**2") then ret (DemoSym.Opaque (str "x**3/3"))
                    else DemoSym.unsupported
                | _ => DemoSym.unsupported
                end)
    (fun e _ a b =>
       match e, a, b with
       | DemoSym.Opaque t, DemoSym.Number p, DemoSym.Number q =>
           if text_eqb t (str "x**2")
           then ret (DemoSym.Number (Qred ((q * q * q - p * p * p) / 3)))
           else DemoSym.unsupported
       | _, _, _ => DemoSym.unsupported
       end).

(** A stand-in for SymPy that factors [x**2 - 4*x + 4]. *)
Definition perfect_square : text := str "x**2 - 4*x + 4".

Definition factoring : sympy_solver.lib DemoSym.expr :=
  let S := DemoSym.sympy in
  sympy_solver.Lib
    (sympy_solver.symbols S) (sympy_solver.symbols_tuple S)
    (sympy_solver.sympify S) (sympy_solver.sympify_value S)
    (sympy_solver.Eq S) (sympy_solver.solve S) (sympy_solver.solve_dict S)
    (sympy_solver.to_float S) (sympy_solver.is_real S) (sympy_solver.to_str S)
    (sympy_solver.fmt_syms S) (sympy_solver.fmt_float S) (sympy_solver.fmt_int S)
    (sympy_solver.fmt_nat S) (sympy_solver.fmt_value S) (sympy_solver.sym_eqb S)
    (sympy_solver.of_int S) (sympy_solver.neg S) (sympy_solver.add S)
    (sympy_solver.sub S) (sympy_solver.mul S) (sympy_solver.div S)
    (sympy_solver.pow S) (sympy_solver.sqrt S) (sympy_solver.gt_zero S)
    (sympy_solver.is_polynomial S) (sympy_solver.simplify S)
    (sympy_solver.degree S) (sympy_solver.all_coeffs S) (sympy_solver.collect S)
    (fun e => match e with
              | DemoSym.Opaque t =>
                  if text_eqb t perfect_square
                  then ret (DemoSym.Opaque (str "(x - 2)**2")) else ret e
              | _ => ret e
              end)
    (sympy_solver.in_free_symbols S)
    (sympy_solver.invert S) (sympy_solver.as_ordered_terms S)
    (sympy_solver.has S) (sympy_solver.is_Pow S) (sympy_solver.is_Mul S)
    (sympy_solver.as_base_exp S) (sympy_solver.is_constant S)
    (sympy_solver.as_ordered_factors S) (sympy_solver.diff S)
    (sympy_solver.integral_steps S) (sympy_solver.integrate S)
    (sympy_solver.integrate_between S).

(** [integral_steps] that answers, and one that raises. *)
Definition narrated : sympy_solver.lib DemoSym.expr :=
  calculus (fun _ _ => ret (str "PowerRule(base=x, exp=2)")).

Definition silent : sympy_solver.lib DemoSym.expr :=
  calculus (fun _ _ => DemoSym.unsupported).

(** The antiderivative of [x^2], and its integral from 0 to 3. *)
Definition antiderivative : sympy_solver.int_request :=
  sympy_solver.IntRequest (Some (str "x^2")) None None None.

Definition area : sympy_solver.int_request :=
  sympy_solver.IntRequest (Some (str "x^2")) None (Some [VInt 0; VInt 3]) None.

(** Two parallel lines. *)
Definition parallel_lines : numpy_solver.system_request :=
  numpy_solver.SystemRequest (Some [str "x + y = 1"; str "x + y = 2"]) None.

(** [x^2 = 1] solved for [x], without narration. *)
Definition quiet_system : sympy_solver.system_request :=
  sympy_solver.SystemRequest (Some [str "x^2 = 1"]) (Some [str "x"]) (Some false).

End DemoX.

(* ================================================================== *)
(** * Part II: lemmas and theorems                                     *)
(* ================================================================== *)

Import Py.
Local Open Scope Q_scope.

(** ** Characters *)

Ltac by_char c :=
  destruct c as [[|] [|] [|] [|] [|] [|] [|] [|]]; vm_compute; intros; congruence.

Lemma alpha_not_digit c : is_alpha c = true -> is_digit c = false.
Proof. by_char c. Qed.

Lemma is_char_eq x c : is_char x c = true <-> c = x.
Proof. unfold is_char. apply Ascii.eqb_eq. Qed.

Lemma open_not_close c : is_char "(" c = true -> is_char ")" c = false.
Proof.
  intros H. apply is_char_eq in H. subst c. reflexivity.
Qed.

(** ** The matcher on two-character patterns *)

Lemma firstn_prefix {A} (pre suf : list A) :
  firstn (length (pre ++ suf) - length suf) (pre ++ suf) = pre.
Proof.
  rewrite length_app, Nat.add_sub.
  rewrite firstn_app, Nat.sub_diag, firstn_all. simpl. apply app_nil_r.
Qed.

Lemma succ_sub_diag n : (S n - n = 1)%nat.
Proof. lia. Qed.

Lemma succ_succ_sub n : (S (S n) - n = 2)%nat.
Proof. lia. Qed.

Lemma scan_nil r pr :
  Re.scan r pr [] 0 =
  match Re.match_at r pr [] with Some h => [Re.Found h] | None => [] end.
Proof. reflexivity. Qed.

Lemma scan_cons r pr c s :
  Re.scan r pr (c :: s) 0 =
  match Re.match_at r pr (c :: s) with
  | None => Re.Keep c :: Re.scan r (Some c) s 0
  | Some h =>
      match length (Re.whole h) with
      | S n => Re.Found h :: Re.scan r (Some c) s n
      | O =>
          Re.Found h ::
          match Re.match_nonempty r pr (c :: s) with
          | Some h' =>
              Re.Found h' :: Re.scan r (Some c) s (length (Re.whole h') - 1)
          | None => Re.Keep c :: Re.scan r (Some c) s 0
          end
      end
  end.
Proof. reflexivity. Qed.

Lemma scan_skip r pr c s n :
  Re.scan r pr (c :: s) (S n) = Re.scan r (Some c) s n.
Proof. reflexivity. Qed.

Section PairPattern.
Import Re Preprocess.
Variables (p q : ascii -> bool) (r : regex) (tmpl : hit -> text).

Hypothesis disjoint : forall c, q c = true -> p c = false.
Hypothesis hit_pair : forall pr a b t,
    p a = true -> q b = true ->
    exists h, match_at r pr (a :: b :: t) = Some h
              /\ whole h = [a; b] /\ tmpl h = [a; "*"%char; b].
Hypothesis miss : forall pr s, Spec.pair_here p q s = false -> match_at r pr s = None.

Lemma scan_pair n : forall s pr,
    (length s <= n)%nat ->
    flat_map (emit tmpl) (scan r pr s 0) = insert_between p q s.
Proof.
  induction n as [|n IH]; intros s pr Hlen.
  - destruct s; [|simpl in Hlen; lia].
    rewrite scan_nil, miss by reflexivity. reflexivity.
  - destruct s as [|a [|b t]].
    + rewrite scan_nil, miss by reflexivity. reflexivity.
    + rewrite scan_cons, miss by reflexivity.
      rewrite scan_nil, miss by reflexivity. reflexivity.
    + destruct (p a && q b) eqn:Hab.
      * apply andb_prop in Hab. destruct Hab as [Ha Hb].
        destruct (hit_pair pr t Ha Hb) as (h & Hm & Hw & Ht).
        rewrite scan_cons, Hm, Hw. cbn [length].
        rewrite scan_skip. cbn [flat_map emit]. rewrite Ht.
        rewrite IH by (simpl in *; lia).
        cbn [insert_between]. rewrite Ha, Hb, (disjoint Hb).
        destruct t; reflexivity.
      * rewrite scan_cons, miss by exact Hab.
        cbn [flat_map emit]. rewrite IH by (simpl in *; lia).
        cbn [insert_between]. rewrite Hab. reflexivity.
Qed.

Lemma sub_pair s : sub r tmpl s = insert_between p q s.
Proof. unfold sub. apply (scan_pair (n := length s)). lia. Qed.
End PairPattern.

(** ** The preprocessor *)

Lemma digit_letter_hit pr a b t :
  is_digit a = true -> is_alpha b = true ->
  exists h, Re.match_at Preprocess.digit_letter pr (a :: b :: t) = Some h
            /\ Re.whole h = [a; b]
            /\ Preprocess.tmpl_digit_letter h = [a; "*"%char; b].
Proof.
  intros Ha Hb. exists (Re.Hit [a; b] [(2%nat, [b]); (1%nat, [a])]).
  split; [|split; reflexivity].
  unfold Re.match_at, Preprocess.digit_letter, Re.mk_hit.
  cbn -[Nat.sub]. rewrite Ha, Hb. cbn -[Nat.sub].
  rewrite !succ_sub_diag, succ_succ_sub. reflexivity.
Qed.

Lemma digit_letter_miss pr s :
  Spec.pair_here is_digit is_alpha s = false ->
  Re.match_at Preprocess.digit_letter pr s = None.
Proof.
  unfold Re.match_at, Preprocess.digit_letter.
  destruct s as [|a [|b t]]; cbn; intros H.
  - reflexivity.
  - destruct (is_digit a); reflexivity.
  - destruct (is_digit a); [|reflexivity].
    destruct (is_alpha b); [discriminate|reflexivity].
Qed.

Lemma paren_paren_hit pr a b t :
  is_char ")" a = true -> is_char "(" b = true ->
  exists h, Re.match_at Preprocess.paren_paren pr (a :: b :: t) = Some h
            /\ Re.whole h = [a; b]
            /\ Preprocess.tmpl_paren_paren h = [a; "*"%char; b].
Proof.
  intros Ha Hb. apply is_char_eq in Ha. apply is_char_eq in Hb. subst a b.
  exists (Re.Hit [")"%char; "("%char] [(1%nat, ["("%char])]).
  split; [|split; reflexivity].
  unfold Re.match_at, Preprocess.paren_paren, Re.mk_hit.
  cbn -[Nat.sub].
  rewrite !succ_sub_diag, succ_succ_sub. reflexivity.
Qed.

Lemma paren_paren_miss pr s :
  Spec.pair_here (is_char ")") (is_char "(") s = false ->
  Re.match_at Preprocess.paren_paren pr s = None.
Proof.
  unfold Re.match_at, Preprocess.paren_paren, is_char.
  destruct s as [|a [|b t]]; cbn; intros H.
  - reflexivity.
  - destruct (Ascii.eqb a ")"); reflexivity.
  - destruct (Ascii.eqb a ")"); [|reflexivity].
    destruct (Ascii.eqb b "("); [discriminate|reflexivity].
Qed.

(** The two substitutions of the source are the two insertions of the
    specification. *)
Lemma preprocess_refines s :
  Preprocess.preprocess_equation s = Preprocess.preprocess_spec s.
Proof.
  unfold Preprocess.preprocess_equation, Preprocess.preprocess_spec.
  rewrite (@sub_pair is_digit is_alpha _ _
             alpha_not_digit digit_letter_hit digit_letter_miss).
  apply (@sub_pair (is_char ")") (is_char "(") _ _
           open_not_close paren_paren_hit paren_paren_miss).
Qed.

Section Insertion.
Import Preprocess Spec.
Variables p q : ascii -> bool.

Lemma insert_between_cons2 a b t :
  insert_between p q (a :: b :: t) =
  a :: (if p a && q b then ["*"%char] else []) ++ insert_between p q (b :: t).
Proof. reflexivity. Qed.

Lemma insert_between_head b t :
  exists rest, insert_between p q (b :: t) = b :: rest.
Proof. eexists. reflexivity. Qed.

(** A text without such a pair is left as it is. *)
Lemma insert_between_fixed s : no_adjacent p q s -> insert_between p q s = s.
Proof.
  induction s as [|a t IH]; intros H; [reflexivity|].
  destruct t as [|b t'].
  - reflexivity.
  - rewrite insert_between_cons2. destruct H as [Hab Ht].
    rewrite Hab, IH by exact Ht. reflexivity.
Qed.

(** Inserting stars keeps a text free of pairs of two classes that do
    not contain the star. *)
Lemma insert_between_keeps (p' q' : ascii -> bool) s :
  p' "*"%char = false -> q' "*"%char = false ->
  no_adjacent p' q' s -> no_adjacent p' q' (insert_between p q s).
Proof.
  intros Hp Hq. induction s as [|a t IH]; intros H; [exact I|].
  destruct t as [|b t'].
  - simpl. auto.
  - rewrite insert_between_cons2. destruct H as [Hab Ht].
    specialize (IH Ht).
    destruct (insert_between_head b t') as [rest E]. rewrite E in *.
    destruct (p a && q b); simpl.
    + rewrite Hq, Hp, andb_false_r. simpl. auto.
    + auto.
Qed.

(** After the insertion no pair is left. *)
Lemma insert_between_clean s :
  p "*"%char = false -> q "*"%char = false ->
  no_adjacent p q (insert_between p q s).
Proof.
  intros Hp Hq. induction s as [|a t IH]; [exact I|].
  destruct t as [|b t'].
  - simpl. auto.
  - rewrite insert_between_cons2.
    destruct (insert_between_head b t') as [rest E]. rewrite E in *.
    destruct (p a && q b) eqn:Hab; simpl.
    + rewrite Hq, Hp, andb_false_r. simpl. auto.
    + auto.
Qed.

Lemma insert_between_in c s :
  In c (insert_between p q s) -> c = "*"%char \/ In c s.
Proof.
  induction s as [|a t IH]; simpl; [tauto|].
  intros [H|H]; [auto|].
  apply in_app_or in H. destruct H as [H|H].
  - destruct t; [destruct H|].
    destruct (p a && q a0); simpl in H; intuition.
  - destruct (IH H); auto.
Qed.

Lemma no_adjacent_cons c s :
  p c = false -> no_adjacent p q s -> no_adjacent p q (c :: s).
Proof.
  intros Hc H. simpl. split; [|exact H].
  destruct s; [exact I|]. rewrite Hc. reflexivity.
Qed.

Lemma no_adjacent_app s c t :
  q c = false -> no_adjacent p q s -> no_adjacent p q (c :: t) ->
  no_adjacent p q (s ++ c :: t).
Proof.
  intros Hc Hs Ht. induction s as [|a s IH]; [exact Ht|].
  destruct Hs as [Ha Hs]. specialize (IH Hs).
  change ((a :: s) ++ c :: t) with (a :: (s ++ c :: t)).
  split; [|exact IH].
  destruct s as [|b s']; simpl.
  - rewrite Hc. apply andb_false_r.
  - exact Ha.
Qed.
End Insertion.

Lemma replace_fixed c new s : ~ In c s -> replace c new s = s.
Proof.
  induction s as [|x s IH]; intros H; [reflexivity|].
  simpl. destruct (Ascii.eqb_spec x c) as [->|Hx].
  - exfalso. apply H. left. reflexivity.
  - rewrite IH; [reflexivity|]. intros Hin. apply H. right. exact Hin.
Qed.

Lemma replace_caret_clean s : ~ In "^"%char (replace "^" (str "**") s).
Proof.
  induction s as [|x s IH]; simpl; [tauto|].
  intros H. apply in_app_or in H. destruct H as [H|H]; [|auto].
  destruct (Ascii.eqb_spec x "^"%char) as [->|Hx]; simpl in H.
  - intuition discriminate.
  - intuition.
Qed.

(** The output of the preprocessor is normalized ... *)
Lemma preprocess_normalized s : Spec.normalized (Preprocess.preprocess_equation s).
Proof.
  rewrite preprocess_refines. unfold Preprocess.preprocess_spec, Spec.normalized.
  split; [|split].
  - intros H.
    apply insert_between_in in H. destruct H as [H|H]; [discriminate|].
    apply insert_between_in in H. destruct H as [H|H]; [discriminate|].
    exact (replace_caret_clean _ H).
  - apply insert_between_keeps; try reflexivity.
    apply insert_between_clean; reflexivity.
  - apply insert_between_clean; reflexivity.
Qed.

(** ... and a normalized text is a fixed point. *)
Lemma preprocess_fixed s :
  Spec.normalized s -> Preprocess.preprocess_equation s = s.
Proof.
  intros (Hc & Hd & Hp).
  rewrite preprocess_refines. unfold Preprocess.preprocess_spec.
  rewrite (@replace_fixed _ _ _ Hc).
  rewrite (@insert_between_fixed _ _ _ Hd).
  apply (@insert_between_fixed _ _ _ Hp).
Qed.

(** The text echoed as ["expression"] is normalized. *)
Lemma standardize_normalized eq : Spec.normalized (Preprocess.standardize eq).
Proof.
  unfold Preprocess.standardize.
  destruct (contains "=" eq); [|apply preprocess_normalized].
  destruct (split1 "=" eq) as [l r].
  destruct (preprocess_normalized (strip l)) as (Lc & Ld & Lp).
  destruct (preprocess_normalized (strip r)) as (Rc & Rd & Rp).
  set (L := Preprocess.preprocess_equation (strip l)) in *.
  set (R := Preprocess.preprocess_equation (strip r)) in *.
  change (str "(" ++ L ++ str ") - (" ++ R ++ str ")")
    with ("("%char :: (L ++ ")"%char :: " "%char :: "-"%char :: " "%char
                         :: "("%char :: (R ++ [")"%char]))).
  split; [|split].
  - intros [H|H]; [discriminate|].
    apply in_app_or in H. destruct H as [H|H]; [auto|].
    repeat (destruct H as [H|H]; [discriminate|]).
    apply in_app_or in H. destruct H as [H|H]; [auto|].
    destruct H as [H|[]]. discriminate.
  - apply no_adjacent_cons; [reflexivity|].
    apply no_adjacent_app; [reflexivity|exact Ld|].
    repeat (apply no_adjacent_cons; [reflexivity|]).
    apply no_adjacent_app; [reflexivity|exact Rd|].
    simpl. auto.
  - apply no_adjacent_cons; [reflexivity|].
    apply no_adjacent_app; [reflexivity|exact Lp|].
    split; [reflexivity|].
    repeat (apply no_adjacent_cons; [reflexivity|]).
    apply no_adjacent_app; [reflexivity|exact Rp|].
    simpl. auto.
Qed.

(** C2 as stated fails on its second example: no star is inserted between a
    digit and an opening parenthesis. *)
Lemma C2_digit_paren_counterexample :
  Preprocess.preprocess_equation (str "3(x+1)(x-2)") <> str "3*(x+1)*(x-2)".
Proof. vm_compute. discriminate. Qed.

(** C2 (amended): [preprocess_equation] maps "2x" to "2*x", "3(x+1)(x-2)" to
    "3(x+1)*(x-2)" and "x^2" to "x**2"; on every text it replaces each '^' by
    '**', then inserts '*' between every digit and an immediately following
    letter, then inserts '*' between every ')' and an immediately following
    '('. *)
Theorem C2_preprocess_examples :
  Preprocess.preprocess_equation (str "2x") = str "2*x"
  /\ Preprocess.preprocess_equation (str "3(x+1)(x-2)") = str "3(x+1)*(x-2)"
  /\ Preprocess.preprocess_equation (str "x^2") = str "x**2"
  /\ forall s,
       Preprocess.preprocess_equation s =
       Preprocess.insert_between (is_char ")") (is_char "(")
         (Preprocess.insert_between is_digit is_alpha
            (replace "^" (str "**") s)).
Proof.
  repeat split; try reflexivity.
  intros s. apply preprocess_refines.
Qed.

(** C4: [preprocess_equation] is idempotent, and the text a single-equation
    solver echoes in its "expression" field is left unchanged by it. *)
Theorem C4_preprocess_idempotent :
  (forall s, Preprocess.preprocess_equation (Preprocess.preprocess_equation s)
             = Preprocess.preprocess_equation s)
  /\ (forall equation,
        Preprocess.preprocess_equation (Preprocess.standardize equation)
        = Preprocess.standardize equation).
Proof.
  split; intros s.
  - apply preprocess_fixed, preprocess_normalized.
  - apply preprocess_fixed, standardize_normalized.
Qed.

(** ** Shape of the responses *)

Ltac destruct_inner x :=
  lazymatch x with
  | match ?y with _ => _ end => destruct_inner y
  | _ => destruct x
  end.

Ltac split_cases :=
  repeat match goal with
         | |- context [match ?x with _ => _ end] => destruct_inner x
         end.

Ltac shape :=
  unfold Spec.with_steps, Py.bind, Py.ret, Py.raise;
  split_cases;
  first [ left; eexists; reflexivity | right; split; reflexivity ].

Lemma shape_solve_equation_numeric L data :
  Spec.with_steps (numpy_solver.solve_equation_numeric L data).
Proof. unfold numpy_solver.solve_equation_numeric. shape. Qed.

Lemma shape_solve_linear_system_numeric L data :
  Spec.with_steps (numpy_solver.solve_linear_system_numeric L data).
Proof. unfold numpy_solver.solve_linear_system_numeric. shape. Qed.

Lemma shape_solve_ode L data : Spec.with_steps (numpy_solver.solve_ode L data).
Proof. unfold numpy_solver.solve_ode. shape. Qed.

Lemma shape_solve_symbolic_equation sym (L : sympy_solver.lib sym) data :
  Spec.with_steps (sympy_solver.solve_symbolic_equation L data).
Proof. unfold sympy_solver.solve_symbolic_equation. shape. Qed.

Lemma shape_solve_symbolic_system sym (L : sympy_solver.lib sym) data :
  Spec.with_steps (sympy_solver.solve_symbolic_system L data).
Proof.
  unfold sympy_solver.solve_symbolic_system, sympy_solver.steps_value. shape.
Qed.

Lemma shape_perform_differentiation sym (L : sympy_solver.lib sym) data :
  Spec.with_steps (sympy_solver.perform_differentiation L data).
Proof.
  unfold sympy_solver.perform_differentiation, sympy_solver.steps_value. shape.
Qed.

Lemma shape_perform_integration sym (L : sympy_solver.lib sym) data :
  Spec.with_steps (sympy_solver.perform_integration L data).
Proof.
  unfold sympy_solver.perform_integration, sympy_solver.steps_value. shape.
Qed.

(** The plotter answers with the error variant or with ["imagePath"] alone. *)
Lemma shape_plot_functions L data :
  (exists msg, plotter.plot_functions L data = error_object msg)
  \/ plotter.plot_functions L data =
     [(str "imagePath", VStr (get (plotter.outputPath data) (str "plot.png")))].
Proof.
  unfold plotter.plot_functions, Py.bind, Py.ret, Py.raise.
  split_cases; first [left; eexists; reflexivity | right; reflexivity].
Qed.

Lemma with_steps_well_shaped d : Spec.with_steps d -> Spec.well_shaped d.
Proof. intros [H|[H _]]; [left|right]; assumption. Qed.


(** C3: the object returned by each top-level operation (numeric equation
    solve, linear system solve, ODE solve, symbolic solve, system,
    differentiate, integrate, plot) is either the error variant, whose only
    key is "error", or an object without an "error" key. *)
Theorem C3_error_xor_success (c : tools.call) : Spec.well_shaped (tools.respond c).
Proof.
  destruct c; cbn [tools.respond].
  - apply with_steps_well_shaped, shape_solve_equation_numeric.
  - apply with_steps_well_shaped, shape_solve_linear_system_numeric.
  - apply with_steps_well_shaped, shape_solve_ode.
  - apply with_steps_well_shaped, shape_solve_symbolic_equation.
  - apply with_steps_well_shaped, shape_solve_symbolic_system.
  - apply with_steps_well_shaped, shape_perform_differentiation.
  - apply with_steps_well_shaped, shape_perform_integration.
  - destruct (shape_plot_functions L data) as [H|H]; [left; exact H|].
    right. rewrite H. reflexivity.
Qed.




(** ** Lists updated by index *)

Lemma index_nth_error {A} (l : list A) i a :
  nth_error l i = Some a -> Num.index l i = inr a.
Proof. unfold Num.index. intros ->. reflexivity. Qed.


(** ** Uniform samples *)



(** ** The Euler loop *)

Section EulerLoop.
Import numpy_solver.
Variables (L : lib) (equation : text) (h : Q) (xs : list Q).

End EulerLoop.


(** ** Sorting and removing duplicates *)

Lemma insert_sorted_in x l y :
  In y (Num.insert_sorted x l) <-> y = x \/ In y l.
Proof.
  induction l as [|z l IH]; simpl.
  - intuition.
  - destruct (Qle_bool x z); simpl; [intuition|].
    rewrite IH. intuition.
Qed.

Lemma sorted_in l y : In y (Num.sorted l) <-> In y l.
Proof.
  induction l as [|x l IH]; simpl; [tauto|].
  rewrite insert_sorted_in, IH. intuition.
Qed.

Lemma dedup_in l y : In y (Num.dedup l) -> In y l.
Proof.
  induction l as [|x l IH]; simpl; [tauto|].
  intros [H|H]; [auto|].
  apply filter_In in H. right. apply IH. tauto.
Qed.

Lemma filter_strongly_sorted {A} (R : A -> A -> Prop) (f : A -> bool) l :
  StronglySorted R l -> StronglySorted R (filter f l).
Proof.
  induction 1 as [|a l Hl IH Ha]; simpl; [constructor|].
  destruct (f a); [|exact IH].
  constructor; [exact IH|].
  rewrite Forall_forall in *. intros x Hx. apply filter_In in Hx. apply Ha. tauto.
Qed.

Lemma dedup_distinct l : Spec.distinct (Num.dedup l).
Proof.
  induction l as [|x l IH]; simpl; constructor.
  - apply filter_strongly_sorted. exact IH.
  - rewrite Forall_forall. intros y Hy. apply filter_In in Hy.
    destruct Hy as [_ Hy]. intros E.
    apply Qeq_bool_iff in E. rewrite E in Hy. discriminate.
Qed.

Lemma insert_sorted_increasing x l :
  Spec.strictly_increasing l -> Forall (fun y => ~ x == y) l ->
  Spec.strictly_increasing (Num.insert_sorted x l).
Proof.
  unfold Spec.strictly_increasing.
  induction 1 as [|z l Hl IH Hz]; intros Hx; simpl.
  - repeat constructor.
  - inversion Hx as [|? ? Hxz Hxl]; subst.
    destruct (Qle_bool x z) eqn:E.
    + apply Qle_bool_iff in E.
      assert (Hlt : x < z) by (apply Qle_lteq in E; tauto).
      constructor; [constructor; assumption|].
      constructor; [exact Hlt|].
      rewrite Forall_forall in *. intros y Hy.
      apply Qlt_trans with z; auto.
    + assert (Hlt : z < x).
      { apply Qnot_le_lt. intros H. apply Qle_bool_iff in H. congruence. }
      constructor; [apply IH; exact Hxl|].
      rewrite Forall_forall in *. intros y Hy.
      apply insert_sorted_in in Hy. destruct Hy as [->|Hy]; auto.
Qed.

Lemma sorted_increasing l :
  Spec.distinct l -> Spec.strictly_increasing (Num.sorted l).
Proof.
  induction 1 as [|x l Hl IH Hx]; simpl.
  - constructor.
  - apply insert_sorted_increasing; [exact IH|].
    rewrite Forall_forall in *. intros y Hy. apply Hx.
    apply sorted_in. exact Hy.
Qed.

(** [sorted(list(set(l)))] is strictly increasing and within [l]. *)
Lemma sorted_dedup_increasing l :
  Spec.strictly_increasing (Num.sorted (Num.dedup l)).
Proof. apply sorted_increasing, dedup_distinct. Qed.

Lemma sorted_dedup_in l y : In y (Num.sorted (Num.dedup l)) -> In y l.
Proof. intros H. apply dedup_in. apply sorted_in. exact H. Qed.

(** ** The samples lie in the domain *)

Lemma linspace_bounds lo hi n x :
  lo <= hi -> In x (Num.linspace lo hi n) -> lo <= x <= hi.
Proof.
  intros Hle Hx. unfold Num.linspace in Hx.
  apply in_map_iff in Hx. destruct Hx as (i & <- & Hi).
  apply in_seq in Hi.
  set (d := (Z.of_nat n - 1)%Z).
  assert (Hid : (0 <= Z.of_nat i <= d)%Z) by (unfold d; lia).
  set (iz := Z.of_nat i) in *.
  destruct (Z.eq_dec d 0) as [Hd|Hd].
  - assert (iz = 0%Z) by lia. replace iz with 0%Z by lia.
    change (inject_Z 0) with 0. split; lra.
  - set (t := (hi - lo) / inject_Z d).
    assert (Hdpos : 0 < inject_Z d).
    { change 0 with (inject_Z 0). rewrite <- Zlt_Qlt. lia. }
    assert (Ht : inject_Z d * t == hi - lo).
    { unfold t. apply Qmult_div_r. intros E. rewrite E in Hdpos.
      apply (Qlt_irrefl 0). exact Hdpos. }
    assert (Ht0 : 0 <= t).
    { unfold t. apply Qle_shift_div_l; [exact Hdpos|]. lra. }
    assert (Hi0 : 0 <= inject_Z iz).
    { change 0 with (inject_Z 0). rewrite <- Zle_Qle. lia. }
    assert (Hi1 : inject_Z iz <= inject_Z d).
    { rewrite <- Zle_Qle. lia. }
    assert (H1 : 0 <= inject_Z iz * t) by (apply Qmult_le_0_compat; assumption).
    assert (H2 : inject_Z iz * t <= inject_Z d * t).
    { apply Qmult_le_compat_r; assumption. }
    split; lra.
Qed.

(** ** The root search keeps rounded in-domain values *)

Lemma fold_left_invariant {A S} (Inv : S -> Prop) (g : S -> A -> S) l :
  (forall st x, In x l -> Inv st -> Inv (g st x)) ->
  forall st, Inv st -> Inv (fold_left g l st).
Proof.
  induction l as [|x l IH]; intros Hg st Hst; [exact Hst|].
  simpl. apply IH.
  - intros st' y Hy. apply Hg. right. exact Hy.
  - apply Hg; [left; reflexivity|exact Hst].
Qed.

Lemma in_adjacent {A} (l : list A) a b :
  In (a, b) (numpy_solver.adjacent l) -> In a l /\ In b l.
Proof.
  unfold numpy_solver.adjacent. intros H. split.
  - apply in_combine_l in H. exact H.
  - apply in_combine_r in H. destruct l; [destruct H|]. right. exact H.
Qed.

Section RootSearch.
Import numpy_solver.
Variables (L : lib) (f : Q -> exc Q) (lo hi : Q) (prec : Z).

Lemma newton_attempt_inv st x0 :
  Forall (Spec.rounded_from lo hi prec) (fst st) ->
  Forall (Spec.rounded_from lo hi prec) (fst (newton_attempt L f lo hi prec st x0)).
Proof.
  intros H. unfold newton_attempt, Py.bind, Py.ret.
  destruct st as [sols steps]. simpl in H.
  destruct (newton L f x0) as [e|root]; [exact H|].
  destruct (Qle_bool lo root && Qle_bool root hi) eqn:Hd; [|exact H].
  destruct (f root) as [e|y]; [exact H|].
  destruct (Num.Qltb (Qabs y) tol); [|exact H].
  destruct (negb (existsb _ sols)); [|exact H].
  simpl. apply Forall_app. split; [exact H|].
  constructor; [|constructor].
  apply andb_prop in Hd. destruct Hd as [H1 H2].
  apply Qle_bool_iff in H1. apply Qle_bool_iff in H2.
  exists root. split; [split; assumption|reflexivity].
Qed.

Lemma bracket_attempt_inv st a b ya yb :
  Spec.brentq_in_bracket L f ->
  lo <= a <= hi -> lo <= b <= hi ->
  Forall (Spec.rounded_from lo hi prec) (fst st) ->
  Forall (Spec.rounded_from lo hi prec)
         (fst (bracket_attempt L f prec st ((a, b), (ya, yb)))).
Proof.
  intros Hb Ha Hb' H. unfold bracket_attempt.
  destruct st as [sols steps]. simpl in H.
  destruct (Qle_bool (ya * yb) 0); [|exact H].
  destruct (brentq L f a b) as [e|root] eqn:E; [exact H|].
  simpl. apply Forall_app. split; [exact H|].
  constructor; [|constructor].
  destruct (Hb _ _ _ E) as [H1 H2].
  exists root. split; [|reflexivity]. split.
  - apply Qle_trans with (Qmin a b); [|exact H1].
    apply Q.min_glb; tauto.
  - apply Qle_trans with (Qmax a b); [exact H2|].
    apply Q.max_lub; tauto.
Qed.

Lemma brute_force_inv st :
  lo <= hi -> Spec.brentq_in_bracket L f ->
  Forall (Spec.rounded_from lo hi prec) (fst st) ->
  Forall (Spec.rounded_from lo hi prec) (fst (brute_force L f lo hi prec st)).
Proof.
  intros Hle Hb H. unfold brute_force. destruct st as [sols steps].
  destruct (map_exc f (Num.linspace lo hi 1000)) as [e|y_vals]; [exact H|].
  apply (fold_left_invariant
           (fun st => Forall (Spec.rounded_from lo hi prec) (fst st))); [|exact H].
  intros st [[a b] [ya yb]] Hin Hst.
  apply in_combine_l in Hin. apply in_adjacent in Hin. destruct Hin as [Hina Hinb].
  apply bracket_attempt_inv; try assumption.
  - apply (@linspace_bounds _ _ _ _ Hle Hina).
  - apply (@linspace_bounds _ _ _ _ Hle Hinb).
Qed.

Lemma find_roots_spec steps :
  exists l steps',
    find_roots L f lo hi prec steps = (Num.sorted (Num.dedup l), steps')
    /\ (lo <= hi -> Spec.brentq_in_bracket L f ->
        Forall (Spec.rounded_from lo hi prec) l).
Proof.
  unfold find_roots.
  set (st := fold_left (newton_attempt L f lo hi prec) (Num.linspace lo hi 10)
                       ([], steps)).
  assert (Hst : Forall (Spec.rounded_from lo hi prec) (fst st)).
  { apply (fold_left_invariant
             (fun st => Forall (Spec.rounded_from lo hi prec) (fst st))).
    - intros st' x _. apply newton_attempt_inv.
    - constructor. }
  destruct (fst st) eqn:E.
  - eexists _, _. split; [reflexivity|].
    intros Hle Hb. apply brute_force_inv; try assumption.
    rewrite E. constructor.
  - eexists _, _. split; [reflexivity|].
    intros _ _. first [exact Hst | rewrite E; exact Hst].
Qed.
End RootSearch.

(** C5 as stated fails: the root [0.00003] lies in the domain
    [[0.00002, 1]], but the value reported for it, rounded to four
    decimals, is [0], below the domain. *)
Lemma C5_rounded_root_counterexample :
  let r := numpy_solver.solve_equation_numeric Demo.numpy Demo.small_root in
  Spec.is_success r
  /\ dict_get (str "solutions") r = Some (VList [VNum 0])
  /\ numpy_solver.domain Demo.small_root = Some [2 # 100000; 1]
  /\ ~ (2 # 100000 <= 0 <= 1).
Proof.
  vm_compute. repeat split; try reflexivity.
  intros [H _]. apply H. reflexivity.
Qed.

(** C5 (amended): on success the "solutions" list of
    [solve_equation_numeric] is strictly increasing; and when
    [domain[0] <= domain[1]] and the bracketed search returns a point of its
    bracket, every element is [round(r, precision)] for some [r] in
    [[domain[0], domain[1]]]. *)
Theorem C5_numeric_roots (L : numpy_solver.lib)
    (data : numpy_solver.equation_request) :
  Spec.is_success (numpy_solver.solve_equation_numeric L data) ->
  Spec.numeric_roots L data.
Proof.
  unfold Spec.numeric_roots, numpy_solver.solve_equation_numeric.
  cbv zeta. unfold Num.index, Py.bind, Py.ret, Py.raise.
  intros Hs.
  destruct (nth_error (get (numpy_solver.domain data) [-1000; 1000]) 0)
    as [lo|]; [|discriminate Hs].
  destruct (nth_error (get (numpy_solver.domain data) [-1000; 1000]) 1)
    as [hi|]; [|discriminate Hs].
  destruct (find_roots_spec L
              (numpy_solver.eval_x L
                 (Preprocess.standardize (get (numpy_solver.equation data) [])))
              lo hi (get (numpy_solver.precision data) 4%Z)
              [str "Using numeric method to solve: "
               ++ Preprocess.standardize (get (numpy_solver.equation data) [])
               ++ str " = 0"])
    as (l & steps' & E & Hl).
  rewrite E.
  exists lo, hi, (Num.sorted (Num.dedup l)).
  split; [reflexivity|]. split; [reflexivity|]. split; [reflexivity|].
  split; [apply sorted_dedup_increasing|].
  intros Hle Hb s Hin.
  specialize (Hl Hle Hb). rewrite Forall_forall in Hl.
  apply Hl. apply sorted_dedup_in. exact Hin.
Qed.

(** With fewer than two points there is no curve: the step size divides by
    zero ([n = 1]), the arrays are empty ([n = 0]) or cannot be built
    ([n < 0]), and the response is an error object. *)
Lemma euler_needs_two_points (L : numpy_solver.lib) (data : numpy_solver.ode_request)
    (n : Z) :
  numpy_solver.method data = Some (str "Euler") ->
  numpy_solver.numPoints data = Some n ->
  (n <= 1)%Z ->
  exists msg, numpy_solver.solve_ode L data = error_object msg.
Proof.
  intros Hm Hn Hle. unfold numpy_solver.solve_ode. rewrite Hm, Hn.
  change (get (Some (str "Euler")) (str "RK45")) with (str "Euler").
  change (get (Some n) 100%Z) with n.
  cbv zeta.
  change (text_eqb (str "Euler") (str "RK45")) with false.
  change (text_eqb (str "Euler") (str "Euler")) with true.
  cbv iota.
  destruct (Z.eqb_spec (n - 1) 0) as [Hz|Hz]; [eexists; reflexivity|].
  cbn [Py.bind Py.ret]. unfold Num.np_linspace.
  destruct (Z.ltb_spec n 0) as [Hneg|Hpos]; [eexists; reflexivity|].
  assert (n = 0%Z) by lia. subst n.
  eexists. reflexivity.
Qed.

(** The stand-in for the bracketed search keeps to its bracket. *)
Lemma demo_brentq_in_bracket f : Spec.brentq_in_bracket Demo.numpy f.
Proof.
  intros a b r H. inversion H; subst.
  split; [apply Q.le_min_l | apply Q.le_max_l].
Qed.


(** The numeric roots theorem at [x - 2] on the default domain. *)
Lemma C5_numeric_roots_witness :
  Spec.is_success (numpy_solver.solve_equation_numeric Demo.numpy Demo.plain_root)
  /\ Spec.numeric_roots Demo.numpy Demo.plain_root.
Proof.
  split; [reflexivity|].
  apply (@C5_numeric_roots Demo.numpy Demo.plain_root). reflexivity.
Defined.

(** ** The linear system of the specification *)

(** Whatever the library, the rows extracted from the two equations are
    [2x + y = 3] and [x - y = 1]: the coefficient 2 of the first equation is
    also taken for the constant of its left side. *)
Lemma example_rows (L : numpy_solver.lib) steps :
  exists steps',
    fold_exc (numpy_solver.parse_row L [str "x"; str "y"])
             [str "2x + y = 5"; str "x - y = 1"] ([], [], steps)
    = inr ([[2; 1]; [1; -1]], [3; 1], steps').
Proof. eexists. reflexivity. Qed.

Lemma example_left_constant :
  numpy_solver.constant_of (Preprocess.preprocess_equation (str "2x + y")) = inr 2.
Proof. reflexivity. Qed.

(** C1: on the equations "2x + y = 5" and "x - y = 1" without a variables
    field, [solve_linear_system_numeric] infers the variables x and y, but
    builds the matrix [[2, 1], [1, -1]] with the constants [3, 1]; with an
    exact linear solve the answer is x = 1.333333, y = 0.333333, and x = 2,
    y = 1 does not satisfy the first extracted row. *)
Theorem C1_linear_system_example :
  let r := numpy_solver.solve_linear_system_numeric Demo.numpy Demo.system_example in
  dict_get (str "variables") r = Some (VList [VStr (str "x"); VStr (str "y")])
  /\ dict_get (str "matrix") r
     = Some (VList [VList [VNum 2; VNum 1]; VList [VNum 1; VNum (-1)]])
  /\ dict_get (str "constants") r = Some (VList [VNum 3; VNum 1])
  /\ dict_get (str "solution") r
     = Some (VObj [(str "x", VNum (1333333 # 1000000));
                   (str "y", VNum (333333 # 1000000))])
  /\ ~ (2 * 2 + 1 * 1 == 3).
Proof.
  vm_compute. repeat split; try reflexivity. discriminate.
Qed.

(** ** The filter of the symbolic solutions *)

Section SymbolicFilter.
Import sympy_solver.
Variable sym : Type.
Variable L : lib sym.
Variables (domain_ : list Q) (prec : Z).

Lemma skipped_incl root steps steps' :
  incl steps steps' -> Spec.skipped L root steps -> Spec.skipped L root steps'.
Proof. intros Hi [H|H]; [left|right]; apply Hi; exact H. Qed.

Lemma kept_from_incl raw raw' s :
  incl raw raw' ->
  Spec.kept_from L domain_ prec raw s -> Spec.kept_from L domain_ prec raw' s.
Proof.
  intros Hi (root & x & lo & hi & Hin & H).
  exists root, x, lo, hi. split; [apply Hi; exact Hin|exact H].
Qed.

Lemma keep_in_domain_spec label sols steps x sols' steps' :
  keep_in_domain L domain_ prec label (sols, steps) x = inr (sols', steps') ->
  incl steps steps'
  /\ (sols' = sols
      \/ (sols' = sols ++ [Num.py_round x prec]
          /\ exists lo hi, nth_error domain_ 0 = Some lo
                           /\ nth_error domain_ 1 = Some hi
                           /\ lo <= x <= hi)).
Proof.
  unfold keep_in_domain, Num.index, Py.bind, Py.ret, Py.raise.
  destruct (nth_error domain_ 0) as [lo|]; [|discriminate].
  destruct (Qle_bool lo x) eqn:Hlo.
  - destruct (nth_error domain_ 1) as [hi|]; [|discriminate].
    destruct (Qle_bool x hi) eqn:Hhi; intros E; inversion E; subst.
    + split; [apply incl_appl, incl_refl|]. right. split; [reflexivity|].
      exists lo, hi. apply Qle_bool_iff in Hlo. apply Qle_bool_iff in Hhi. tauto.
    + split; [apply incl_refl|]. left. reflexivity.
  - intros E. inversion E; subst. split; [apply incl_refl|]. left. reflexivity.
Qed.

Lemma keep_in_domain_raises label st x e :
  keep_in_domain L domain_ prec label st x = inl e -> e = IndexError.
Proof.
  unfold keep_in_domain, Num.index, Py.bind, Py.ret, Py.raise.
  destruct st as [sols steps].
  destruct (nth_error domain_ 0) as [lo|]; [|congruence].
  destruct (Qle_bool lo x); [|discriminate].
  destruct (nth_error domain_ 1) as [hi|]; [|congruence].
  destruct (Qle_bool x hi); discriminate.
Qed.

Lemma filter_solution_spec sols steps root sols' steps' :
  filter_solution L domain_ prec (sols, steps) root = inr (sols', steps') ->
  incl steps steps'
  /\ (forall s, In s sols' ->
        In s sols \/ Spec.kept_from L domain_ prec [root] s)
  /\ (forall e, to_float L root = inl e -> Spec.skipped L root steps').
Proof.
  unfold filter_solution, Py.bind, Py.ret, Py.raise.
  destruct (to_float L root) as [e|x] eqn:Ef.
  - (* the conversion raised *)
    destruct e; try discriminate;
      destruct (is_real L root); intros E; inversion E; subst;
      (split; [apply incl_appl, incl_refl|]);
      (split; [intros s Hs; left; exact Hs|]);
      intros _ _; [right|left|right|left];
      apply in_or_app; right; left; reflexivity.
  - (* the conversion gave [x] *)
    destruct (keep_in_domain L domain_ prec (str "Validated solution: ")
                (sols, steps) x) as [e|[sols1 steps1]] eqn:Ek.
    + rewrite (keep_in_domain_raises _ _ _ Ek). discriminate.
    + intros E. inversion E; subst.
      destruct (keep_in_domain_spec _ _ _ _ Ek) as [Hi Hs].
      split; [exact Hi|]. split; [|discriminate].
      intros s Hin. destruct Hs as [->|[-> (lo & hi & H0 & H1 & Hx)]].
      * left. exact Hin.
      * apply in_app_or in Hin. destruct Hin as [Hin|[<-|[]]]; [left; exact Hin|].
        right. exists root, x, lo, hi. repeat split; try assumption; try tauto.
        left. reflexivity.
Qed.

Lemma filter_fold_spec raw : forall sols steps sols' steps',
  fold_exc (filter_solution L domain_ prec) raw (sols, steps) = inr (sols', steps') ->
  incl steps steps'
  /\ (forall s, In s sols' -> In s sols \/ Spec.kept_from L domain_ prec raw s)
  /\ (forall root e, In root raw -> to_float L root = inl e ->
        Spec.skipped L root steps').
Proof.
  induction raw as [|root raw IH]; intros sols steps sols' steps' E.
  - inversion E; subst. split; [apply incl_refl|].
    split; [intros s Hs; left; exact Hs|]. intros root e [].
  - cbn [fold_exc] in E.
    destruct (filter_solution L domain_ prec (sols, steps) root)
      as [e|[sols1 steps1]] eqn:E1; [discriminate E|].
    destruct (filter_solution_spec _ _ _ E1) as (Hi1 & Hs1 & Hk1).
    destruct (IH _ _ _ _ E) as (Hi & Hs & Hk).
    split; [eapply incl_tran; eassumption|]. split.
    + intros s Hin. destruct (Hs s Hin) as [H|H].
      * destruct (Hs1 s H) as [H'|H']; [left; exact H'|].
        right. apply (kept_from_incl (raw := [root])); [|exact H'].
        intros y [<-|[]]. left. reflexivity.
      * right. apply (kept_from_incl (raw := raw)); [|exact H].
        apply incl_tl, incl_refl.
    + intros r e [<-|Hin] Hf.
      * apply (skipped_incl Hi). apply (Hk1 e Hf).
      * apply (Hk r e Hin Hf).
Qed.
End SymbolicFilter.

(** C9 as stated fails: the raw solution [0.00003] lies in the domain
    [[0.00002, 1]], but the value reported for it, rounded to four
    decimals, is [0], below the domain. *)
Lemma C9_rounded_root_counterexample :
  let r := sympy_solver.solve_symbolic_equation DemoSym.sympy DemoSym.small_root in
  Spec.is_success r
  /\ dict_get (str "solutions") r = Some (VList [VNum 0])
  /\ sympy_solver.domain DemoSym.small_root = Some [2 # 100000; 1]
  /\ ~ (2 # 100000 <= 0 <= 1).
Proof.
  vm_compute. repeat split; try reflexivity.
  intros [H _]. apply H. reflexivity.
Qed.

(** C9 (amended): on success the "solutions" list of
    [solve_symbolic_equation] is strictly increasing and holds only values
    [round(x, precision)] where [x] is the float of a raw solution and lies
    in [[domain[0], domain[1]]]; every raw solution that has no float is
    left out and noted in the step log as skipped. *)
Theorem C9_symbolic_roots (sym : Type) (L : sympy_solver.lib sym)
    (data : sympy_solver.equation_request) :
  Spec.is_success (sympy_solver.solve_symbolic_equation L data) ->
  Spec.symbolic_roots L data.
Proof.
  unfold Spec.symbolic_roots, sympy_solver.solve_symbolic_equation.
  cbv zeta. unfold Py.bind, Py.ret.
  set (equation := Preprocess.standardize (get (sympy_solver.equation data) [])).
  set (name := get (sympy_solver.variable data) (str "x")).
  set (domain_ := get (sympy_solver.domain data) [-1000; 1000]).
  set (prec := get (sympy_solver.precision data) 4%Z).
  intros Hs.
  destruct (sympy_solver.symbols L name) as [e|var] eqn:Evar; [discriminate Hs|].
  destruct (sympy_solver.sympify L equation) as [e|expr] eqn:Eexpr;
    [discriminate Hs|].
  match type of Hs with
  | context [match (if ?b then ?x else ?y) with _ => _ end] =>
      destruct (if b then x else y) as [e|steps1]; [discriminate Hs|]
  end.
  destruct (sympy_solver.solve L expr var) as [e|raw] eqn:Eraw; [discriminate Hs|].
  match type of Hs with
  | context [fold_exc ?f ?l ?s] =>
      destruct (fold_exc f l s) as [e|[sols steps2]] eqn:Ef; [discriminate Hs|]
  end.
  destruct (@filter_fold_spec _ _ _ _ _ _ _ _ _ Ef) as (Hi & Hk & Hskip).
  exists var, expr, raw, (Num.sorted (Num.dedup sols)), steps2.
  split; [reflexivity|]. split; [reflexivity|]. split; [exact Eraw|].
  split; [reflexivity|]. split; [apply sorted_dedup_increasing|]. split.
  - intros s Hin. apply sorted_dedup_in in Hin.
    destruct (Hk s Hin) as [[]|H]. exact H.
  - exact Hskip.
Qed.

(** The theorem at [x^2 - 4] on the default domain. *)
Lemma C9_symbolic_roots_witness :
  Spec.is_success (sympy_solver.solve_symbolic_equation DemoSym.sympy DemoSym.two_roots)
  /\ Spec.symbolic_roots DemoSym.sympy DemoSym.two_roots.
Proof.
  split; [reflexivity|].
  apply (@C9_symbolic_roots _ DemoSym.sympy DemoSym.two_roots). reflexivity.
Defined.

(** ** Narration and the answer *)

(** C7: for "a*x^2 + b*x + c" solved for x, the run with narration answers
    with an error object, because the narrator compares the symbolic
    discriminant with zero, while the run without narration succeeds (with
    no numeric solution): the narration changes the outcome. *)
Theorem C7_narration_changes_outcome :
  sympy_solver.solve_symbolic_equation DemoSym.sympy (DemoSym.quadratic_request true)
  = error_object
      (str "Error solving equation: cannot determine truth value of Relational")
  /\ Spec.is_success
       (sympy_solver.solve_symbolic_equation DemoSym.sympy
          (DemoSym.quadratic_request false))
  /\ dict_get (str "solutions")
       (sympy_solver.solve_symbolic_equation DemoSym.sympy
          (DemoSym.quadratic_request false))
     = Some (VList []).
Proof. vm_compute. repeat split. Qed.

(** ** Dictionaries *)

Lemma text_eqb_eq a b : text_eqb a b = true <-> a = b.
Proof.
  unfold text_eqb. destruct (list_eq_dec ascii_dec a b); split; congruence.
Qed.

Lemma text_eqb_refl a : text_eqb a a = true.
Proof. apply text_eqb_eq. reflexivity. Qed.

Lemma has_key_set k v d k' :
  has_key k' (dict_set k v d) = true <-> k' = k \/ has_key k' d = true.
Proof.
  unfold has_key. induction d as [|[k0 v0] d IH]; simpl.
  - rewrite orb_false_r, (text_eqb_eq k k'). intuition congruence.
  - destruct (text_eqb k0 k) eqn:E; simpl.
    + apply text_eqb_eq in E. subst k0.
      rewrite orb_true_iff, (text_eqb_eq k k'). intuition.
    + rewrite !orb_true_iff, IH. intuition.
Qed.

Lemma dict_get_set k v d k' :
  dict_get k' (dict_set k v d) = if text_eqb k k' then Some v else dict_get k' d.
Proof.
  induction d as [|[k0 v0] d IH]; simpl.
  - reflexivity.
  - destruct (text_eqb k0 k) eqn:E; simpl.
    + apply text_eqb_eq in E. subst k0. destruct (text_eqb k k'); reflexivity.
    + rewrite IH. destruct (text_eqb k0 k') eqn:E'; [|reflexivity].
      apply text_eqb_eq in E'. subst k0.
      destruct (text_eqb k k') eqn:E2; [|reflexivity].
      apply text_eqb_eq in E2. subst k'. rewrite text_eqb_refl in E. discriminate E.
Qed.

(** ** Reading the first solution set *)

Section ReadSolution.
Import sympy_solver.
Variable sym : Type.
Variable L : lib sym.
Variables (first : list (sym * sym)) (sym_vars : list sym).

Lemma read_solution_step var vs i result steps sym_var v :
  nth_error sym_vars i = Some sym_var ->
  lookup L sym_var first = inr v ->
  exists steps1,
    read_solution L first sym_vars (var :: vs) i (result, steps)
    = read_solution L first sym_vars vs (S i)
        (dict_set var (Spec.solution_value L v) result, steps1).
Proof.
  intros Hi Hv. cbn [read_solution]. unfold Num.index, Py.bind, Py.ret.
  rewrite Hi, Hv. unfold Spec.solution_value.
  destruct (to_float L v); eexists; reflexivity.
Qed.

Lemma read_solution_spec variables : forall i result steps result' steps',
  read_solution L first sym_vars variables i (result, steps) = inr (result', steps') ->
  (forall var, has_key var result' = true
               <-> has_key var result = true \/ In var variables)
  /\ (forall var val, dict_get var result' = Some val ->
        dict_get var result = Some val
        \/ exists j sym_var v,
             nth_error variables j = Some var
             /\ nth_error sym_vars (i + j) = Some sym_var
             /\ lookup L sym_var first = inr v
             /\ val = Spec.solution_value L v).
Proof.
  induction variables as [|var vs IH]; intros i result steps result' steps' E.
  - inversion E; subst. split.
    + intros v. simpl. tauto.
    + intros v val H. left. exact H.
  - destruct (nth_error sym_vars i) as [sym_var|] eqn:Hi.
    2:{ cbn [read_solution] in E. unfold Num.index, Py.bind, Py.raise in E.
        rewrite Hi in E. discriminate E. }
    destruct (lookup L sym_var first) as [e|v] eqn:Hv.
    1:{ cbn [read_solution] in E. unfold Num.index, Py.bind, Py.ret in E.
        rewrite Hi, Hv in E. discriminate E. }
    destruct (@read_solution_step var vs i result steps sym_var v Hi Hv)
      as [steps1 E1].
    rewrite E1 in E. destruct (IH _ _ _ _ _ E) as [Hk Hg]. split.
    + intros k. rewrite Hk, has_key_set. simpl. intuition.
    + intros k val H. destruct (Hg k val H) as [H'|(j & sv & w & H1 & H2 & H3 & H4)].
      * rewrite dict_get_set in H'. destruct (text_eqb var k) eqn:Ek.
        -- apply text_eqb_eq in Ek. subst k. inversion H'; subst.
           right. exists 0%nat, sym_var, v. rewrite Nat.add_0_r. auto.
        -- left. exact H'.
      * right. exists (S j), sv, w. rewrite <- plus_n_Sm. auto.
Qed.

Lemma read_solution_total variables : forall i result steps,
  (forall j var, nth_error variables j = Some var ->
     exists sym_var v, nth_error sym_vars (i + j) = Some sym_var
                       /\ lookup L sym_var first = inr v) ->
  exists result' steps',
    read_solution L first sym_vars variables i (result, steps) = inr (result', steps').
Proof.
  induction variables as [|var vs IH]; intros i result steps Hb.
  - eexists _, _. reflexivity.
  - destruct (Hb 0%nat var eq_refl) as (sym_var & v & Hi & Hv).
    rewrite Nat.add_0_r in Hi.
    destruct (@read_solution_step var vs i result steps sym_var v Hi Hv)
      as [steps1 E1].
    rewrite E1. apply IH.
    intros j w Hj. destruct (Hb (S j) w Hj) as (sv & u & H1 & H2).
    exists sv, u. rewrite <- plus_n_Sm in H1. auto.
Qed.
End ReadSolution.

(** C10 as stated fails when the first solution set leaves a listed
    variable unbound: [x^2 = 1] solved for x and y has the two solution sets
    [{x: -1}] and [{x: 1}], and the response is an error object, not the
    first set. *)
Lemma C10_unbound_variable_counterexample :
  DemoSym.solve_dict
    [DemoSym.Bin (str "=") (DemoSym.Opaque (str "x**2")) (DemoSym.Number 1)]
    [DemoSym.Symbol (str "x"); DemoSym.Symbol (str "y")]
  = inr [[(DemoSym.Symbol (str "x"), DemoSym.Number (-1))];
         [(DemoSym.Symbol (str "x"), DemoSym.Number 1)]]
  /\ sympy_solver.solve_symbolic_system DemoSym.sympy DemoSym.underdetermined_system
     = error_object (str "Error solving system: y").
Proof. vm_compute. split; reflexivity. Qed.

(** C10 (amended): when the symbolic solve yields no solution set,
    [solve_symbolic_system] returns the error object "No solution found for
    the system"; when it yields one or more and the first binds every listed
    variable, the response is a success whose "solution" has exactly the
    listed variables as keys, each with the value the first set gives it (as
    a float, or as text when it has none); the other sets are not read. *)
Theorem C10_first_solution_only (sym : Type) (L : sympy_solver.lib sym)
    (data : sympy_solver.system_request) (eq : text) (eqs : list text)
    (sym_vars sym_eqs : list sym) (steps : list text)
    (sol : list (list (sym * sym))) :
  get (sympy_solver.equations data) [] = eq :: eqs ->
  sympy_solver.symbols_tuple L (join (str " ") (Spec.resolved_variables data))
  = inr sym_vars ->
  fold_exc (sympy_solver.parse_equation L) (eq :: eqs)
    ([], sympy_solver.intro_steps L (Spec.resolved_variables data) (eq :: eqs))
  = inr (sym_eqs, steps) ->
  sympy_solver.solve_dict L sym_eqs sym_vars = inr sol ->
  Spec.first_solution_only L data sym_vars sol.
Proof.
  intros He Hsv Hp Hsol.
  unfold Spec.first_solution_only, sympy_solver.solve_symbolic_system.
  assert (Hv : match get (sympy_solver.variables data) [] with
               | [] => sympy_solver.infer_variables (eq :: eqs)
               | _ :: _ => get (sympy_solver.variables data) []
               end = Spec.resolved_variables data).
  { unfold Spec.resolved_variables. rewrite He.
    destruct (get (sympy_solver.variables data) []); reflexivity. }
  rewrite He. cbv zeta. rewrite Hv, Hsv.
  cbn [Py.bind]. rewrite Hp. cbn [Py.bind]. rewrite Hsol. cbn [Py.bind].
  destruct sol as [|first rest]; [reflexivity|].
  intros Hb.
  destruct (@read_solution_total _ L first sym_vars (Spec.resolved_variables data)
              0%nat []
              (steps ++ [str "Solving the system symbolically using SymPy's solve function"]))
    as (result & steps' & Er).
  { intros j var Hj. apply (Hb j var Hj). }
  pose proof Er as Er'. unfold dict in Er'. rewrite Er'. cbn [Py.bind Py.ret].
  destruct (@read_solution_spec _ _ _ _ _ _ _ _ _ _ Er) as [Hk Hg].
  exists result, (sympy_solver.steps_value (get (sympy_solver.sys_showSteps data) true) steps').
  split; [reflexivity|]. split.
  - intros var. rewrite Hk. simpl. intuition discriminate.
  - intros var val H. destruct (Hg var val H) as [H'|H']; [discriminate H'|].
    exact H'.
Qed.

(** The theorem at [x^2 = 1] solved for x. *)
Lemma C10_first_solution_witness :
  Spec.binds_all DemoSym.sympy
    [(DemoSym.Symbol (str "x"), DemoSym.Number (-1))]
    [DemoSym.Symbol (str "x")]
    (Spec.resolved_variables DemoSym.square_system)
  /\ Spec.first_solution_only DemoSym.sympy DemoSym.square_system
       [DemoSym.Symbol (str "x")]
       [[(DemoSym.Symbol (str "x"), DemoSym.Number (-1))];
        [(DemoSym.Symbol (str "x"), DemoSym.Number 1)]].
Proof.
  split.
  - intros [|[|i]] var H; try discriminate H.
    eexists _, _. split; reflexivity.
  - eapply (@C10_first_solution_only _ DemoSym.sympy DemoSym.square_system);
      reflexivity.
Defined.

(** ** A narration that returns leaves the answer alone *)

Section Narration.
Import sympy_solver.
Variable sym : Type.
Variable L : lib sym.
Variables (domain_ : list Q) (prec : Z).

Lemma filter_solution_same sols steps1 steps2 root :
  Spec.same_answer (filter_solution L domain_ prec (sols, steps1) root)
                   (filter_solution L domain_ prec (sols, steps2) root).
Proof.
  unfold filter_solution, keep_in_domain, Num.index, Py.bind, Py.ret, Py.raise.
  destruct (to_float L root) as [e|x].
  - destruct e; try reflexivity; destruct (is_real L root); reflexivity.
  - destruct (nth_error domain_ 0) as [lo|]; [|reflexivity].
    destruct (Qle_bool lo x); [|reflexivity].
    destruct (nth_error domain_ 1) as [hi|]; [|reflexivity].
    destruct (Qle_bool x hi); reflexivity.
Qed.

Lemma filter_fold_same raw : forall sols steps1 steps2,
  Spec.same_answer
    (fold_exc (filter_solution L domain_ prec) raw (sols, steps1))
    (fold_exc (filter_solution L domain_ prec) raw (sols, steps2)).
Proof.
  induction raw as [|root raw IH]; intros sols steps1 steps2; [reflexivity|].
  cbn [fold_exc].
  pose proof (filter_solution_same sols steps1 steps2 root) as H.
  destruct (filter_solution L domain_ prec (sols, steps1) root) as [e1|[s1 t1]];
    destruct (filter_solution L domain_ prec (sols, steps2) root) as [e2|[s2 t2]];
    simpl in H; try contradiction.
  - exact H.
  - subst s2. apply IH.
Qed.
End Narration.

(** When [generate_equation_steps] returns, the runs with and without
    narration agree: both fail with the same message, or both succeed with
    the same "solutions". *)
Lemma narration_that_returns_is_neutral (sym : Type) (L : sympy_solver.lib sym)
    (data : sympy_solver.equation_request) var expr narration :
  sympy_solver.symbols L (get (sympy_solver.variable data) (str "x")) = inr var ->
  sympy_solver.sympify L
    (Preprocess.standardize (get (sympy_solver.equation data) [])) = inr expr ->
  sympy_solver.generate_equation_steps L expr var = inr narration ->
  let shown := sympy_solver.solve_symbolic_equation L (Spec.with_show data true) in
  let quiet := sympy_solver.solve_symbolic_equation L (Spec.with_show data false) in
  dict_get (str "error") shown = dict_get (str "error") quiet
  /\ dict_get (str "solutions") shown = dict_get (str "solutions") quiet.
Proof.
  intros Hvar Hexpr Hn.
  unfold sympy_solver.solve_symbolic_equation, Spec.with_show.
  cbn [sympy_solver.equation sympy_solver.variable sympy_solver.domain
       sympy_solver.precision sympy_solver.showSteps get].
  cbv zeta. rewrite Hvar. cbn [Py.bind]. rewrite Hexpr. cbn [Py.bind].
  rewrite Hn. cbn [Py.bind Py.ret].
  destruct (sympy_solver.solve L expr var) as [e|raw]; [split; reflexivity|].
  cbn [Py.bind].
  match goal with
  | |- context [fold_exc ?f raw ([], (?b ++ narration) ++ ?t)] =>
      set (shown := fold_exc f raw ([], (b ++ narration) ++ t))
  end.
  match goal with
  | |- context [fold_exc ?f raw ?s] => set (quiet := fold_exc f raw s)
  end.
  assert (H : Spec.same_answer shown quiet) by apply filter_fold_same.
  clearbody shown quiet.
  destruct shown as [e1|[sols1 t1]]; destruct quiet as [e2|[sols2 t2]];
    simpl in H; try contradiction.
  - subst e2. split; reflexivity.
  - subst sols2. split; reflexivity.
Qed.

(** ** Concrete runs of the helpers *)

Example run_preprocess_coefficient : Preprocess.preprocess_equation (str "2x") = str "2*x".
Proof. reflexivity. Qed.
Example run_preprocess_groups : Preprocess.preprocess_equation (str "3(x+1)(x-2)") = str "3(x+1)*(x-2)".
Proof. reflexivity. Qed.
Example run_preprocess_mixed : Preprocess.preprocess_equation (str "x^2 + 12ab") = str "x**2 + 12*ab".
Proof. reflexivity. Qed.
Example run_float_signed : Num.py_float (str " -12.50 ") = inr (-25 # 2).
Proof. reflexivity. Qed.
Example run_float_plus_one : Num.py_float (str "+1") = inr 1.
Proof. reflexivity. Qed.
Example run_float_inner_blank : exists e, Num.py_float (str "+ 5") = inl e.
Proof. eexists. reflexivity. Qed.
Example run_float_bare_point : exists e, Num.py_float (str ".") = inl e.
Proof. eexists. reflexivity. Qed.
Example run_round_six : Num.py_round (4 # 3) 6 = (1333333 # 1000000).
Proof. reflexivity. Qed.
Example run_round_small : Num.py_round (3 # 100000) 4 = 0.
Proof. reflexivity. Qed.
Example run_round_half_even : Num.py_round (5 # 2) 0 = 2.
Proof. reflexivity. Qed.
Example run_round_negative_digits : Num.py_round (1234 # 1) (-1) = 1230.
Proof. reflexivity. Qed.

(* ================================================================== *)
(** * Part III: further properties of the code                         *)
(* ================================================================== *)

(** ** The preprocessor *)

(** X1: [preprocess_equation] leaves a text unchanged exactly when the text
    has no '^', no digit immediately followed by a letter and no ')'
    immediately followed by '('. *)
Theorem X1_preprocess_fixed_points (s : text) :
  Preprocess.preprocess_equation s = s <-> Spec.normalized s.
Proof.
  split.
  - intros H. rewrite <- H. apply preprocess_normalized.
  - apply preprocess_fixed.
Qed.

Lemma filter_plain_insert p q s :
  filter SpecX.plain (Preprocess.insert_between p q s) = filter SpecX.plain s.
Proof.
  induction s as [|a t IH]; [reflexivity|].
  cbn [Preprocess.insert_between filter].
  rewrite filter_app, IH.
  destruct t as [|b t']; [destruct (SpecX.plain a); reflexivity|].
  destruct (p a && q b); destruct (SpecX.plain a); reflexivity.
Qed.

Lemma filter_plain_replace s :
  filter SpecX.plain (replace "^" (str "**") s) = filter SpecX.plain s.
Proof.
  induction s as [|x s IH]; [reflexivity|].
  cbn [replace]. rewrite filter_app, IH.
  destruct (Ascii.eqb_spec x "^"%char) as [->|Hx]; [reflexivity|].
  cbn [filter app]. destruct (SpecX.plain x); reflexivity.
Qed.

(** X2: [preprocess_equation] only replaces '^' and inserts '*': the
    characters of the text other than '*' and '^' come out unchanged, in
    the same order, and no other character is added. *)
Theorem X2_preprocess_keeps_other_characters (s : text) :
  filter SpecX.plain (Preprocess.preprocess_equation s) = filter SpecX.plain s.
Proof.
  rewrite preprocess_refines. unfold Preprocess.preprocess_spec.
  rewrite !filter_plain_insert. apply filter_plain_replace.
Qed.

(** ** Where a match can start and end *)

Lemma is_suffix_refl s : SpecX.is_suffix s s.
Proof. exists []. reflexivity. Qed.

Lemma is_suffix_cons x t s : SpecX.is_suffix t s -> SpecX.is_suffix t (x :: s).
Proof. intros [pre ->]. exists (x :: pre). reflexivity. Qed.

Lemma is_suffix_trans a b c :
  SpecX.is_suffix a b -> SpecX.is_suffix b c -> SpecX.is_suffix a c.
Proof.
  intros [p ->] [p' ->]. exists (p' ++ p). rewrite app_assoc. reflexivity.
Qed.

Lemma is_infix_suffix p t s :
  SpecX.is_suffix t s -> is_prefix p t = true -> is_infix p s = true.
Proof.
  intros [pre ->] Hp. induction pre as [|x pre IH].
  - destruct t; cbn [app is_infix]; rewrite Hp; reflexivity.
  - cbn [app is_infix]. rewrite IH. apply orb_true_r.
Qed.

Lemma existsb_suffix (p : ascii -> bool) t s :
  SpecX.is_suffix t s -> existsb p t = true -> existsb p s = true.
Proof.
  intros [pre ->] H. rewrite existsb_app, H. apply orb_true_r.
Qed.

(** A greedy class repetition hands over to its continuation after a run
    of characters of the class. *)
Lemma star_cls_run {A} (p : ascii -> bool) (k : Re.mstate -> option A) a cs :
  forall s pr,
    Re.star_cls p pr s cs k = Some a ->
    exists run rest' pr',
      s = run ++ rest' /\ forallb p run = true
      /\ k (Re.MState pr' rest' cs) = Some a.
Proof.
  induction s as [|c s IH]; intros pr H.
  - exists [], [], pr. auto.
  - cbn [Re.star_cls] in H. destruct (p c) eqn:Hc.
    + destruct (Re.star_cls p (Some c) s cs k) as [a'|] eqn:E.
      * inversion H; subst a'.
        destruct (IH _ E) as (run & rest' & pr' & -> & Hrun & Hk).
        exists (c :: run), rest', pr'. cbn [forallb]. rewrite Hc, Hrun. auto.
      * exists [], (c :: s), pr. auto.
    + exists [], (c :: s), pr. auto.
Qed.

(** Whatever a pattern matches, what follows it is matched from a later
    position of the same text. *)
Lemma rmatch_continues {A} (r : Re.regex) :
  forall (st : Re.mstate) (k : Re.mstate -> option A) a,
    Re.rmatch r st k = Some a ->
    exists st', SpecX.is_suffix (Re.rest st') (Re.rest st) /\ k st' = Some a.
Proof.
  induction r as [c|p|p|p|r IH|r1 IH1 r2 IH2|i r IH| |p]; intros st k a H;
    cbn [Re.rmatch] in H.
  - destruct (Re.rest st) as [|x s'] eqn:E; [discriminate H|].
    destruct (Ascii.eqb x c); [|discriminate H].
    eexists. split; [|exact H]. cbn. apply is_suffix_cons, is_suffix_refl.
  - destruct (Re.rest st) as [|x s'] eqn:E; [discriminate H|].
    destruct (p x); [|discriminate H].
    eexists. split; [|exact H]. cbn. apply is_suffix_cons, is_suffix_refl.
  - destruct (star_cls_run _ _ _ _ _ H) as (run & rest' & pr' & E & _ & Hk).
    eexists. split; [|exact Hk]. cbn. exists run. exact E.
  - destruct (Re.rest st) as [|x s'] eqn:E; [discriminate H|].
    destruct (p x); [|discriminate H].
    destruct (star_cls_run _ _ _ _ _ H) as (run & rest' & pr' & E' & _ & Hk).
    eexists. split; [|exact Hk]. cbn. exists (x :: run). rewrite E'. reflexivity.
  - destruct (Re.rmatch r st k) as [a'|] eqn:E.
    + inversion H; subst a'. apply (IH _ _ _ E).
    + exists st. split; [apply is_suffix_refl|exact H].
  - destruct (IH1 _ _ _ H) as (st1 & S1 & H1).
    destruct (IH2 _ _ _ H1) as (st2 & S2 & H2).
    exists st2. split; [eapply is_suffix_trans; eassumption|exact H2].
  - destruct (IH _ _ _ H) as (st1 & S1 & H1).
    eexists. split; [|exact H1]. exact S1.
  - destruct (xorb _ _); [|discriminate H].
    exists st. split; [apply is_suffix_refl|exact H].
  - exists st. split; [apply is_suffix_refl|].
    destruct (Re.rest st) as [|x s']; [exact H|].
    destruct (p x); [discriminate H|exact H].
Qed.

(** The second part of a sequence is matched from a later position. *)
Lemma rmatch_seq {A} r1 r2 st (k : Re.mstate -> option A) a :
  Re.rmatch (Re.Seq r1 r2) st k = Some a ->
  exists st', SpecX.is_suffix (Re.rest st') (Re.rest st)
              /\ Re.rmatch r2 st' k = Some a.
Proof. intros H. cbn [Re.rmatch] in H. apply (rmatch_continues _ _ _ H). Qed.

(** A literal text matches only where the subject starts with it. *)
Lemma rmatch_lits {A} v r : forall st (k : Re.mstate -> option A) a,
  Re.rmatch (Re.lits v r) st k = Some a -> is_prefix v (Re.rest st) = true.
Proof.
  induction v as [|c v IH]; intros st k a H; [reflexivity|].
  cbn [Re.lits Re.rmatch] in H.
  destruct (Re.rest st) as [|x s'] eqn:E; [discriminate H|].
  destruct (Ascii.eqb_spec x c) as [->|Hx]; [|discriminate H].
  cbn [is_prefix]. rewrite Ascii.eqb_refl. cbn.
  apply (IH _ _ _ H).
Qed.

(** Every match reported by a scan was found at some position of the
    subject. *)
Lemma scan_found r h : forall s pr n,
  In (Re.Found h) (Re.scan r pr s n) ->
  exists pr' t, SpecX.is_suffix t s
                /\ (Re.match_at r pr' t = Some h
                    \/ Re.match_nonempty r pr' t = Some h).
Proof.
  induction s as [|c s IH]; intros pr n H.
  - destruct n as [|n]; [|destruct H].
    rewrite scan_nil in H. destruct (Re.match_at r pr []) as [h'|] eqn:E;
      [|destruct H].
    destruct H as [H|[]]. inversion H; subst h'.
    exists pr, []. split; [apply is_suffix_refl|left; exact E].
  - destruct n as [|n].
    + rewrite scan_cons in H.
      destruct (Re.match_at r pr (c :: s)) as [h'|] eqn:E.
      * destruct (length (Re.whole h')) as [|m].
        -- destruct H as [H|H].
           ++ inversion H; subst h'.
              exists pr, (c :: s). split; [apply is_suffix_refl|left; exact E].
           ++ destruct (Re.match_nonempty r pr (c :: s)) as [h2|] eqn:E2.
              ** destruct H as [H|H].
                 --- inversion H; subst h2.
                     exists pr, (c :: s).
                     split; [apply is_suffix_refl|right; exact E2].
                 --- destruct (IH _ _ H) as (pr' & t & S & M).
                     exists pr', t. split; [apply is_suffix_cons, S|exact M].
              ** destruct H as [H|H]; [discriminate H|].
                 destruct (IH _ _ H) as (pr' & t & S & M).
                 exists pr', t. split; [apply is_suffix_cons, S|exact M].
        -- destruct H as [H|H].
           ++ inversion H; subst h'.
              exists pr, (c :: s). split; [apply is_suffix_refl|left; exact E].
           ++ destruct (IH _ _ H) as (pr' & t & S & M).
              exists pr', t. split; [apply is_suffix_cons, S|exact M].
      * destruct H as [H|H]; [discriminate H|].
        destruct (IH _ _ H) as (pr' & t & S & M).
        exists pr', t. split; [apply is_suffix_cons, S|exact M].
    + rewrite scan_skip in H.
      destruct (IH _ _ H) as (pr' & t & S & M).
      exists pr', t. split; [apply is_suffix_cons, S|exact M].
Qed.

(** ** The inferred variables *)

Lemma is_prefix_app p r : is_prefix p (p ++ r) = true.
Proof.
  induction p as [|x p IH]; [reflexivity|].
  cbn [app is_prefix]. rewrite Ascii.eqb_refl, IH. reflexivity.
Qed.

(** A match of a class repeated at least once is a non-empty run of the
    class, read from the start of the subject. *)
Lemma plus_match p pr t h :
  Re.match_at (Re.Plus p) pr t = Some h
  \/ Re.match_nonempty (Re.Plus p) pr t = Some h ->
  Re.whole h <> [] /\ forallb p (Re.whole h) = true
  /\ is_prefix (Re.whole h) t = true.
Proof.
  unfold Re.match_at, Re.match_nonempty. cbn [Re.rmatch Re.rest Re.caps].
  destruct t as [|x s']; [intros [H|H]; discriminate H|].
  destruct (p x) eqn:Hx; [|intros [H|H]; discriminate H].
  assert (Hrun : forall run rest', s' = run ++ rest' -> forallb p run = true ->
            let w := Re.whole (Re.mk_hit (x :: s') (Re.MState None rest' [])) in
            w <> [] /\ forallb p w = true /\ is_prefix w (x :: s') = true).
  { intros run rest' -> Hp. unfold Re.mk_hit. cbn [Re.whole Re.rest].
    change (x :: run ++ rest') with ((x :: run) ++ rest').
    rewrite firstn_prefix. repeat split.
    - discriminate.
    - cbn [forallb]. rewrite Hx, Hp. reflexivity.
    - apply is_prefix_app. }
  intros [H|H];
    destruct (star_cls_run _ _ _ _ _ H) as (run & rest' & pr' & E & Hp & Hk).
  - inversion Hk; subst h. apply (Hrun run rest' E Hp).
  - cbn [Re.rest] in Hk.
    destruct (length rest' <? length (x :: s'))%nat; [|discriminate Hk].
    inversion Hk; subst h. apply (Hrun run rest' E Hp).
Qed.

Lemma findall0_plus p s v :
  In v (Re.findall0 (Re.Plus p) s) ->
  v <> [] /\ forallb p v = true /\ is_infix v s = true.
Proof.
  unfold Re.findall0. rewrite in_flat_map. intros ([c|h] & Hin & Hv).
  - destruct Hv.
  - destruct Hv as [<-|[]].
    destruct (scan_found _ _ _ _ _ Hin) as (pr' & t & S & M).
    destruct (plus_match _ _ _ M) as (Hne & Hp & Hpre).
    repeat split; [exact Hne|exact Hp|].
    apply (@is_infix_suffix _ t _ S Hpre).
Qed.

Lemma text_leb_total a : forall b, text_leb a b = false -> text_leb b a = true.
Proof.
  induction a as [|x a IH]; intros [|y b] H; cbn [text_leb] in *;
    try reflexivity; try discriminate H.
  destruct (N.ltb_spec (code x) (code y)); [discriminate H|].
  destruct (N.ltb_spec (code y) (code x)); [reflexivity|].
  apply IH. exact H.
Qed.

Lemma text_leb_trans a : forall b c,
  text_leb a b = true -> text_leb b c = true -> text_leb a c = true.
Proof.
  induction a as [|x a IH]; intros [|y b] [|z c] Hab Hbc; cbn [text_leb] in *;
    try reflexivity; try discriminate.
  destruct (N.ltb_spec (code x) (code y)), (N.ltb_spec (code y) (code x)),
           (N.ltb_spec (code y) (code z)), (N.ltb_spec (code z) (code y)),
           (N.ltb_spec (code x) (code z)), (N.ltb_spec (code z) (code x));
    try reflexivity; try discriminate; try lia.
  apply (IH b c Hab Hbc).
Qed.

Lemma mem_In x l : mem x l = true <-> In x l.
Proof.
  unfold mem. rewrite existsb_exists. split.
  - intros (y & Hy & E). apply text_eqb_eq in E. subst y. exact Hy.
  - intros H. exists x. split; [exact H|apply text_eqb_refl].
Qed.

Lemma insert_text_In x y l : In y (insert_text x l) <-> y = x \/ In y l.
Proof.
  induction l as [|z l IH]; cbn [insert_text In].
  - intuition.
  - destruct (text_leb x z); cbn [In]; [intuition|]. rewrite IH. intuition.
Qed.

Lemma sorted_set_In y l : In y (sorted_set l) <-> In y l.
Proof.
  induction l as [|x l IH]; cbn [sorted_set In]; [reflexivity|].
  destruct (mem x l) eqn:M.
  - rewrite IH. apply mem_In in M. split; [auto|]. intros [<-|H]; auto.
  - rewrite insert_text_In, IH. intuition.
Qed.

Lemma insert_text_sorted x l :
  ~ In x l -> StronglySorted SpecX.text_lt l ->
  StronglySorted SpecX.text_lt (insert_text x l).
Proof.
  intros Hx Hs. induction Hs as [|y l Hs IH Hall]; cbn [insert_text].
  - constructor; constructor.
  - assert (Hxy : x <> y) by (intros ->; apply Hx; left; reflexivity).
    assert (Hxl : ~ In x l) by (intros H; apply Hx; right; exact H).
    rewrite Forall_forall in Hall.
    destruct (text_leb x y) eqn:L.
    + constructor; [constructor; [exact Hs|rewrite Forall_forall; exact Hall]|].
      rewrite Forall_forall. intros z [<-|Hz].
      * split; [exact L|exact Hxy].
      * split.
        -- apply (text_leb_trans _ _ _ L). apply (Hall z Hz).
        -- intros ->. exact (Hxl Hz).
    + constructor; [apply IH; exact Hxl|].
      rewrite Forall_forall. intros z Hz. apply insert_text_In in Hz.
      destruct Hz as [->|Hz]; [|apply (Hall z Hz)].
      split; [apply text_leb_total; exact L|congruence].
Qed.

Lemma sorted_set_sorted l : StronglySorted SpecX.text_lt (sorted_set l).
Proof.
  induction l as [|x l IH]; cbn [sorted_set]; [constructor|].
  destruct (mem x l) eqn:M; [exact IH|].
  apply insert_text_sorted; [|exact IH].
  rewrite sorted_set_In, <- mem_In, M. discriminate.
Qed.

(** X3: the variables inferred for a system that names none are listed in
    strictly increasing order of character codes (so without duplicates);
    each is a non-empty run of ASCII letters that occurs in one of the
    equations and is none of sin, cos, tan, log, exp, sqrt, pi.  Both
    solvers infer the same list. *)
Theorem X3_inferred_variables (equations : list text) :
  sympy_solver.infer_variables equations = numpy_solver.infer_variables equations
  /\ StronglySorted SpecX.text_lt (numpy_solver.infer_variables equations)
  /\ forall v, In v (numpy_solver.infer_variables equations) ->
       v <> [] /\ forallb is_alpha v = true
       /\ mem v numpy_solver.common_funcs = false
       /\ exists eq, In eq equations /\ is_infix v eq = true.
Proof.
  split; [reflexivity|]. unfold numpy_solver.infer_variables. cbv zeta.
  split; [apply sorted_set_sorted|].
  intros v Hv. rewrite sorted_set_In, filter_In, in_flat_map in Hv.
  destruct Hv as ((eq & Heq & Hin) & Hf).
  destruct (findall0_plus _ _ _ Hin) as (Hne & Hp & Hi).
  repeat split; [exact Hne|exact Hp| |exists eq; auto].
  apply negb_true_iff. exact Hf.
Qed.

(** The theorem at the equations "2*x + sin(y) = 5" and "y - x = 0". *)
Lemma X3_inferred_variables_witness :
  numpy_solver.infer_variables [str "2*x + sin(y) = 5"; str "y - x = 0"]
  = [str "x"; str "y"]
  /\ forallb is_alpha (str "y") = true
  /\ mem (str "y") numpy_solver.common_funcs = false.
Proof.
  split; [reflexivity|].
  destruct (proj2 (proj2 (X3_inferred_variables
                            [str "2*x + sin(y) = 5"; str "y - x = 0"]))
                  (str "y")) as (_ & Ha & Hm & _).
  - right. left. reflexivity.
  - split; [exact Ha|exact Hm].
Defined.

(** ** The extraction of coefficients and constants *)

Lemma no_found_no_group r s (g : Re.hit -> list text) :
  (forall pr t h, SpecX.is_suffix t s ->
     Re.match_at r pr t = Some h \/ Re.match_nonempty r pr t = Some h -> False) ->
  flat_map (fun p => match p with Re.Keep _ => [] | Re.Found h => g h end)
           (Re.scan r None s 0) = [].
Proof.
  intros Hno.
  assert (Hk : forall x, In x (Re.scan r None s 0) -> exists c, x = Re.Keep c).
  { intros [c|h] Hx; [eexists; reflexivity|].
    destruct (scan_found _ _ _ _ _ Hx) as (pr' & t & S & M).
    destruct (Hno _ _ _ S M). }
  induction (Re.scan r None s 0) as [|x l IH]; [reflexivity|].
  cbn [flat_map]. destruct (Hk x (or_introl eq_refl)) as [c ->].
  apply IH. intros y Hy. apply Hk. right. exact Hy.
Qed.

Lemma coeff_match_needs_var {A} var st (k : Re.mstate -> option A) a :
  Re.rmatch (numpy_solver.coeff_pattern var) st k = Some a ->
  is_infix var (Re.rest st) = true.
Proof.
  unfold numpy_solver.coeff_pattern. intros H.
  destruct (rmatch_seq _ _ _ _ H) as (st1 & S1 & H1).
  destruct (rmatch_seq _ _ _ _ H1) as (st2 & S2 & H2).
  destruct (rmatch_seq _ _ _ _ H2) as (st3 & S3 & H3).
  destruct (rmatch_seq _ _ _ _ H3) as (st4 & S4 & H4).
  apply rmatch_lits in H4.
  apply (@is_infix_suffix _ (Re.rest st4) _); [|exact H4].
  eapply is_suffix_trans; [exact S4|].
  eapply is_suffix_trans; [exact S3|].
  eapply is_suffix_trans; [exact S2|exact S1].
Qed.

Lemma is_infix_of_suffix p t s :
  SpecX.is_suffix t s -> is_infix p t = true -> is_infix p s = true.
Proof.
  intros [pre ->] H. induction pre as [|x pre IH]; [exact H|].
  cbn [app is_infix]. rewrite IH. apply orb_true_r.
Qed.

Lemma findall_coeff_absent var s :
  is_infix var s = false -> Re.findall1 (numpy_solver.coeff_pattern var) s = [].
Proof.
  intros Hv. unfold Re.findall1. apply no_found_no_group.
  intros pr t h S [M|M];
    unfold Re.match_at, Re.match_nonempty in M;
    apply coeff_match_needs_var in M; cbn [Re.rest] in M;
    rewrite (@is_infix_of_suffix _ _ _ S M) in Hv; discriminate Hv.
Qed.

(** X4: a variable that is an identifier (letters, digits and '_', so that
    its name stands for itself in the pattern) and whose name occurs in
    neither side of an equation gets the coefficient 0 in that equation's
    row. *)
Theorem X4_absent_variable_has_coefficient_zero (left right var : text) :
  forallb is_word var = true ->
  is_infix var left = false -> is_infix var right = false ->
  numpy_solver.coefficient left right var = inr 0.
Proof.
  intros _ Hl Hr. unfold numpy_solver.coefficient.
  rewrite (@findall_coeff_absent _ _ Hl), (@findall_coeff_absent _ _ Hr).
  reflexivity.
Qed.

(** The theorem at the variable z and the equation "2*x + y = 5". *)
Lemma X4_absent_variable_witness :
  numpy_solver.coefficient (str "2*x + y") (str "5") (str "z") = inr 0.
Proof.
  apply X4_absent_variable_has_coefficient_zero; reflexivity.
Defined.

Lemma rmatch_plus_head {A} p st (k : Re.mstate -> option A) a :
  Re.rmatch (Re.Plus p) st k = Some a ->
  exists x s', Re.rest st = x :: s' /\ p x = true.
Proof.
  cbn [Re.rmatch]. intros H.
  destruct (Re.rest st) as [|x s']; [discriminate H|].
  destruct (p x) eqn:Hx; [|discriminate H].
  exists x, s'. auto.
Qed.

Lemma rmatch_grp {A} i r st (k : Re.mstate -> option A) a :
  Re.rmatch (Re.Grp i r) st k = Some a ->
  exists k' : Re.mstate -> option A, Re.rmatch r st k' = Some a.
Proof. cbn [Re.rmatch]. intros H. eexists. exact H. Qed.

Lemma const_match_needs_digit {A} st (k : Re.mstate -> option A) a :
  Re.rmatch numpy_solver.const_pattern st k = Some a ->
  existsb is_digit (Re.rest st) = true.
Proof.
  unfold numpy_solver.const_pattern. intros H.
  change (Re.rmatch (Re.Seq ?r1 ?r2) st k) with
    (Re.rmatch r1 st (fun st' => Re.rmatch r2 st' k)) in H.
  apply rmatch_grp in H. destruct H as [k' H].
  destruct (rmatch_seq _ _ _ _ H) as (st1 & S1 & H1).
  destruct (rmatch_seq _ _ _ _ H1) as (st2 & S2 & H2).
  change (Re.rmatch (Re.Seq ?r1 ?r2) st2 k') with
    (Re.rmatch r1 st2 (fun st' => Re.rmatch r2 st' k')) in H2.
  apply rmatch_plus_head in H2. destruct H2 as (x & s' & E & Hx).
  apply (@existsb_suffix _ (Re.rest st2) _).
  - eapply is_suffix_trans; [exact S2|exact S1].
  - rewrite E. cbn [existsb]. rewrite Hx. reflexivity.
Qed.

Lemma search_from_none r : forall s pr,
  (forall pr' t, SpecX.is_suffix t s -> Re.match_at r pr' t = None) ->
  Re.search_from r pr s = None.
Proof.
  induction s as [|c s IH]; intros pr Hno; cbn [Re.search_from].
  - rewrite (Hno pr [] (is_suffix_refl _)). reflexivity.
  - rewrite (Hno pr (c :: s) (is_suffix_refl _)). apply IH.
    intros pr' t S. apply Hno. apply is_suffix_cons. exact S.
Qed.

(** X5: a side of an equation that contains no digit contributes the
    constant 0. *)
Theorem X5_side_without_digit_has_constant_zero (side : text) :
  existsb is_digit side = false -> numpy_solver.constant_of side = inr 0.
Proof.
  intros Hd. unfold numpy_solver.constant_of, Re.search.
  rewrite search_from_none; [reflexivity|].
  intros pr t S. destruct (Re.match_at numpy_solver.const_pattern pr t) as [h|] eqn:M;
    [|reflexivity].
  unfold Re.match_at in M. apply const_match_needs_digit in M. cbn [Re.rest] in M.
  rewrite (@existsb_suffix _ _ _ S M) in Hd. discriminate Hd.
Qed.

(** The theorem at the side "x - y". *)
Lemma X5_side_without_digit_witness :
  numpy_solver.constant_of (str "x - y") = inr 0.
Proof.
  apply X5_side_without_digit_has_constant_zero. reflexivity.
Defined.

(** ** The shape of a solved linear system *)

Lemma map_exc_length {A B} (f : A -> exc B) : forall l l',
  map_exc f l = inr l' -> length l' = length l.
Proof.
  induction l as [|x l IH]; intros l' H; cbn [map_exc] in H.
  - inversion H. reflexivity.
  - destruct (f x) as [e|y]; [discriminate H|].
    destruct (map_exc f l) as [e|ys]; [discriminate H|].
    inversion H. cbn [length]. rewrite (IH ys eq_refl). reflexivity.
Qed.

Lemma parse_row_shape L vars A b steps eq A' b' steps' :
  numpy_solver.parse_row L vars (A, b, steps) eq = inr (A', b', steps') ->
  exists row c, A' = A ++ [row] /\ b' = b ++ [c] /\ length row = length vars.
Proof.
  unfold numpy_solver.parse_row, Py.bind, Py.ret.
  destruct (if contains "=" eq
            then let (l, r) := split1 "=" eq in (strip l, strip r)
            else (eq, str "0")) as [left right].
  destruct (map_exc _ vars) as [e|coeffs] eqn:E; [intros H; discriminate H|].
  destruct (numpy_solver.constant_of _) as [e|lc]; [intros H; discriminate H|].
  destruct (numpy_solver.constant_of _) as [e|rc]; [intros H; discriminate H|].
  intros H. inversion H; subst.
  eexists _, _. repeat split. apply (map_exc_length _ _ E).
Qed.

Lemma parse_rows_shape L vars : forall eqs A b steps A' b' steps',
  fold_exc (numpy_solver.parse_row L vars) eqs (A, b, steps) = inr (A', b', steps') ->
  length A' = (length A + length eqs)%nat
  /\ length b' = (length b + length eqs)%nat
  /\ (Forall (fun row => length row = length vars) A ->
      Forall (fun row => length row = length vars) A').
Proof.
  induction eqs as [|eq eqs IH]; intros A b steps A' b' steps' H;
    cbn [fold_exc] in H.
  - inversion H; subst. cbn [length]. rewrite !Nat.add_0_r. auto.
  - destruct (numpy_solver.parse_row L vars (A, b, steps) eq)
      as [e|[[A1 b1] steps1]] eqn:E; [discriminate H|].
    destruct (parse_row_shape _ _ _ _ _ _ E) as (row & c & -> & -> & Hrow).
    destruct (IH _ _ _ _ _ _ H) as (HA & Hb & HF).
    rewrite length_app in HA, Hb. cbn [length] in *.
    repeat split; [lia|lia|].
    intros HFA. apply HF. apply Forall_app. split; [exact HFA|].
    constructor; [exact Hrow|constructor].
Qed.

Lemma format_result_keys : forall vs i sol result result',
  numpy_solver.format_result vs i sol result = inr result' ->
  forall v, has_key v result' = true <-> In v vs \/ has_key v result = true.
Proof.
  induction vs as [|var vs IH]; intros i sol result result' H v;
    cbn [numpy_solver.format_result] in H.
  - inversion H; subst. cbn [In]. tauto.
  - unfold Py.bind in H. destruct (Num.index sol i) as [e|x]; [discriminate H|].
    rewrite (IH _ _ _ _ H v), has_key_set. cbn [In].
    split; [intros [?|[->|?]]|intros [[->|?]|?]]; auto.
Qed.

(** X6: for variables that are identifiers, a successful answer of
    [solve_linear_system_numeric] is consistent in its sizes: "matrix" has
    one row per equation and one column per variable, "constants" one entry
    per equation, "variables" lists the variables worked with (the
    request's, or the inferred ones), and "solution" has exactly these
    variables as keys. *)
Theorem X6_linear_system_shape (L : numpy_solver.lib)
    (data : numpy_solver.system_request) :
  let r := numpy_solver.solve_linear_system_numeric L data in
  let equations := get (numpy_solver.equations data) [] in
  let variables := SpecX.numeric_variables data in
  SpecX.identifiers (get (numpy_solver.variables data) []) ->
  Spec.is_success r ->
  exists A b result,
    dict_get (str "matrix") r = Some (numpy_solver.matrix_value A)
    /\ SpecX.has_shape (length equations) (length variables) A
    /\ dict_get (str "constants") r = Some (VList (map VNum b))
    /\ length b = length equations
    /\ dict_get (str "variables") r = Some (VList (map VStr variables))
    /\ dict_get (str "solution") r = Some (VObj result)
    /\ forall v, has_key v result = true <-> In v variables.
Proof.
  cbv zeta. intros _.
  unfold numpy_solver.solve_linear_system_numeric, SpecX.numeric_variables.
  cbv zeta. unfold Py.bind, Py.ret.
  destruct (get (numpy_solver.equations data) []) as [|eq0 eqs];
    [intros H; discriminate H|].
  set (equations := eq0 :: eqs).
  set (variables := match get (numpy_solver.variables data) [] with
                    | [] => numpy_solver.infer_variables equations
                    | _ :: _ => get (numpy_solver.variables data) []
                    end).
  replace (match get (numpy_solver.variables data) [] with
           | [] => numpy_solver.infer_variables equations
           | v :: vs => v :: vs
           end) with variables
    by (unfold variables; destruct (get (numpy_solver.variables data) []);
        reflexivity).
  destruct (fold_exc (numpy_solver.parse_row L variables) equations
              ([], [], [str "Variables: " ++ numpy_solver.fmt_strs L variables]))
    as [e|[[A b] steps]] eqn:E.
  { destruct e; intros H; discriminate H. }
  destruct (numpy_solver.linalg_solve L A b) as [e|solution].
  { destruct e; intros H; discriminate H. }
  destruct (numpy_solver.format_result variables 0 solution []) as [e|result] eqn:F.
  { destruct e; intros H; discriminate H. }
  intros _. exists A, b, result.
  destruct (parse_rows_shape _ _ _ _ _ _ E) as (HA & Hb & HF).
  cbn [length] in HA, Hb.
  repeat split; try reflexivity; try assumption.
  - apply HF. constructor.
  - intros H. apply (format_result_keys _ _ _ _ F) in H.
    destruct H as [H|H]; [exact H|discriminate H].
  - intros H. apply (format_result_keys _ _ _ _ F). left. exact H.
Qed.

(** The theorem at the equations "2x + y = 5" and "x - y = 1". *)
Lemma X6_linear_system_witness :
  exists A b result,
    dict_get (str "matrix")
      (numpy_solver.solve_linear_system_numeric Demo.numpy Demo.system_example)
    = Some (numpy_solver.matrix_value A)
    /\ SpecX.has_shape 2 2 A
    /\ dict_get (str "constants")
         (numpy_solver.solve_linear_system_numeric Demo.numpy Demo.system_example)
       = Some (VList (map VNum b))
    /\ length b = 2%nat
    /\ dict_get (str "variables")
         (numpy_solver.solve_linear_system_numeric Demo.numpy Demo.system_example)
       = Some (VList (map VStr [str "x"; str "y"]))
    /\ dict_get (str "solution")
         (numpy_solver.solve_linear_system_numeric Demo.numpy Demo.system_example)
       = Some (VObj result)
    /\ forall v, has_key v result = true <-> In v [str "x"; str "y"].
Proof.
  apply (X6_linear_system_shape Demo.numpy Demo.system_example);
    [constructor|reflexivity].
Defined.

(** ** Which failures are reported as a singular system *)

Lemma fold_exc_raises {A S} (P : exn -> Prop) (f : S -> A -> exc S) :
  (forall s x e, f s x = inl e -> P e) ->
  forall l s e, fold_exc f l s = inl e -> P e.
Proof.
  intros Hf. induction l as [|x l IH]; intros s e H; cbn [fold_exc] in H;
    [discriminate H|].
  destruct (f s x) as [e'|s'] eqn:E.
  - inversion H; subst. apply (Hf _ _ _ E).
  - apply (IH _ _ H).
Qed.

Lemma map_exc_raises {A B} (P : exn -> Prop) (f : A -> exc B) :
  (forall x e, f x = inl e -> P e) ->
  forall l e, map_exc f l = inl e -> P e.
Proof.
  intros Hf. induction l as [|x l IH]; intros e H; cbn [map_exc] in H;
    [discriminate H|].
  destruct (f x) as [e'|y] eqn:E.
  - inversion H; subst. apply (Hf _ _ E).
  - destruct (map_exc f l) as [e'|ys]; [|discriminate H].
    inversion H; subst. apply IH. reflexivity.
Qed.

Lemma py_float_raises s e : Num.py_float s = inl e -> SpecX.is_value_error e.
Proof.
  unfold Num.py_float, Py.raise, Py.ret. cbv zeta.
  repeat match goal with
         | |- context [let (_, _) := ?x in _] => destruct x
         end.
  split_cases; intros H; inversion H; eexists; reflexivity.
Qed.

Lemma add_match_raises sign acc m e :
  numpy_solver.add_match sign acc m = inl e -> SpecX.is_value_error e.
Proof.
  unfold numpy_solver.add_match, Py.bind, Py.ret. cbv zeta.
  destruct (Num.py_float _) as [e'|v] eqn:E; intros H; inversion H; subst.
  apply (py_float_raises _ E).
Qed.

Lemma coefficient_raises left right var e :
  numpy_solver.coefficient left right var = inl e -> SpecX.is_value_error e.
Proof.
  unfold numpy_solver.coefficient, Py.bind. cbv zeta.
  destruct (fold_exc (numpy_solver.add_match 1) _ 0) as [e'|c] eqn:E; intros H.
  - inversion H; subst.
    apply (fold_exc_raises SpecX.is_value_error _ (@add_match_raises 1) _ _ E).
  - apply (fold_exc_raises SpecX.is_value_error _ (@add_match_raises (-1)) _ _ H).
Qed.

Lemma constant_of_raises side e :
  numpy_solver.constant_of side = inl e -> SpecX.is_value_error e.
Proof.
  unfold numpy_solver.constant_of.
  destruct (Re.search _ side); [apply py_float_raises|discriminate].
Qed.

Lemma parse_row_raises L vars st eq e :
  numpy_solver.parse_row L vars st eq = inl e -> SpecX.is_value_error e.
Proof.
  destruct st as [[A b] steps].
  unfold numpy_solver.parse_row, Py.bind, Py.ret.
  destruct (if contains "=" eq
            then let (l, r) := split1 "=" eq in (strip l, strip r)
            else (eq, str "0")) as [left right].
  destruct (map_exc _ vars) as [e'|coeffs] eqn:E.
  { intros H. inversion H; subst.
    apply (map_exc_raises SpecX.is_value_error _
             (fun x e => @coefficient_raises _ _ x e) _ E). }
  destruct (numpy_solver.constant_of (Preprocess.preprocess_equation left))
    as [e'|lc] eqn:El.
  { intros H. inversion H; subst. apply (@constant_of_raises _ _ El). }
  destruct (numpy_solver.constant_of (Preprocess.preprocess_equation right))
    as [e'|rc] eqn:Er.
  { intros H. inversion H; subst. apply (@constant_of_raises _ _ Er). }
  intros H. discriminate H.
Qed.

Lemma format_result_raises : forall vs i sol result e,
  numpy_solver.format_result vs i sol result = inl e -> e = IndexError.
Proof.
  induction vs as [|var vs IH]; intros i sol result e H;
    cbn [numpy_solver.format_result] in H; [discriminate H|].
  unfold Py.bind, Num.index, Py.raise, Py.ret in H.
  destruct (nth_error sol i) as [x|]; [|congruence].
  apply (IH _ _ _ _ H).
Qed.

(** X7: for variables that are identifiers, [solve_linear_system_numeric]
    answers "The system is singular or not uniquely solvable" exactly when
    every equation was turned into a row and [np.linalg.solve] then raised
    [LinAlgError]; no failure of the extraction or of the formatting is
    reported under that message. *)
Theorem X7_singular_means_numpy_refused (L : numpy_solver.lib)
    (data : numpy_solver.system_request) :
  let equations := get (numpy_solver.equations data) [] in
  let variables := SpecX.numeric_variables data in
  SpecX.identifiers (get (numpy_solver.variables data) []) ->
  numpy_solver.solve_linear_system_numeric L data
  = error_object (str "The system is singular or not uniquely solvable")
  <-> equations <> []
      /\ exists A b steps msg,
           fold_exc (numpy_solver.parse_row L variables) equations
             ([], [], [str "Variables: " ++ numpy_solver.fmt_strs L variables])
           = inr (A, b, steps)
           /\ numpy_solver.linalg_solve L A b = inl (LinAlgError msg).
Proof.
  cbv zeta. intros _.
  unfold numpy_solver.solve_linear_system_numeric, SpecX.numeric_variables.
  cbv zeta. unfold Py.bind, Py.ret.
  destruct (get (numpy_solver.equations data) []) as [|eq0 eqs].
  { split; [intros H; discriminate H|intros [H _]; congruence]. }
  set (equations := eq0 :: eqs).
  set (variables := match get (numpy_solver.variables data) [] with
                    | [] => numpy_solver.infer_variables equations
                    | _ :: _ => get (numpy_solver.variables data) []
                    end).
  replace (match get (numpy_solver.variables data) [] with
           | [] => numpy_solver.infer_variables equations
           | v :: vs => v :: vs
           end) with variables
    by (unfold variables; destruct (get (numpy_solver.variables data) []);
        reflexivity).
  destruct (fold_exc (numpy_solver.parse_row L variables) equations
              ([], [], [str "Variables: " ++ numpy_solver.fmt_strs L variables]))
    as [e|[[A b] steps]] eqn:E.
  { destruct (fold_exc_raises SpecX.is_value_error _ (@parse_row_raises L variables)
                _ _ E) as [msg ->].
    split; [intros H; discriminate H|].
    intros (_ & A & b & steps & m & H & _). discriminate H. }
  destruct (numpy_solver.linalg_solve L A b) as [e|solution] eqn:El.
  { split.
    - destruct e; intros H; try discriminate H.
      split; [discriminate|]. exists A, b, steps, msg.
      split; [reflexivity|exact El].
    - intros (_ & A' & b' & steps' & m & H & Hl).
      inversion H; subst A' b' steps'. rewrite El in Hl. inversion Hl.
      reflexivity. }
  split.
  - destruct (numpy_solver.format_result variables 0 solution []) as [e|result] eqn:F.
    + rewrite (format_result_raises _ _ _ _ F). intros H. discriminate H.
    + intros H. discriminate H.
  - intros (_ & A' & b' & steps' & m & H & Hl).
    inversion H; subst A' b' steps'. rewrite El in Hl. discriminate Hl.
Qed.

(** The theorem at the parallel lines "x + y = 1" and "x + y = 2", which
    are answered with that message. *)
Lemma X7_singular_witness :
  numpy_solver.solve_linear_system_numeric Demo.numpy DemoX.parallel_lines
  = error_object (str "The system is singular or not uniquely solvable")
  /\ exists A b steps msg,
       fold_exc (numpy_solver.parse_row Demo.numpy [str "x"; str "y"])
         [str "x + y = 1"; str "x + y = 2"]
         ([], [], [str "Variables: "
                   ++ numpy_solver.fmt_strs Demo.numpy [str "x"; str "y"]])
       = inr (A, b, steps)
       /\ numpy_solver.linalg_solve Demo.numpy A b = inl (LinAlgError msg).
Proof.
  split; [reflexivity|].
  apply (proj1 (X7_singular_means_numpy_refused Demo.numpy DemoX.parallel_lines
                  (Forall_nil _))).
  reflexivity.
Defined.

(** ** The numeric equation solver *)







(** ** What the brute-force pass reports *)

Lemma newton_phase_empty L f lo hi prec steps :
  SpecX.newton_finds_nothing L f lo hi ->
  fst (fold_left (numpy_solver.newton_attempt L f lo hi prec)
         (Num.linspace lo hi 10) ([], steps)) = [].
Proof.
  intros Hn.
  apply (fold_left_invariant (fun st : numpy_solver.search_state => fst st = []));
    [|reflexivity].
  intros [sols st] x0 Hx Hs. cbn [fst] in Hs. subst sols.
  unfold numpy_solver.newton_attempt, Py.bind, Py.ret.
  destruct (numpy_solver.newton L f x0) as [e|root] eqn:E; [reflexivity|].
  pose proof (Hn x0 root Hx E) as Ha. unfold SpecX.accepted in Ha.
  destruct (Qle_bool lo root && Qle_bool root hi); [|reflexivity].
  destruct (f root) as [e|y]; [reflexivity|].
  cbn [andb] in Ha. rewrite Ha. reflexivity.
Qed.

Lemma map_exc_total {A B} (f : A -> exc B) : forall l,
  (forall x, In x l -> exists y, f x = inr y) ->
  exists ys, map_exc f l = inr ys
             /\ forall i x y, nth_error l i = Some x -> f x = inr y ->
                              nth_error ys i = Some y.
Proof.
  induction l as [|a l IH]; intros H.
  - exists []. split; [reflexivity|]. intros [|i] x y Hx; discriminate Hx.
  - destruct (H a (or_introl eq_refl)) as [b Hb].
    destruct IH as (ys & E & Hnth); [intros x Hx; apply H; right; exact Hx|].
    exists (b :: ys). cbn [map_exc]. rewrite Hb, E. split; [reflexivity|].
    intros [|i] x y Hx Hy; cbn [nth_error] in *.
    + inversion Hx; subst x. congruence.
    + apply (Hnth _ _ _ Hx Hy).
Qed.

Lemma nth_error_tl {A} (l : list A) i : nth_error (tl l) i = nth_error l (S i).
Proof. destruct l; [destruct i|]; reflexivity. Qed.

Lemma nth_error_combine {A B} : forall (l : list A) (l' : list B) i a b,
  nth_error l i = Some a -> nth_error l' i = Some b ->
  nth_error (combine l l') i = Some (a, b).
Proof.
  induction l as [|x l IH]; intros [|y l'] [|i] a b Ha Hb;
    cbn [nth_error combine] in *; try discriminate.
  - congruence.
  - apply IH; assumption.
Qed.

Lemma in_adjacent_pairs {A B} (xs : list A) (ys : list B) i a b ya yb :
  nth_error xs i = Some a -> nth_error xs (S i) = Some b ->
  nth_error ys i = Some ya -> nth_error ys (S i) = Some yb ->
  In ((a, b), (ya, yb))
     (combine (numpy_solver.adjacent xs) (numpy_solver.adjacent ys)).
Proof.
  intros Ha Hb Hya Hyb. apply (@nth_error_In _ _ i).
  unfold numpy_solver.adjacent.
  apply nth_error_combine; apply nth_error_combine;
    rewrite ?nth_error_tl; assumption.
Qed.

Lemma bracket_attempt_keeps L f prec st p s :
  In s (fst st) -> In s (fst (numpy_solver.bracket_attempt L f prec st p)).
Proof.
  destruct st as [sols steps], p as [[a b] [ya yb]].
  unfold numpy_solver.bracket_attempt. cbn [fst].
  destruct (Qle_bool (ya * yb) 0); [|auto].
  destruct (numpy_solver.brentq L f a b); cbn [fst]; [auto|].
  intros H. apply in_or_app. left. exact H.
Qed.

Lemma bracket_fold_keeps L f prec l : forall st s,
  In s (fst st) ->
  In s (fst (fold_left (numpy_solver.bracket_attempt L f prec) l st)).
Proof.
  induction l as [|p l IH]; intros st s H; [exact H|].
  cbn [fold_left]. apply IH. apply bracket_attempt_keeps. exact H.
Qed.

Lemma bracket_fold_reports L f prec a b ya yb r l : forall st,
  In ((a, b), (ya, yb)) l ->
  ya * yb <= 0 -> numpy_solver.brentq L f a b = inr r ->
  In (Num.py_round r prec)
     (fst (fold_left (numpy_solver.bracket_attempt L f prec) l st)).
Proof.
  intros st Hin Hy Hb. revert st.
  induction l as [|p l IH]; intros st; [destruct Hin|].
  cbn [fold_left]. destruct Hin as [->|Hin]; [|apply IH; exact Hin].
  apply bracket_fold_keeps. destruct st as [sols steps].
  unfold numpy_solver.bracket_attempt.
  apply Qle_bool_iff in Hy. rewrite Hy, Hb. cbn [fst].
  apply in_or_app. right. left. reflexivity.
Qed.

Lemma dedup_keeps x : forall l,
  In x l -> exists s, In s (Num.dedup l) /\ s == x.
Proof.
  induction l as [|x0 l IH]; intros H; [destruct H|].
  cbn [Num.dedup]. destruct H as [->|H].
  - exists x. split; [left; reflexivity|reflexivity].
  - destruct (IH H) as (s & Hs & Es).
    destruct (Qeq_bool x0 s) eqn:E.
    + exists x0. split; [left; reflexivity|].
      apply Qeq_bool_iff in E. rewrite E. exact Es.
    + exists s. split; [|exact Es]. right.
      apply filter_In. split; [exact Hs|]. rewrite E. reflexivity.
Qed.

(** X10: when no Newton start gives an accepted result and the expression
    evaluates at all 1000 samples of the domain, every pair of neighbouring
    samples with values of opposite sign (or a zero value) on which
    [optimize.brentq] returns contributes to "solutions": the rounded
    result of [brentq] is reported. *)
Theorem X10_bracketed_root_is_reported (L : numpy_solver.lib)
    (data : numpy_solver.equation_request) (lo hi : Q) (i : nat)
    (a b ya yb r : Q) :
  let f := numpy_solver.eval_x L
             (Preprocess.standardize (get (numpy_solver.equation data) [])) in
  let domain := get (numpy_solver.domain data) [-1000; 1000] in
  let precision := get (numpy_solver.precision data) 4%Z in
  let x_vals := Num.linspace lo hi 1000 in
  nth_error domain 0 = Some lo ->
  nth_error domain 1 = Some hi ->
  SpecX.newton_finds_nothing L f lo hi ->
  (forall x, In x x_vals -> exists y, f x = inr y) ->
  nth_error x_vals i = Some a -> nth_error x_vals (S i) = Some b ->
  f a = inr ya -> f b = inr yb -> ya * yb <= 0 ->
  numpy_solver.brentq L f a b = inr r ->
  exists sols s,
    dict_get (str "solutions") (numpy_solver.solve_equation_numeric L data)
    = Some (VList (map VNum sols))
    /\ In s sols /\ s == Num.py_round r precision.
Proof.
  intros f domain precision x_vals H0 H1 Hn Hf Ha Hb Hya Hyb Hy Hr.
  destruct (map_exc_total f x_vals Hf) as (y_vals & Ey & Hnth).
  pose proof (in_adjacent_pairs _ _ _ Ha Hb (Hnth _ _ _ Ha Hya) (Hnth _ _ _ Hb Hyb))
    as Hin.
  unfold numpy_solver.solve_equation_numeric. cbv zeta.
  fold f. fold domain. fold precision.
  unfold Py.bind, Py.ret.
  rewrite (index_nth_error _ _ H0), (index_nth_error _ _ H1).
  unfold numpy_solver.find_roots.
  set (st := fold_left (numpy_solver.newton_attempt L f lo hi precision)
               (Num.linspace lo hi 10) _).
  assert (Hst : fst st = []) by apply (newton_phase_empty _ _ Hn).
  rewrite Hst. destruct st as [sols0 steps0]. cbn [fst] in Hst. subst sols0.
  unfold numpy_solver.brute_force. fold x_vals. rewrite Ey.
  set (st' := fold_left _ _ _).
  assert (Hs : In (Num.py_round r precision) (fst st'))
    by apply (@bracket_fold_reports L f precision a b ya yb r _ _ Hin Hy Hr).
  destruct (@dedup_keeps _ _ Hs) as (s & Hs' & Es).
  exists (Num.sorted (Num.dedup (fst st'))), s.
  split; [reflexivity|]. split; [|exact Es].
  apply sorted_in. exact Hs'.
Qed.

(** The theorem at [x - 2] on the default domain with a Newton search that
    never converges: the samples 500 and 501 bracket the root, the
    stand-in for [brentq] returns the left one, 1000/999, and 1.001 is
    reported. *)
Lemma X10_bracketed_root_witness :
  exists sols s,
    dict_get (str "solutions")
      (numpy_solver.solve_equation_numeric DemoX.numpy_without_newton
         Demo.plain_root)
    = Some (VList (map VNum sols))
    /\ In s sols /\ s == Num.py_round (1000 # 999) 4.
Proof.
  apply (@X10_bracketed_root_is_reported DemoX.numpy_without_newton
           Demo.plain_root (-1000) 1000 500
           (1000 # 999) (3000 # 999) (-998 # 999) (1002 # 999) (1000 # 999)).
  - reflexivity.
  - reflexivity.
  - intros x0 root _ H. discriminate H.
  - intros x _. eexists. reflexivity.
  - vm_compute. reflexivity.
  - vm_compute. reflexivity.
  - vm_compute. reflexivity.
  - vm_compute. reflexivity.
  - vm_compute. discriminate.
  - reflexivity.
Defined.

(** ** When Newton's method finds a root *)

Lemma newton_attempt_origin L f lo hi prec st x0 l :
  In x0 l ->
  Forall (fun s => exists x root, In x l
            /\ numpy_solver.newton L f x = inr root
            /\ SpecX.accepted f lo hi root = true
            /\ s = Num.py_round root prec) (fst st) ->
  Forall (fun s => exists x root, In x l
            /\ numpy_solver.newton L f x = inr root
            /\ SpecX.accepted f lo hi root = true
            /\ s = Num.py_round root prec)
         (fst (numpy_solver.newton_attempt L f lo hi prec st x0)).
Proof.
  intros Hx H. unfold numpy_solver.newton_attempt, Py.bind, Py.ret.
  destruct st as [sols steps]. cbn [fst] in H.
  destruct (numpy_solver.newton L f x0) as [e|root] eqn:E; [exact H|].
  destruct (Qle_bool lo root && Qle_bool root hi) eqn:Hd; [|exact H].
  destruct (f root) as [e|y] eqn:Ey; [exact H|].
  destruct (Num.Qltb (Qabs y) numpy_solver.tol) eqn:Ht; [|exact H].
  destruct (negb (existsb _ sols)); [|exact H].
  cbn [fst]. apply Forall_app. split; [exact H|].
  constructor; [|constructor].
  exists x0, root. repeat split; try assumption.
  unfold SpecX.accepted. rewrite Hd, Ey, Ht. reflexivity.
Qed.

Lemma newton_attempt_grows L f lo hi prec st x0 :
  fst st <> [] -> fst (numpy_solver.newton_attempt L f lo hi prec st x0) <> [].
Proof.
  unfold numpy_solver.newton_attempt, Py.bind, Py.ret.
  destruct st as [sols steps]. cbn [fst]. intros H.
  split_cases; cbn [fst]; try exact H.
  intros E. apply app_eq_nil in E. destruct E as [_ E]. discriminate E.
Qed.

Lemma newton_attempt_first L f lo hi prec steps x0 root :
  numpy_solver.newton L f x0 = inr root ->
  SpecX.accepted f lo hi root = true ->
  fst (numpy_solver.newton_attempt L f lo hi prec ([], steps) x0) <> [].
Proof.
  intros E Ha. unfold numpy_solver.newton_attempt, Py.bind, Py.ret.
  rewrite E. unfold SpecX.accepted in Ha.
  destruct (Qle_bool lo root && Qle_bool root hi); [|discriminate Ha].
  destruct (f root) as [e|y]; [discriminate Ha|].
  cbn [andb] in Ha. rewrite Ha. cbn. discriminate.
Qed.

Lemma newton_fold_finds L f lo hi prec x0 root :
  numpy_solver.newton L f x0 = inr root ->
  SpecX.accepted f lo hi root = true ->
  forall l st, In x0 l ->
    fst (fold_left (numpy_solver.newton_attempt L f lo hi prec) l st) <> [].
Proof.
  intros E Ha.
  assert (Hkeep : forall l st, fst st <> [] ->
            fst (fold_left (numpy_solver.newton_attempt L f lo hi prec) l st) <> []).
  { induction l as [|x l IH]; intros st H; [exact H|].
    cbn [fold_left]. apply IH. apply newton_attempt_grows. exact H. }
  induction l as [|x l IH]; intros st Hin; [destruct Hin|].
  cbn [fold_left]. destruct st as [sols steps].
  destruct sols as [|s sols].
  - destruct Hin as [->|Hin]; [|apply IH; exact Hin].
    apply Hkeep. apply (@newton_attempt_first L f lo hi prec steps x0 root E Ha).
  - apply Hkeep. apply newton_attempt_grows. discriminate.
Qed.

Lemma sorted_dedup_not_empty l : l <> [] -> Num.sorted (Num.dedup l) <> [].
Proof.
  destruct l as [|x l]; [congruence|]. intros _ E.
  destruct (@dedup_keeps x (x :: l) (or_introl eq_refl)) as (s & Hs & _).
  apply sorted_in in Hs. rewrite E in Hs. destruct Hs.
Qed.

(** X11: when [optimize.newton] leads from one of the ten starting points
    to an accepted result (in the domain, with the expression below 1e-10),
    the brute-force pass is not run: "solutions" is not empty and each of
    its entries is the rounding of such a result. *)
Theorem X11_newton_hit_decides (L : numpy_solver.lib)
    (data : numpy_solver.equation_request) (lo hi x0 root : Q) :
  let f := numpy_solver.eval_x L
             (Preprocess.standardize (get (numpy_solver.equation data) [])) in
  let domain := get (numpy_solver.domain data) [-1000; 1000] in
  let precision := get (numpy_solver.precision data) 4%Z in
  nth_error domain 0 = Some lo ->
  nth_error domain 1 = Some hi ->
  In x0 (Num.linspace lo hi 10) ->
  numpy_solver.newton L f x0 = inr root ->
  SpecX.accepted f lo hi root = true ->
  exists sols,
    dict_get (str "solutions") (numpy_solver.solve_equation_numeric L data)
    = Some (VList (map VNum sols))
    /\ sols <> []
    /\ forall s, In s sols -> SpecX.from_newton L f lo hi precision s.
Proof.
  intros f domain precision H0 H1 Hx E Ha.
  unfold numpy_solver.solve_equation_numeric. cbv zeta.
  fold f. fold domain. fold precision.
  unfold Py.bind, Py.ret.
  rewrite (index_nth_error _ _ H0), (index_nth_error _ _ H1).
  unfold numpy_solver.find_roots.
  set (st := fold_left (numpy_solver.newton_attempt L f lo hi precision)
               (Num.linspace lo hi 10) _).
  assert (Hne : fst st <> [])
    by apply (@newton_fold_finds L f lo hi precision x0 root E Ha _ _ Hx).
  assert (Hall : Forall (SpecX.from_newton L f lo hi precision) (fst st)).
  { apply (fold_left_invariant
             (fun st => Forall (SpecX.from_newton L f lo hi precision) (fst st)));
      [|constructor].
    intros st' x Hin Hst. apply newton_attempt_origin; assumption. }
  destruct (fst st) as [|s0 sols0] eqn:Est; [congruence|].
  rewrite <- Est in *.
  exists (Num.sorted (Num.dedup (fst st))).
  split; [reflexivity|]. split; [apply sorted_dedup_not_empty; exact Hne|].
  intros s Hs. apply sorted_dedup_in in Hs.
  rewrite Forall_forall in Hall. apply Hall. exact Hs.
Qed.

(** The theorem at [x - 2] on the default domain, where the stand-in for
    [optimize.newton] answers 2. *)
Lemma X11_newton_hit_witness :
  exists sols,
    dict_get (str "solutions")
      (numpy_solver.solve_equation_numeric Demo.numpy Demo.plain_root)
    = Some (VList (map VNum sols))
    /\ sols <> []
    /\ forall s, In s sols ->
         SpecX.from_newton Demo.numpy (Demo.eval_x (str "x - 2")) (-1000) 1000 4 s.
Proof.
  eapply (@X11_newton_hit_decides Demo.numpy Demo.plain_root (-1000) 1000 _ 2).
  - reflexivity.
  - reflexivity.
  - left. reflexivity.
  - reflexivity.
  - reflexivity.
Defined.

(** ** The ODE solver *)

(** X12: with method "Euler" and fewer than two points [solve_ode] answers
    with an error object: for one point the step size divides by zero, for
    none the initial condition has no entry to go to, for a negative count
    the arrays cannot be built. *)
Theorem X12_euler_needs_two_points (L : numpy_solver.lib)
    (data : numpy_solver.ode_request) (n : Z) :
  numpy_solver.method data = Some (str "Euler") ->
  numpy_solver.numPoints data = Some n ->
  (n <= 1)%Z ->
  exists msg, numpy_solver.solve_ode L data = error_object msg.
Proof.
  intros Hm Hn Hle. apply (euler_needs_two_points L data Hm Hn Hle).
Qed.

(** The theorem at [dy/dx = y] with one point. *)
Lemma X12_euler_one_point_witness :
  exists msg, numpy_solver.solve_ode Demo.numpy DemoX.one_point = error_object msg.
Proof.
  apply (@X12_euler_needs_two_points Demo.numpy DemoX.one_point 1);
    [reflexivity | reflexivity | lia].
Defined.

(** ** A derivative that fails to evaluate *)





(** ** The symbolic solver *)

(** X14: when [generate_equation_steps] returns, the runs of
    [solve_symbolic_equation] with and without narration agree: both answer
    with the same error, or both succeed with the same "solutions". *)
Theorem X14_returning_narration_is_neutral (sym : Type)
    (L : sympy_solver.lib sym) (data : sympy_solver.equation_request)
    (var expr : sym) (narration : list text) :
  sympy_solver.symbols L (get (sympy_solver.variable data) (str "x")) = inr var ->
  sympy_solver.sympify L
    (Preprocess.standardize (get (sympy_solver.equation data) [])) = inr expr ->
  sympy_solver.generate_equation_steps L expr var = inr narration ->
  dict_get (str "error")
    (sympy_solver.solve_symbolic_equation L (Spec.with_show data true))
  = dict_get (str "error")
      (sympy_solver.solve_symbolic_equation L (Spec.with_show data false))
  /\ dict_get (str "solutions")
       (sympy_solver.solve_symbolic_equation L (Spec.with_show data true))
     = dict_get (str "solutions")
         (sympy_solver.solve_symbolic_equation L (Spec.with_show data false)).
Proof.
  intros Hvar Hexpr Hn.
  exact (narration_that_returns_is_neutral L data Hvar Hexpr Hn).
Qed.

(** The theorem at [x^2 - 4], where both runs report the roots -2 and 2. *)
Lemma X14_neutral_witness :
  dict_get (str "solutions")
    (sympy_solver.solve_symbolic_equation DemoSym.sympy
       (Spec.with_show DemoSym.two_roots true))
  = Some (VList [VNum (-2); VNum 2])
  /\ dict_get (str "solutions")
       (sympy_solver.solve_symbolic_equation DemoSym.sympy
          (Spec.with_show DemoSym.two_roots true))
     = dict_get (str "solutions")
         (sympy_solver.solve_symbolic_equation DemoSym.sympy
            (Spec.with_show DemoSym.two_roots false)).
Proof.
  split; [reflexivity|].
  eapply (@X14_returning_narration_is_neutral _ DemoSym.sympy DemoSym.two_roots);
    reflexivity.
Defined.

Ltac flag_cases flag :=
  unfold SpecX.steps_by_flag, sympy_solver.steps_value, Py.bind, Py.ret, Py.raise;
  destruct flag as [[|]|]; cbn [get];
  split_cases; intros H; try discriminate H; cbn; eauto.

(** X15: on success [solve_symbolic_equation] always returns "steps" as a
    list, whatever [showSteps] says (the flag only turns the narrator off);
    the system, differentiation and integration tools return "steps": null
    when [showSteps] is false and a list otherwise. *)
Theorem X15_steps_field_and_flag :
  (forall sym (L : sympy_solver.lib sym) data,
      Spec.is_success (sympy_solver.solve_symbolic_equation L data) ->
      exists l, dict_get (str "steps")
                  (sympy_solver.solve_symbolic_equation L data) = Some (VList l))
  /\ (forall sym (L : sympy_solver.lib sym) data,
        Spec.is_success (sympy_solver.solve_symbolic_system L data) ->
        SpecX.steps_by_flag (sympy_solver.sys_showSteps data)
          (sympy_solver.solve_symbolic_system L data))
  /\ (forall sym (L : sympy_solver.lib sym) data,
        Spec.is_success (sympy_solver.perform_differentiation L data) ->
        SpecX.steps_by_flag (sympy_solver.diff_showSteps data)
          (sympy_solver.perform_differentiation L data))
  /\ (forall sym (L : sympy_solver.lib sym) data,
        Spec.is_success (sympy_solver.perform_integration L data) ->
        SpecX.steps_by_flag (sympy_solver.int_showSteps data)
          (sympy_solver.perform_integration L data)).
Proof.
  repeat split; intros sym L data.
  - unfold sympy_solver.solve_symbolic_equation, Py.bind, Py.ret, Py.raise.
    split_cases; intros H; try discriminate H; cbn; eauto.
  - unfold sympy_solver.solve_symbolic_system.
    flag_cases (sympy_solver.sys_showSteps data).
  - unfold sympy_solver.perform_differentiation.
    flag_cases (sympy_solver.diff_showSteps data).
  - unfold sympy_solver.perform_integration.
    flag_cases (sympy_solver.int_showSteps data).
Qed.

(** The theorem at [x^2 = 1] solved for [x] with [showSteps: false]. *)
Lemma X15_quiet_system_witness :
  Spec.is_success (sympy_solver.solve_symbolic_system DemoSym.sympy DemoX.quiet_system)
  /\ dict_get (str "steps")
       (sympy_solver.solve_symbolic_system DemoSym.sympy DemoX.quiet_system)
     = Some VNull.
Proof.
  split; [reflexivity|].
  apply (proj1 (proj2 X15_steps_field_and_flag) _ DemoSym.sympy DemoX.quiet_system).
  reflexivity.
Defined.

(** ** No root of the domain is dropped *)

Section SymbolicComplete.
Import sympy_solver.
Variable sym : Type.
Variable L : lib sym.
Variables (domain_ : list Q) (prec : Z).

Lemma keep_in_domain_reports label sols steps x lo hi :
  nth_error domain_ 0 = Some lo -> nth_error domain_ 1 = Some hi ->
  lo <= x <= hi ->
  keep_in_domain L domain_ prec label (sols, steps) x
  = inr (sols ++ [Num.py_round x prec], steps ++ [label ++ fmt_float L x]).
Proof.
  intros H0 H1 [Hlo Hhi].
  unfold keep_in_domain, Num.index, Py.bind, Py.ret. rewrite H0, H1.
  apply Qle_bool_iff in Hlo. apply Qle_bool_iff in Hhi. rewrite Hlo, Hhi.
  reflexivity.
Qed.

Lemma filter_solution_keeps sols steps root sols' steps' :
  filter_solution L domain_ prec (sols, steps) root = inr (sols', steps') ->
  incl sols sols'.
Proof.
  unfold filter_solution, Py.bind, Py.ret, Py.raise.
  destruct (to_float L root) as [e|x] eqn:Ef.
  - destruct e; try discriminate;
      destruct (is_real L root); intros E; inversion E; subst; apply incl_refl.
  - destruct (keep_in_domain L domain_ prec (str "Validated solution: ")
                (sols, steps) x) as [e|[sols1 steps1]] eqn:Ek.
    + rewrite (@keep_in_domain_raises _ _ _ _ _ _ _ _ Ek). discriminate.
    + intros E. inversion E; subst.
      destruct (@keep_in_domain_spec _ _ _ _ _ _ _ _ _ _ Ek) as [_ [->|[-> _]]];
        [apply incl_refl|apply incl_appl, incl_refl].
Qed.

Lemma filter_solution_reports sols steps root x lo hi sols' steps' :
  to_float L root = inr x ->
  nth_error domain_ 0 = Some lo -> nth_error domain_ 1 = Some hi ->
  lo <= x <= hi ->
  filter_solution L domain_ prec (sols, steps) root = inr (sols', steps') ->
  In (Num.py_round x prec) sols'.
Proof.
  intros Ef H0 H1 Hx. unfold filter_solution, Py.bind, Py.ret. rewrite Ef.
  rewrite (@keep_in_domain_reports _ sols steps x lo hi H0 H1 Hx).
  intros E. inversion E; subst. apply in_or_app. right. left. reflexivity.
Qed.

Lemma filter_fold_reports root x lo hi :
  to_float L root = inr x ->
  nth_error domain_ 0 = Some lo -> nth_error domain_ 1 = Some hi ->
  lo <= x <= hi ->
  forall raw sols steps sols' steps',
    fold_exc (filter_solution L domain_ prec) raw (sols, steps) = inr (sols', steps') ->
    incl sols sols' /\ (In root raw -> In (Num.py_round x prec) sols').
Proof.
  intros Ef H0 H1 Hx.
  induction raw as [|r raw IH]; intros sols steps sols' steps' E;
    cbn [fold_exc] in E.
  - inversion E; subst. split; [apply incl_refl|intros []].
  - destruct (filter_solution L domain_ prec (sols, steps) r)
      as [e|[sols1 steps1]] eqn:E1; [discriminate E|].
    destruct (IH _ _ _ _ E) as [Hi Hin].
    split.
    + eapply incl_tran; [apply (@filter_solution_keeps _ _ _ _ _ E1)|exact Hi].
    + intros [->|Hr]; [|apply Hin; exact Hr].
      apply Hi. apply (@filter_solution_reports _ _ _ _ _ _ _ _ Ef H0 H1 Hx E1).
Qed.

End SymbolicComplete.

(** X16: a successful [solve_symbolic_equation] drops no root of the
    domain: every raw solution of [solve] that converts to a float inside
    [[domain[0], domain[1]]] appears in "solutions", rounded to the
    precision. *)
Theorem X16_roots_in_domain_are_reported (sym : Type) (L : sympy_solver.lib sym)
    (data : sympy_solver.equation_request) (var expr root : sym)
    (raw : list sym) (x lo hi : Q) :
  let domain := get (sympy_solver.domain data) [-1000; 1000] in
  let precision := get (sympy_solver.precision data) 4%Z in
  let equation := Preprocess.standardize (get (sympy_solver.equation data) []) in
  let r := sympy_solver.solve_symbolic_equation L data in
  Spec.is_success r ->
  sympy_solver.symbols L (get (sympy_solver.variable data) (str "x")) = inr var ->
  sympy_solver.sympify L equation = inr expr ->
  sympy_solver.solve L expr var = inr raw ->
  In root raw -> sympy_solver.to_float L root = inr x ->
  nth_error domain 0 = Some lo -> nth_error domain 1 = Some hi ->
  lo <= x <= hi ->
  exists sols s,
    dict_get (str "solutions") r = Some (VList (map VNum sols))
    /\ In s sols /\ s == Num.py_round x precision.
Proof.
  intros domain precision equation r Hs Evar Eexpr Eraw Hroot Ef H0 H1 Hx.
  revert Hs. unfold r, sympy_solver.solve_symbolic_equation.
  cbv zeta. unfold Py.bind, Py.ret.
  fold equation. fold domain. fold precision.
  rewrite Evar, Eexpr.
  match goal with
  | |- context [match (if ?b then ?u else ?v) with _ => _ end] =>
      destruct (if b then u else v) as [e|steps1]; [intros Hs; discriminate Hs|]
  end.
  rewrite Eraw.
  match goal with
  | |- context [fold_exc ?f ?l ?s] =>
      destruct (fold_exc f l s) as [e|[sols steps2]] eqn:E;
        [intros Hs; discriminate Hs|]
  end.
  intros _.
  destruct (@filter_fold_reports _ L domain precision root x lo hi Ef H0 H1 Hx
              _ _ _ _ _ E) as [_ Hin].
  destruct (@dedup_keeps _ _ (Hin Hroot)) as (s & Hs' & Es).
  exists (Num.sorted (Num.dedup sols)), s.
  split; [reflexivity|]. split; [|exact Es].
  apply sorted_in. exact Hs'.
Qed.

(** The theorem at [x^2 - 4] on the default domain and the root 2. *)
Lemma X16_roots_in_domain_witness :
  exists sols s,
    dict_get (str "solutions")
      (sympy_solver.solve_symbolic_equation DemoSym.sympy DemoSym.two_roots)
    = Some (VList (map VNum sols))
    /\ In s sols /\ s == Num.py_round 2 4.
Proof.
  apply (@X16_roots_in_domain_are_reported _ DemoSym.sympy DemoSym.two_roots
           (DemoSym.Symbol (str "x")) (DemoSym.Opaque DemoSym.square_minus_four)
           (DemoSym.Number 2) [DemoSym.Number (-2); DemoSym.Number 2]
           2 (-1000) 1000).
  - reflexivity.
  - reflexivity.
  - reflexivity.
  - reflexivity.
  - right. left. reflexivity.
  - reflexivity.
  - reflexivity.
  - reflexivity.
  - split; vm_compute; discriminate.
Defined.

(** ** The narration of a quadratic *)

(** X17: in the quadratic branch the narrator unpacks the coefficient list
    into [c, b, a] in that order.  SymPy lists coefficients from the highest
    power down, so the step "Here a = ..." shows the last entry of the list
    (the constant term) as a and the first (the leading coefficient) as c,
    and the discriminant is computed from these names. *)
Theorem X17_quadratic_names_reversed (sym : Type) (L : sympy_solver.lib sym)
    (steps : list text) (expr var p q r : sym) (out : list text) :
  sympy_solver.all_coeffs L expr var = inr [p; q; r] ->
  sympy_solver.quadratic_steps L steps expr var = inr out ->
  In (str "Here a = " ++ sympy_solver.to_str L r
      ++ str ", b = " ++ sympy_solver.to_str L q
      ++ str ", c = " ++ sympy_solver.to_str L p) out
  /\ In (str "Calculate the discriminant: b² - 4ac = "
         ++ sympy_solver.to_str L
              (sympy_solver.sub L (sympy_solver.pow L q 2)
                 (sympy_solver.mul L
                    (sympy_solver.mul L (sympy_solver.of_int L 4) r) p))) out.
Proof.
  intros Hc. unfold sympy_solver.quadratic_steps, Py.bind, Py.ret.
  rewrite Hc.
  split_cases; intros E; try discriminate E; inversion E; subst;
    rewrite !in_app_iff; cbn [In]; split; auto 10.
Qed.

(** The theorem at [x^2 - 4], whose coefficient list is [1, 0, -4]. *)
Lemma X17_quadratic_witness :
  exists out,
    sympy_solver.quadratic_steps DemoSym.sympy []
      (DemoSym.Opaque DemoSym.square_minus_four) (DemoSym.Symbol (str "x"))
    = inr out
    /\ In (str "Here a = " ++ DemoSym.to_str (DemoSym.Number (-4))
           ++ str ", b = " ++ DemoSym.to_str (DemoSym.Number 0)
           ++ str ", c = " ++ DemoSym.to_str (DemoSym.Number 1)) out.
Proof.
  eexists. split; [reflexivity|].
  eapply (@X17_quadratic_names_reversed _ DemoSym.sympy []
            (DemoSym.Opaque DemoSym.square_minus_four)
            (DemoSym.Symbol (str "x"))); reflexivity.
Defined.

(** ** A power in the factored form *)

Lemma is_prefix_iff p : forall s,
  is_prefix p s = true <-> exists post, s = p ++ post.
Proof.
  induction p as [|x p IH]; intros s; cbn [is_prefix].
  - split; [intros _; exists s; reflexivity|reflexivity].
  - destruct s as [|y s].
    + split; [discriminate|intros [post H]; discriminate H].
    + rewrite andb_true_iff, Ascii.eqb_eq, IH. split.
      * intros [-> [post ->]]. exists post. reflexivity.
      * intros [post H]. inversion H; subst. split; [reflexivity|].
        exists post. reflexivity.
Qed.

Lemma is_infix_iff p : forall s,
  is_infix p s = true <-> exists pre post, s = pre ++ p ++ post.
Proof.
  induction s as [|y s IH]; cbn [is_infix]; rewrite orb_true_iff, is_prefix_iff.
  - split.
    + intros [[post H]|H]; [|discriminate H]. exists [], post. exact H.
    + intros (pre & post & H). left.
      destruct pre; [exists post; exact H|discriminate H].
  - rewrite IH. split.
    + intros [[post H]|(pre & post & ->)].
      * exists [], post. exact H.
      * exists (y :: pre), post. reflexivity.
    + intros (pre & post & H). destruct pre as [|z pre].
      * left. exists post. exact H.
      * right. inversion H; subst. exists pre, post. reflexivity.
Qed.

Lemma replace_app c new a b :
  replace c new (a ++ b) = replace c new a ++ replace c new b.
Proof.
  induction a as [|x a IH]; [reflexivity|].
  cbn [app replace]. rewrite IH, app_assoc. reflexivity.
Qed.

Lemma removal_keeps_stars c s :
  c <> "*"%char ->
  is_infix (str "**") s = true -> is_infix (str "**") (replace c [] s) = true.
Proof.
  intros Hc H. apply is_infix_iff in H. destruct H as (pre & post & ->).
  apply is_infix_iff. exists (replace c [] pre), (replace c [] post).
  rewrite !replace_app.
  assert (E : replace c [] (str "**") = str "**").
  { change (str "**") with ["*"%char; "*"%char]. cbn [replace app].
    destruct (Ascii.eqb_spec "*"%char c) as [E|_]; [congruence|reflexivity]. }
  rewrite E. reflexivity.
Qed.

Lemma split_all_not_empty c s : sympy_solver.split_all c s <> [].
Proof.
  destruct s as [|x s]; cbn [sympy_solver.split_all]; [discriminate|].
  destruct (sympy_solver.split_all c s); [discriminate|].
  destruct (Ascii.eqb x c); discriminate.
Qed.

(** Between two adjacent separators [split] finds an empty piece. *)
Lemma split_all_double c post : forall pre,
  In [] (tl (sympy_solver.split_all c (pre ++ c :: c :: post))).
Proof.
  induction pre as [|x pre IH].
  - cbn [app sympy_solver.split_all].
    destruct (sympy_solver.split_all c post) as [|t ts] eqn:E;
      [destruct (split_all_not_empty _ _ E)|].
    rewrite Ascii.eqb_refl. cbn [tl]. left. reflexivity.
  - cbn [app sympy_solver.split_all].
    destruct (sympy_solver.split_all c (pre ++ c :: c :: post)) as [|t ts];
      [destruct IH|].
    cbn [tl] in IH. destruct (Ascii.eqb x c); cbn [tl]; [right|]; exact IH.
Qed.

Lemma stars_contain_star s :
  is_infix (str "**") s = true -> contains "*" s = true.
Proof.
  intros H. apply is_infix_iff in H. destruct H as (pre & post & ->).
  unfold contains. rewrite existsb_app. apply orb_true_iff. right. reflexivity.
Qed.

(** X18: when the factored form is printed with a power, as in
    "(x - 2)**2", the narrator splits it at every '*' and so finds an empty
    factor between the two stars: the narration contains the step
    "Solving  = 0". *)
Theorem X18_power_gives_empty_factor (sym : Type) (L : sympy_solver.lib sym)
    (steps : list text) (expr factored : sym) :
  sympy_solver.factor L expr = inr factored ->
  sympy_solver.sym_eqb L factored expr = false ->
  is_infix (str "**") (sympy_solver.to_str L factored) = true ->
  In (str "Solving  = 0") (sympy_solver.factoring_steps L steps expr).
Proof.
  intros Hf He Hp. unfold sympy_solver.factoring_steps.
  rewrite Hf, He, (stars_contain_star _ Hp). cbn [negb].
  apply in_or_app. right. apply in_or_app. right.
  change (str "Solving  = 0") with
    ((fun f => str "Solving " ++ f ++ str " = 0") []).
  apply in_map.
  assert (H : is_infix (str "**")
                (replace ")" [] (replace "(" [] (sympy_solver.to_str L factored)))
              = true).
  { apply removal_keeps_stars; [discriminate|].
    apply removal_keeps_stars; [discriminate|exact Hp]. }
  apply is_infix_iff in H. destruct H as (pre & post & ->).
  pose proof (split_all_double "*" post pre) as Hin.
  change (str "**" ++ post) with ("*"%char :: "*"%char :: post).
  destruct (sympy_solver.split_all "*" (pre ++ "*"%char :: "*"%char :: post));
    [destruct Hin|right; exact Hin].
Qed.

(** The theorem at [x**2 - 4*x + 4], factored as "(x - 2)**2": the steps
    are "Solving x - 2 = 0", "Solving  = 0" and "Solving 2 = 0". *)
Lemma X18_power_witness :
  sympy_solver.factoring_steps DemoX.factoring []
    (DemoSym.Opaque DemoX.perfect_square)
  = [str "Factoring: (x - 2)**2 = 0";
     str "Using the zero-product property: if a*b = 0, then either a = 0 or b = 0";
     str "Solving x - 2 = 0"; str "Solving  = 0"; str "Solving 2 = 0"]
  /\ In (str "Solving  = 0")
        (sympy_solver.factoring_steps DemoX.factoring []
           (DemoSym.Opaque DemoX.perfect_square)).
Proof.
  split; [reflexivity|].
  apply (@X18_power_gives_empty_factor _ DemoX.factoring []
           (DemoSym.Opaque DemoX.perfect_square)
           (DemoSym.Opaque (str "(x - 2)**2"))); reflexivity.
Defined.

(** ** Integration *)

(** X19: [integral_steps] only narrates.  Two runs of
    [perform_integration] against libraries that agree on everything but
    [integral_steps] give the same response apart from "steps": the same
    error, or the same "original", "integral", "variable" and "limits". *)
Theorem X19_integral_steps_only_narrates (sym : Type)
    (L1 L2 : sympy_solver.lib sym) (data : sympy_solver.int_request) :
  SpecX.same_integrator L1 L2 ->
  SpecX.without_steps (sympy_solver.perform_integration L1 data)
  = SpecX.without_steps (sympy_solver.perform_integration L2 data).
Proof.
  intros (H1 & H2 & H3 & H4 & H5 & H6 & H7 & H8 & H9).
  unfold sympy_solver.perform_integration. cbv zeta.
  rewrite ?H1, ?H2, ?H3, ?H4, ?H5, ?H6, ?H7, ?H8, ?H9.
  generalize (sympy_solver.integral_steps L1) (sympy_solver.integral_steps L2).
  intros o1 o2.
  unfold Py.bind, Py.ret, Py.raise, SpecX.without_steps.
  split_cases; reflexivity.
Qed.

(** The theorem at the antiderivative of [x^2], narrated and not. *)
Lemma X19_integral_steps_witness :
  dict_get (str "integral")
    (sympy_solver.perform_integration DemoX.narrated DemoX.antiderivative)
  = Some (VStr (str "x**3/3"))
  /\ SpecX.without_steps
       (sympy_solver.perform_integration DemoX.narrated DemoX.antiderivative)
     = SpecX.without_steps
         (sympy_solver.perform_integration DemoX.silent DemoX.antiderivative).
Proof.
  split; [reflexivity|].
  apply X19_integral_steps_only_narrates.
  repeat split; reflexivity.
Defined.

(** X20: [perform_integration] succeeds with limits only when there are
    exactly two of them: an empty list means the indefinite integral, one
    entry or more than two give an error object. *)
Theorem X20_limits_come_in_pairs (sym : Type) (L : sympy_solver.lib sym)
    (data : sympy_solver.int_request) (l : list value) :
  sympy_solver.limits data = Some l ->
  Spec.is_success (sympy_solver.perform_integration L data) ->
  l = [] \/ length l = 2%nat.
Proof.
  intros Hl. unfold sympy_solver.perform_integration. cbv zeta. rewrite Hl.
  destruct l as [|l0 [|l1 [|l2 l]]]; [left; reflexivity| |right; reflexivity|];
    intros H; exfalso; revert H;
    unfold Spec.is_success, sympy_solver.given, Num.index, Py.bind, Py.ret, Py.raise;
    cbn [get nth_error];
    split_cases; intros H; discriminate H.
Qed.

(** The theorem at the integral of [x^2] from 0 to 3. *)
Lemma X20_limits_witness :
  Spec.is_success (sympy_solver.perform_integration DemoX.narrated DemoX.area)
  /\ ([VInt 0; VInt 3] = [] \/ length [VInt 0; VInt 3] = 2%nat).
Proof.
  split; [reflexivity|].
  apply (@X20_limits_come_in_pairs _ DemoX.narrated DemoX.area); reflexivity.
Defined.
